(** * LolliPop: the deconvolution pipeline, embedded and verified

    A shallow embedding of
      - [src/lollipop/preprocessors.py]   (module [Preprocessors]),
      - [src/lollipop/cli/deconvolute.py] (module [Cli]),
      - [src/deconvolute.py]              (module [Script]),
    over a small model of the pandas frames the code works on.

    Conventions of the embedding.
      - A frame is an ordered list of column labels and a list of rows; a row
        carries its index label and its cells, keyed by column label.
      - A cell is a missing value (NaN/NaT/None), a number, a string or a
        timestamp.  Numbers are exact rationals: the rounding of binary
        floating point is abstracted away, the operations are the ones the
        code applies.
      - Python exceptions are values of [exn]; code that can raise returns a
        [result].
      - [list(set(..))] is [elements] of a [gset]: a duplicate-free list in an
        order the code has no control over. *)

From Stdlib Require Import Ascii QArith Qcanon Qround.
From stdpp Require Import base option list strings gmap fin_maps sets numbers sorting.

(** ** Python values and exceptions *)

Inductive cell : Type :=
  | NaN
  | Num (q : Qc)
  | Str (s : string)
  | Date (d : Z).

Global Instance cell_eq_dec : EqDecision cell.
Proof. solve_decision. Defined.

Global Instance cell_inhabited : Inhabited cell := populate NaN.

Global Instance cell_countable : Countable cell :=
  inj_countable'
    (λ c, match c with
          | NaN => inl (inl ())
          | Num q => inl (inr q)
          | Str s => inr (inl s)
          | Date d => inr (inr d)
          end)
    (λ x, match x with
          | inl (inl _) => NaN
          | inl (inr q) => Num q
          | inr (inl s) => Str s
          | inr (inr d) => Date d
          end)
    (λ c, match c with NaN | Num _ | Str _ | Date _ => eq_refl end).

Inductive exn : Type :=
  | AssertionError (msg : string)
  | KeyError (key : string)
  | TypeError (msg : string)
  | ValueError (msg : string)
  | NameError (name : string)
  | AttributeError (name : string)
  | SystemExit (code : Z).

Global Instance exn_eq_dec : EqDecision exn.
Proof. solve_decision. Defined.

Inductive result (A : Type) : Type :=
  | Ok (a : A)
  | Err (e : exn).

Arguments Ok {A} a.
Arguments Err {A} e.

Global Instance result_eq_dec {A} `{EqDecision A} : EqDecision (result A).
Proof. solve_decision. Defined.

Global Instance result_ret : MRet result := λ A a, Ok a.
Global Instance result_bind : MBind result := λ A B f m,
  match m with
  | Ok a => f a
  | Err e => Err e
  end.

Global Instance result_fmap : FMap result := λ A B f m,
  match m with
  | Ok a => Ok (f a)
  | Err e => Err e
  end.

Definition is_ok {A} (m : result A) : bool :=
  match m with Ok _ => true | Err _ => false end.

(** [assert cond, msg] *)
Definition py_assert (cond : bool) (msg : string) : result unit :=
  if cond then Ok tt else Err (AssertionError msg).

(** ** Frames *)

Record row : Type := Row {
  label : cell;
  cells : gmap string cell;
}.

Record table : Type := Table {
  columns : list string;
  rows : list row;
}.

#[global] Instance row_eq_dec : EqDecision row.
Proof. solve_decision. Defined.

#[global] Instance table_eq_dec : EqDecision table.
Proof. solve_decision. Defined.

(** The cell of row [r] under column [c]; a cell the row does not hold reads
    as missing. *)
Definition at_ (r : row) (c : string) : cell := default NaN (cells r !! c).

Definition set_cell (c : string) (v : cell) (r : row) : row :=
  Row (label r) (<[c := v]> (cells r)).

(** [c in df.columns] *)
Definition has_column (t : table) (c : string) : bool :=
  bool_decide (c ∈ columns t).

(** [df.size] *)
Definition size_ (t : table) : nat := length (rows t) * length (columns t).

(** [df[mask]]: keep the rows the predicate holds on. *)
Definition select (p : row → bool) (t : table) : table :=
  Table (columns t) (filter (λ r, p r = true) (rows t)).

(** [df[c] = v] with a scalar or a per-row value. *)
Definition assign (c : string) (f : row → cell) (t : table) : table :=
  Table (if has_column t c then columns t else columns t ++ [c])
        ((λ r, set_cell c (f r) r) <$> rows t).

(** A row rebuilt from the cells [g] gives for the labels [cols]. *)
Definition row_of (l : cell) (cols : list string) (g : string → cell) : row :=
  Row l (list_to_map ((λ c, (c, g c)) <$> cols)).

(** [df.replace(..)], [df.fillna(..)], [df.applymap(..)]: every cell of every
    column. *)
Definition map_cells (f : cell → cell) (t : table) : table :=
  Table (columns t) ((λ r, row_of (label r) (columns t) (λ c, f (at_ r c))) <$> rows t).

(** [Series.unique()]: the distinct values, in order of first appearance. *)
Fixpoint unique {A} `{EqDecision A} (l : list A) : list A :=
  match l with
  | [] => []
  | x :: l' => x :: filter (λ y, y ≠ x) (unique l')
  end.

(** [list(set(xs) & set(ys))] *)
Definition set_inter_list (xs ys : list string) : list string :=
  elements ((list_to_set xs : gset string) ∩ list_to_set ys).

(** [list(set(xs) - set(ys))] *)
Definition set_diff_list (xs ys : list string) : list string :=
  elements ((list_to_set xs : gset string) ∖ list_to_set ys).

Definition qc_of_nat (n : nat) : Qc := Qc_of_Z (Z.of_nat n).

(** Numeric reading of a cell in arithmetic. *)
Definition as_num (c : cell) : result (option Qc) :=
  match c with
  | Num q => Ok (Some q)
  | NaN => Ok None
  | Str _ => Err (TypeError "unsupported operand type(s): 'int' and 'str'")
  | Date _ => Err (TypeError "unsupported operand type(s): 'int' and 'Timestamp'")
  end.

(** [1 - x] on a cell; a missing value stays missing. *)
Definition one_minus (c : cell) : result cell :=
  o ← as_num c;
  Ok (match o with Some q => Num (1 - q)%Qc | None => NaN end).

(** ["-" + x] on a cell of an object column. *)
Definition prepend_dash (c : cell) : result cell :=
  match c with
  | Str s => Ok (Str ("-" +:+ s))
  | NaN => Ok NaN
  | _ => Err (TypeError "can only concatenate str to str")
  end.

(** [df[cols].sum(axis=1)] for one row: missing values are skipped. *)
Fixpoint row_sum (cols : list string) (r : row) : result Qc :=
  match cols with
  | [] => Ok 0%Qc
  | c :: cols' =>
      o ← as_num (at_ r c);
      s ← row_sum cols' r;
      Ok (default 0%Qc o + s)%Qc
  end.

(** [~df[cols].sum(axis=1).isin([0, len(cols)])] for one row. *)
Definition informative (cols : list string) (r : row) : result bool :=
  s ← row_sum cols r;
  Ok (negb (bool_decide (s = 0%Qc) || bool_decide (s = qc_of_nat (length cols)))).

(** Row filter with a mask whose computation can raise. *)
Fixpoint select_m (p : row → result bool) (rs : list row) {struct rs}
  : result (list row) :=
  match rs with
  | [] => Ok []
  | r :: rs' =>
      b ← p r;
      rs'' ← select_m p rs';
      Ok (if (b : bool) then r :: rs'' else rs'')
  end.

(** [df[~df[cols].sum(axis=1).isin([0, len(cols)])]] *)
Definition drop_uninformative (cols : list string) (t : table) : result table :=
  rs ← select_m (informative cols) (rows t);
  Ok (Table (columns t) rs).

(** Monadic map over the rows or the columns of a frame. *)
Fixpoint map_m {A B} (f : A → result B) (l : list A) {struct l} : result (list B) :=
  match l with
  | [] => Ok []
  | x :: l' =>
      y ← f x;
      ys ← map_m f l';
      Ok (y :: ys)
  end.

(** [df[c]]: the column must exist. *)
Definition require_column (t : table) (c : string) : result unit :=
  if has_column t c then Ok tt else Err (KeyError c).

(** [df[c] = f(df)] where computing a value can raise. *)
Definition assign_m (c : string) (f : row → result cell) (t : table) : result table :=
  rs ← map_m (λ r, v ← f r; Ok (set_cell c v r)) (rows t);
  Ok (Table (if has_column t c then columns t else columns t ++ [c]) rs).

(** [s + x] for a string [s] and a cell of an object column. *)
Definition str_concat (s : string) (c : cell) : result cell :=
  match c with
  | Str s' => Ok (Str (s +:+ s'))
  | NaN => Ok NaN
  | _ => Err (TypeError "can only concatenate str to str")
  end.

(** [df.reindex(columns=cols)] on one row: exactly the cells of [cols],
    missing ones as NaN. *)
Definition reindex (cols : list string) (r : row) : row :=
  row_of (label r) cols (at_ r).

(** Column labels of [pd.concat]: the union, in order of first appearance. *)
Definition union_columns (ts : list table) : list string :=
  foldl (λ acc t, acc ++ filter (λ c, c ∉ acc) (unique (columns t))) [] ts.

(** [pd.concat(frames)] *)
Definition concat (ts : list table) : table :=
  let cols := union_columns ts in
  Table cols (t ← ts; reindex cols <$> rows t).

(** [df.drop(cols, axis=1, errors="ignore")] *)
Definition drop_columns (cols : list string) (t : table) : table :=
  Table (filter (λ c, c ∉ cols) (columns t))
        ((λ r, Row (label r) (filter (λ kv, kv.1 ∉ cols) (cells r))) <$> rows t).

(** [df.reset_index(drop=True)] *)
Definition reset_index_drop (t : table) : table :=
  Table (columns t) (imap (λ i r, Row (Num (qc_of_nat i)) (cells r)) (rows t)).

(** A Python [dict] with insertion order: keys are distinct. *)
Definition dict (K V : Type) : Type := list (K * V).

Definition dict_keys {K V} (d : dict K V) : list K := fst <$> d.
Definition dict_values {K V} (d : dict K V) : list V := snd <$> d.

Fixpoint dict_get {K V} `{EqDecision K} (d : dict K V) (k : K) : option V :=
  match d with
  | [] => None
  | (k', v) :: d' => if decide (k' = k) then Some v else dict_get d' k
  end.

(** * [src/lollipop/preprocessors.py] *)

Module Preprocessors.

(** The arguments of [general_preprocess]. *)
Record args : Type := Args {
  variants_list : list string;
  variants_pangolin : dict string string;
  variants_not_reported : list string;
  to_drop : list string;
  start_date : option Z;
  end_date : option Z;
  no_date : bool;
  remove_deletions : bool;
  with_complement : bool;
}.

(** The five relationship tags the recoding pass turns into 1. *)
Definition tags : list string := ["extra"; "mut"; "shared"; "revert"; "subset"].

(** [df.replace(np.nan, 0)] on one cell. *)
Definition replace_nan (c : cell) : cell :=
  match c with NaN => Num 0%Qc | _ => c end.

(** [df.replace(["extra", "mut", "shared", "revert", "subset"], 1)] on one cell. *)
Definition replace_tags (c : cell) : cell :=
  match c with
  | Str s => if bool_decide (s ∈ tags) then Num 1%Qc else c
  | _ => c
  end.

(** [df.insert(loc, column, value)] *)
Definition insert_column (loc : Z) (c : string) (v : cell) (t : table) : result table :=
  if has_column t c then
    Err (ValueError ("cannot insert " +:+ c +:+ ", already exists"))
  else if bool_decide (0 ≤ loc ≤ Z.of_nat (length (columns t)))%Z then
    Ok (Table (take (Z.to_nat loc) (columns t) ++ c :: drop (Z.to_nat loc) (columns t))
              (set_cell c v <$> rows t))
  else Err (ValueError "unbounded slice").

Section DataPreprocesser.

(** [Series.astype(str)] on one value and [pd.to_datetime] on one value: the
    text of a number and the date parser are pandas' own. *)
Variable astype_str : cell → string.
Variable to_datetime : cell → result cell.

(** [make_complement], lines 14-22. *)
Definition make_complement (df_tally : table) (variants_list : list string)
  : result table :=
  let t_data := df_tally in
  _ ← require_column t_data "mutations";
  t_data ← assign_m "mutations" (λ r, prepend_dash (at_ r "mutations")) t_data;
  _ ← require_column t_data "frac";
  t_data ← assign_m "frac" (λ r, one_minus (at_ r "frac")) t_data;
  _ ← map_m (require_column t_data) variants_list;
  rs ← map_m (λ r,
          vs ← map_m (λ v, one_minus (at_ r v)) variants_list;
          Ok (foldr (λ vx r', set_cell vx.1 vx.2 r') r (zip variants_list vs)))
        (rows t_data);
  let t_data := Table (columns t_data) rs in
  Ok (assign "undetermined" (λ _, Num 1%Qc) t_data).

(** [df.dropna(subset=cols)] *)
Definition dropna (subset : list string) (t : table) : result table :=
  _ ← map_m (require_column t) subset;
  Ok (select (λ r, forallb (λ c, negb (bool_decide (at_ r c = NaN))) subset) t).

(** [df["date"] >= d] and [df["date"] < d] on one cell; a missing date
    compares false. *)
Definition date_ge (c : cell) (d : Z) : bool :=
  match c with Date x => bool_decide (d ≤ x)%Z | _ => false end.
Definition date_lt (c : cell) (d : Z) : bool :=
  match c with Date x => bool_decide (x < d)%Z | _ => false end.

(** [df[v].isin(to_drop)] on one cell. *)
Definition isin_str (l : list string) (c : cell) : bool :=
  match c with Str s => bool_decide (s ∈ l) | _ => false end.

(** One round of the loop of lines 87-91. *)
Definition drop_tagged (to_drop : list string) (df : table) (v : string) : table :=
  if has_column df v then
    let drop_mask := λ r, isin_str to_drop (at_ r v) in
    if existsb drop_mask (rows df) then select (λ r, negb (drop_mask r)) df
    else df
  else df.

(** Lines 37-93: renaming, dropping of columns and rows, up to the reset of
    the index. *)
Definition before_recode (a : args) (df_tally : table) : result table :=
  let values := dict_values (variants_pangolin a) in
  _ ← py_assert
        (bool_decide (length values = size (list_to_set values : gset string)))
        "duplicate values in variants_pangolin";
  let rename := λ c, default c (dict_get (variants_pangolin a) c) in
  let df := Table (rename <$> columns df_tally)
                  ((λ r, Row (label r) (kmap rename (cells r))) <$> rows df_tally) in
  let df := drop_columns (variants_not_reported a) df in
  df ← dropna (if no_date a then ["frac"] else ["frac"; "date"]) df;
  df ← (if has_column df "base" && has_column df "pos" then
          assign_m "mutations"
            (λ r, str_concat (astype_str (at_ r "pos")) (at_ r "base")) df
        else Ok df);
  _ ← require_column df "date";
  df ← assign_m "date" (λ r, to_datetime (at_ r "date")) df;
  let df :=
    if no_date a then df
    else
      let df := match start_date a with
                | Some d => select (λ r, date_ge (at_ r "date") d) df
                | None => df
                end in
      match end_date a with
      | Some d => select (λ r, date_lt (at_ r "date") d) df
      | None => df
      end in
  let df :=
    if remove_deletions a && has_column df "base" then
      select (λ r, negb (bool_decide (at_ r "base" = Str "-"))) df
    else df in
  let df := foldl (drop_tagged (to_drop a)) df (variants_list a) in
  Ok (reset_index_drop df).

(** Lines 96-100: the recoding pass. *)
Definition recode (df : table) : table :=
  map_cells replace_tags (map_cells replace_nan df).

(** [variants_columns], line 103. *)
Definition variants_columns (a : args) (df : table) : list string :=
  set_inter_list (variants_list a) (columns df).

(** Lines 103-115: uninformative rows, the [undetermined] column and the
    complement rows. *)
Definition after_recode (a : args) (df : table) : result table :=
  let variants_columns := variants_columns a df in
  df ← drop_uninformative variants_columns df;
  df ← insert_column (Z.of_nat (length (columns df)) - 1)%Z "undetermined" (Num 0%Qc) df;
  if with_complement a then
    comp ← make_complement df variants_columns;
    Ok (concat [df; comp])
  else Ok df.

(** [general_preprocess], lines 24-117. *)
Definition general_preprocess (a : args) (df_tally : table) : result table :=
  df ← before_recode a df_tally;
  after_recode a (recode df).

(** [filter_mutations], lines 119-123: the filters are disabled. *)
Definition filter_mutations (filters : option (list string)) (df : table) : table := df.

End DataPreprocesser.

End Preprocessors.

(** * The [lollipop] package as the command-line programs see it *)

Module Lollipop.

Inductive kernel_cls : Type := GaussianKernel | BoxKernel.
Inductive confint_cls : Type := NullConfint | WaldConfint.
Inductive regressor_cls : Type := NnlsReg | RobustReg.

Global Instance confint_cls_eq_dec : EqDecision confint_cls.
Proof. solve_decision. Defined.

(** The arguments of one [KernelDeconv(..).deconv_all(..)]. *)
Record engine_call : Type := EngineCall {
  ec_design : table;
  ec_frac : list cell;
  ec_date : list cell;
  ec_kernel : kernel_cls * dict string cell;
  ec_reg : regressor_cls * dict string cell;
  ec_confint : confint_cls * dict string cell;
  ec_weights : option (list cell);
  ec_deconv_params : dict string cell;
}.

(** What the program reads off the fitted object: [fitted] and
    [conf_bands["lower"]], [conf_bands["upper"]]. *)
Record kdec : Type := KDec {
  fitted : table;
  conf_lower : table;
  conf_upper : table;
}.

(** The deconvolution parameters document. *)
Record deconv_yaml : Type := DeconvYaml {
  bootstrap_key : option Z;
  kernel_key : option string;
  kernel_params_key : option (dict string cell);
  confint_key : option string;
  confint_params_key : option (dict string cell);
  regressor_key : option string;
  regressor_params_key : option (dict string cell);
  deconv_params_key : option (dict string cell);
}.

(** The state the deconvolution loops thread: the generator behind
    [np.random], the collected results and the calls made to the regression
    engine, oldest first. *)
Record driver (rng : Type) : Type := Driver {
  rng_state : rng;
  all_deconv : list table;
  calls : list engine_call;
}.
Arguments Driver {rng} _ _ _.
Arguments rng_state {rng} _.
Arguments all_deconv {rng} _.
Arguments calls {rng} _.

(** Code that can raise and that reads and writes the driver state; the state
    reached when an exception is raised is kept. *)
Definition M (rng A : Type) : Type := driver rng → result A * driver rng.

Global Instance M_ret {rng} : MRet (M rng) := λ A a s, (Ok a, s).
Global Instance M_bind {rng} : MBind (M rng) := λ A B f m s,
  match m s with
  | (Ok a, s') => f a s'
  | (Err e, s') => (Err e, s')
  end.

Definition lift {rng A} (m : result A) : M rng A := λ s, (m, s).

(** [for x in xs: body(x)] *)
Fixpoint for_ {rng A} (xs : list A) (body : A → M rng unit) {struct xs} : M rng unit :=
  match xs with
  | [] => mret tt
  | x :: xs' => _ ← body x; for_ xs' body
  end.

(** [all_deconv.append(res)] *)
Definition append_result {rng} (res : table) : M rng unit :=
  λ s, (Ok tt, Driver (rng_state s) (all_deconv s ++ [res]) (calls s)).

(** The results collected so far. *)
Definition collected {rng} : M rng (list table) := λ s, (Ok (all_deconv s), s).

(** [df[c]] as the list of its values. *)
Definition column (t : table) (c : string) : result (list cell) :=
  _ ← require_column t c;
  Ok ((λ r, at_ r c) <$> rows t).

(** [df[cols]] *)
Definition select_columns (cols : list string) (t : table) : result table :=
  _ ← map_m (require_column t) cols;
  Ok (Table cols (reindex cols <$> rows t)).

(** [range(n)] *)
Definition range (n : Z) : list Z := Z.of_nat <$> seq 0 (Z.to_nat n).

(** [assert cond, msg] where evaluating the message can itself raise. *)
Definition py_assert_msg (cond : bool) (msg : result string) : result unit :=
  if cond then Ok tt
  else match msg with
       | Ok m => Err (AssertionError m)
       | Err e => Err e
       end.

Section Engine.

(** The regression engine, the resampler and numpy's generator are outside the
    sources at hand. *)
Context {rng : Type}.
Variable np_random_seed : option Z → rng.
Variable resample_mutations : rng → table → list cell → result (table * rng).
Variable deconv_all : engine_call → result kdec.

(** [np.random.seed(seed)] *)
Definition seed_generator (seed : option Z) : M rng unit :=
  λ s, (Ok tt, Driver (np_random_seed seed) (all_deconv s) (calls s)).

(** [ll.resample_mutations(df, mutations)[0]] *)
Definition resample (df : table) (mutations : list cell) : M rng table :=
  λ s, match resample_mutations (rng_state s) df mutations with
       | Ok (df', g) => (Ok df', Driver g (all_deconv s) (calls s))
       | Err e => (Err e, s)
       end.

(** [ll.KernelDeconv(..).deconv_all(..)]; the call is recorded. *)
Definition kernel_deconv (c : engine_call) : M rng kdec :=
  λ s, (deconv_all c, Driver (rng_state s) (all_deconv s) (calls s ++ [c])).

End Engine.

End Lollipop.

(** * [src/lollipop/cli/deconvolute.py] *)

Module Cli.
Import Lollipop.

Definition kernels : dict string kernel_cls :=
  [("gaussian", GaussianKernel); ("box", BoxKernel)].
Definition confints : dict string confint_cls :=
  [("null", NullConfint); ("wald", WaldConfint)].
Definition regressors : dict string regressor_cls :=
  [("nnls", NnlsReg); ("robust", RobustReg)].

(** [d.get(k, default)] for a key that may itself be [None]. *)
Definition get_cls {A} (d : dict string A) (k : option string) (dflt : A) : A :=
  default dflt (k ≫= dict_get d).

(** The variants configuration document. *)
Record conf_yaml : Type := ConfYaml {
  cy_variants_pangolin : dict string string;
  cy_variants_list : option (list string);
  cy_variants_not_reported : option (list string);
  cy_to_drop : option (list string);
  cy_no_date : option bool;
  cy_no_loc : option bool;
  cy_start_date : option Z;
  cy_end_date : option Z;
  cy_remove_deletions : option bool;
  cy_locations_list : option (list cell);
}.

(** The command line and the documents it names, already loaded: reading the
    files is outside the embedding. *)
Record inputs : Type := Inputs {
  variants_config : string;
  conf : conf_yaml;
  variants_dates : option string;
  var_dates_yaml : dict Z (list string);
  deconv : deconv_yaml;
  loc : list cell;
  filters : option (list string);
  seed : option Z;
  fmt_columns : bool;
  out_json : bool;
  tally_data : table;
}.

(** [len(x)] for a value that may be [None]. *)
Definition py_len {A} (x : option (list A)) : result nat :=
  match x with
  | Some l => Ok (length l)
  | None => Err (TypeError "object of type 'NoneType' has no len()")
  end.

(** The lines printed at lines 168, 171-173, 176-178 and 181-183. *)
Definition note_location_codes : string :=
  "NOTE: No location fullnames, using codes instead".
Definition warning_single_location : string :=
  "WARNING: No location in input data, assuming everything is {locations_list[0]}".
Definition warning_no_location (variants_config : string) : string :=
  "WARNING: No location in input data. Either pass one with `--loc`/`locations_list` parameter  or set true the `no_loc` parameter "
  +:+ variants_config.
Definition error_no_location (variants_config : string) : string :=
  "ERROR: No location in input data. Either pass exactly one with `--loc`/`locations_list` parameter or set true the `no_loc` parameter "
  +:+ variants_config.

(** Lines 166-184: the table has no [location] column.  The result carries
    the lines printed, the table and the [no_loc] flag. *)
Definition handle_location (variants_config : string) (no_loc : bool)
    (locations_list : option (list cell)) (df_tally : table)
  : list string * result (table * bool) :=
  if negb no_loc && negb (has_column df_tally "location") then
    if has_column df_tally "location_code" then
      ([note_location_codes],
       Ok (assign "location" (λ r, at_ r "location_code") df_tally, no_loc))
    else
      match py_len locations_list with
      | Err e => ([], Err e)
      | Ok n =>
          if bool_decide (n = 1) then
            ([warning_single_location],
             Ok (assign "location" (λ _, default NaN (locations_list ≫= head)) df_tally,
                 no_loc))
          else if bool_decide (locations_list = None) then
            ([warning_no_location variants_config], Ok (df_tally, true))
          else
            ([error_no_location variants_config], Err (SystemExit 1))
      end
  else ([], Ok (df_tally, no_loc)).

(** [set(df["location"].unique()) - {"", np.nan}] as a list. *)
Definition observed_locations (values : list cell) : list cell :=
  elements ((list_to_set values : gset cell) ∖ {[Str ""; NaN]}).

(** Lines 186-210: the locations to process. *)
Definition resolve_locations (no_loc : bool) (locations_list : option (list cell))
    (df_tally : table) : result (table * list cell) :=
  '(df_tally, locations_list) ←
    (if no_loc then
       Ok (assign "location" (λ _, Str "location") df_tally, Some [Str "location"])
     else Ok (df_tally, locations_list));
  values ← column df_tally "location";
  match locations_list with
  | None => Ok (df_tally, observed_locations values)
  | Some l =>
      let bad_locations := (list_to_set l : gset cell) ∖ list_to_set (unique values) in
      _ ← py_assert (bool_decide (0 = size bad_locations)) "Bad locations in list";
      Ok (df_tally, l)
  end.

(** Day numbers (days since 1970-01-01) of the two dates the program names. *)
Definition day_1999_12_01 : Z := 10926.
Definition day_2020_01_01 : Z := 18262.

(** Position of [x] in [l]. *)
Fixpoint index_of {A} `{EqDecision A} (x : A) (l : list A) : nat :=
  match l with
  | [] => 0
  | y :: l' => if decide (y = x) then 0 else S (index_of x l')
  end.

(** Lines 213-235: is there a date, and the dummy dates of the date-less
    mode, one day per sample. *)
Definition handle_dates (no_date : bool) (df_tally : table) : result (table * bool) :=
  let no_date :=
    if negb (has_column df_tally "date")
       || forallb (λ r, bool_decide (at_ r "date" = NaN)) (rows df_tally)
    then true else no_date in
  if no_date then
    samples ← column df_tally "sample";
    let uniq := unique samples in
    Ok (assign "date"
          (λ r, Date (day_1999_12_01 + Z.of_nat (index_of (at_ r "sample") uniq)))
          df_tally,
        no_date)
  else Ok (df_tally, no_date).

(** Lines 238-282: the variants searched for and the schedule. *)
Definition plan_variants (i : inputs) (no_date : bool)
  : list string * dict Z (list string) :=
  match variants_dates i with
  | Some _ =>
      let var_dates := var_dates_yaml i in
      let all_var_dates := mjoin (dict_values var_dates) in
      match cy_variants_list (conf i) with
      | None => (elements (list_to_set all_var_dates : gset string), var_dates)
      | Some variants_list =>
          let not_on_list := set_diff_list all_var_dates variants_list in
          (if bool_decide (0 < length not_on_list) then variants_list ++ not_on_list
           else variants_list,
           var_dates)
      end
  | None =>
      let variants_list :=
        match cy_variants_list (conf i) with
        | None =>
            elements (list_to_set (dict_values (cy_variants_pangolin (conf i)))
                      : gset string)
        | Some l => l
        end in
      (variants_list,
       if no_date then [(day_1999_12_01, variants_list)]
       else [(default day_2020_01_01 (cy_start_date (conf i)), variants_list)])
  end.

(** Line 286: [zip(d, d[1:] + [None])] *)
Definition date_intervals (var_dates : dict Z (list string)) : list (Z * option Z) :=
  let d := dict_keys var_dates in
  zip d ((Some <$> drop 1 d) ++ [None]).

(** Lines 287-295.  The message of the assertion names [variants_date], which
    is bound nowhere: evaluating it raises. *)
Definition check_intervals (no_date : bool) (intervals : list (Z * option Z))
  : result unit :=
  if negb no_date then
    _ ← map_m (λ '(mindate, maxdate),
           match maxdate with
           | Some maxdate =>
               py_assert_msg (bool_decide (mindate < maxdate)%Z)
                 (Err (NameError "variants_date"))
           | None => Ok tt
           end) intervals;
    Ok tt
  else Ok tt.

(** [d[k] = v] *)
Fixpoint dict_set {K V} `{EqDecision K} (d : dict K V) (k : K) (v : V) : dict K V :=
  match d with
  | [] => [(k, v)]
  | (k', v') :: d' =>
      if decide (k' = k) then (k, v) :: d' else (k', v') :: dict_set d' k v
  end.

(** [str.capitalize()] on ASCII text. *)
Definition upper (a : Ascii.ascii) : Ascii.ascii :=
  let n := Ascii.nat_of_ascii a in
  if bool_decide (97 ≤ n ≤ 122) then Ascii.ascii_of_nat (n - 32) else a.
Definition lower (a : Ascii.ascii) : Ascii.ascii :=
  let n := Ascii.nat_of_ascii a in
  if bool_decide (65 ≤ n ≤ 90) then Ascii.ascii_of_nat (n + 32) else a.
Fixpoint map_string (f : Ascii.ascii → Ascii.ascii) (s : string) : string :=
  match s with
  | EmptyString => EmptyString
  | String a s' => String (f a) (map_string f s')
  end.
Definition capitalize (s : string) : string :=
  match s with
  | EmptyString => EmptyString
  | String a s' => String (upper a) (map_string lower s')
  end.

(** What lines 316-335 read off the deconvolution parameters. *)
Record params : Type := Params {
  bootstrap : Z;
  kernel : kernel_cls;
  kernel_params : dict string cell;
  confint : confint_cls;
  have_confint : bool;
  confint_name : option string;
  confint_params : dict string cell;
  regressor : regressor_cls;
  regressor_params : dict string cell;
  deconv_params : dict string cell;
}.

(** The bandwidth [1e-17] of the date-less mode. *)
Definition tiny_bandwidth : Qc := Q2Qc (1 # 100000000000000000).

(** Lines 316-335, with the assertion of lines 326-328. *)
Definition read_params (deconv : deconv_yaml) (no_date : bool) : result params :=
  let bootstrap := default 0%Z (bootstrap_key deconv) in
  let kernel := get_cls kernels (kernel_key deconv) GaussianKernel in
  let kernel_params := default [] (kernel_params_key deconv) in
  let kernel_params :=
    if no_date then dict_set kernel_params "bandwidth" (Num tiny_bandwidth)
    else kernel_params in
  let confint := get_cls confints (confint_key deconv) NullConfint in
  let have_confint := bool_decide (confint ≠ NullConfint) in
  _ ← py_assert (negb (have_confint && bool_decide (1 < bootstrap)%Z))
        "either use bootstrapping or a confint class, not both at the same time.";
  let confint_name :=
    if have_confint then capitalize <$> confint_key deconv else None in
  Ok {| bootstrap := bootstrap;
        kernel := kernel;
        kernel_params := kernel_params;
        confint := confint;
        have_confint := have_confint;
        confint_name := confint_name;
        confint_params := default [] (confint_params_key deconv);
        regressor := get_cls regressors (regressor_key deconv) NnlsReg;
        regressor_params := default [] (regressor_params_key deconv);
        deconv_params := default [] (deconv_params_key deconv) |}.

Section Driver.

Context {rng : Type}.
Variable np_random_seed : option Z → rng.
Variable resample_mutations : rng → table → list cell → result (table * rng).
Variable deconv_all : engine_call → result kdec.

(** What the loops of lines 352-442 read from their surroundings. *)
Variable p : params.
Variable no_date no_loc : bool.
Variable var_dates : dict Z (list string).

(** [var_dates["var_dates"][mindate]] *)
Definition window_variants (mindate : Z) : result (list string) :=
  match dict_get var_dates mindate with
  | Some l => Ok l
  | None => Err (KeyError "mindate")
  end.

(** Lines 378-388: the rows of the window. *)
Definition window_rows (temp_dfb : table) (mindate : Z) (maxdate : option Z)
  : result table :=
  if negb no_date then
    if has_column temp_dfb "date" then
      match maxdate with
      | Some maxdate =>
          Ok (select (λ r, Preprocessors.date_ge (at_ r "date") mindate
                           && Preprocessors.date_lt (at_ r "date") maxdate) temp_dfb)
      | None => Ok (select (λ r, Preprocessors.date_ge (at_ r "date") mindate) temp_dfb)
      end
    else Err (AttributeError "date")
  else Ok temp_dfb.

(** Lines 422-442: the results collected from one fit. *)
Definition collect (location : cell) (t_kdec : kdec) : M rng unit :=
  if have_confint p then
    let name := default "None" (confint_name p) in
    let tag (t : table) (estimate : string) :=
      assign "estimate" (λ _, Str estimate) (assign "location" (λ _, location) t) in
    _ ← append_result (tag (fitted t_kdec) "MSE");
    _ ← append_result (tag (conf_lower t_kdec) (name +:+ "_lower"));
    append_result (tag (conf_upper t_kdec) (name +:+ "_upper"))
  else
    append_result (assign "location" (λ _, location) (fitted t_kdec)).

(** Lines 373-442: the body of the loop over the time windows. *)
Definition window_body (location : cell) (temp_dfb : table) (w : Z * option Z)
  : M rng unit :=
  let '(mindate, maxdate) := w in
  temp_df2 ← lift (window_rows temp_dfb mindate maxdate);
  if bool_decide (size_ temp_df2 = 0) then mret tt
  else
    active ← lift (window_variants mindate);
    let variants_columns := set_inter_list active (columns temp_df2) in
    temp_df2 ← lift (drop_uninformative variants_columns temp_df2);
    if bool_decide (size_ temp_df2 = 0) then mret tt
    else
      weights ← (if bool_decide (1 < bootstrap p)%Z
                 then lift (Some <$> column temp_df2 "resample_value")
                 else mret None);
      design ← lift (select_columns (active ++ ["undetermined"]) temp_df2);
      frac ← lift (column temp_df2 "frac");
      date ← lift (column temp_df2 "date");
      t_kdec ← kernel_deconv deconv_all
        {| ec_design := design;
           ec_frac := frac;
           ec_date := date;
           ec_kernel := (kernel p, kernel_params p);
           ec_reg := (regressor p, regressor_params p);
           ec_confint := (confint p, confint_params p);
           ec_weights := weights;
           ec_deconv_params := deconv_params p |};
      collect location t_kdec.

(** Lines 361-442: the body of the loop over the bootstrap replicates. *)
Definition replicate_body (location : cell) (loc_df : table)
    (intervals : list (Z * option Z)) (b : Z) : M rng unit :=
  temp_dfb ←
    (if bool_decide (1 < bootstrap p)%Z then
       mutations ← lift (column loc_df "mutations");
       resample resample_mutations loc_df (unique mutations)
     else mret loc_df);
  for_ intervals (window_body location temp_dfb).

(** Lines 352-442: the body of the loop over the locations. *)
Definition location_body (df_tally : table) (intervals : list (Z * option Z))
    (location : cell) : M rng unit :=
  loc_df ←
    (if negb no_loc then
       _ ← lift (require_column df_tally "location");
       mret (select (λ r, bool_decide (at_ r "location" = location)) df_tally)
     else mret df_tally);
  for_ (if bool_decide (1 < bootstrap p)%Z then range (bootstrap p) else [0%Z])
       (replicate_body location loc_df intervals).

(** Lines 352-442. *)
Definition deconvolve_all (df_tally : table) (locations_list : list cell)
    (intervals : list (Z * option Z)) : M rng unit :=
  for_ locations_list (location_body df_tally intervals).

End Driver.

(** ** Lines 444-527: post-processing *)

(** A column label of a reshaped frame: a plain name or a pair. *)
Inductive clabel : Type :=
  | Flat (s : string)
  | Multi (a b : string).

Global Instance clabel_eq_dec : EqDecision clabel.
Proof. solve_decision. Defined.

(** A frame with such labels; its rows are positional. *)
Record frame : Type := Frame {
  f_columns : list clabel;
  f_rows : list (list cell);
}.

(** [df.fillna(0)] on one cell. *)
Definition fillna_zero (c : cell) : cell :=
  match c with NaN => Num 0%Qc | _ => c end.

(** Lines 445-447. *)
Definition concat_results (have_confint : bool) (all_deconv : list table)
  : result table :=
  deconv_df ← (if bool_decide (all_deconv = [])
               then Err (ValueError "No objects to concatenate")
               else Ok (concat all_deconv));
  Ok (if negb have_confint then map_cells fillna_zero deconv_df else deconv_df).

(** [df.melt(id_vars, value_vars, var_name, value_name, ignore_index=False)] *)
Definition melt (id_vars value_vars : list string) (var_name value_name : string)
    (t : table) : result table :=
  _ ← map_m (require_column t) (id_vars ++ value_vars);
  Ok (Table (id_vars ++ [var_name; value_name])
        (v ← value_vars;
         (λ r, set_cell value_name (at_ r v)
                 (set_cell var_name (Str v) (reindex id_vars r))) <$> rows t)).

(** [df.reset_index()]: the index becomes the column [index]. *)
Definition reset_index (t : table) : table :=
  Table ("index" :: columns t)
        (imap (λ i r, Row (Num (qc_of_nat i)) (<["index" := label r]> (cells r)))
              (rows t)).

(** The order of sorting and grouping: within one kind of value the usual
    order, missing values last. *)
Definition cell_rank (c : cell) : nat :=
  match c with Num _ => 0 | Str _ => 1 | Date _ => 2 | NaN => 3 end.

Definition cell_leb (x y : cell) : bool :=
  match x, y with
  | Num a, Num b => bool_decide (a ≤ b)%Qc
  | Str a, Str b => String.leb a b
  | Date a, Date b => bool_decide (a ≤ b)%Z
  | _, _ => bool_decide (cell_rank x ≤ cell_rank y)
  end.

Definition key : Type := list cell.

(** Keys compare column by column. *)
Fixpoint key_leb (k1 k2 : key) : bool :=
  match k1, k2 with
  | [], _ => true
  | _ :: _, [] => false
  | x :: k1', y :: k2' => if decide (x = y) then key_leb k1' k2' else cell_leb x y
  end.

Definition key_le (k1 k2 : key) : Prop := key_leb k1 k2 = true.

Global Instance key_le_dec : RelDecision key_le.
Proof. intros k1 k2. unfold key_le. apply _. Defined.

Definition key_of (cols : list string) (r : row) : key := at_ r <$> cols.

Definition has_nan (k : key) : bool := bool_decide (NaN ∈ k).

(** The group keys of [groupby]: distinct, sorted, without missing values. *)
Definition group_keys (ks : list key) : list key :=
  merge_sort key_le (unique (filter (λ k, has_nan k = false) ks)).

(** [Series.mean()]: missing values are skipped. *)
Definition mean (vals : list cell) : result cell :=
  nums ← map_m as_num vals;
  let xs := omap id nums in
  Ok (if bool_decide (xs = []) then NaN
      else Num (foldr Qcplus 0%Qc xs / qc_of_nat (length xs))%Qc).

(** [np.quantile(x, q)], linear interpolation between the two order statistics
    around position [q * (n - 1)]. *)
Definition np_quantile (q : Qc) (vals : list cell) : result cell :=
  nums ← map_m as_num vals;
  let xs := merge_sort Qcle (omap id nums) in
  Ok (if bool_decide (length xs = length nums) then
        let n := length xs in
        let h := (q * qc_of_nat (n - 1))%Qc in
        let lo := Z.to_nat (Qfloor h) in
        let hi := Nat.min (lo + 1) (n - 1) in
        let g := (h - qc_of_nat lo)%Qc in
        let a := default 0%Qc (xs !! lo) in
        let b := default 0%Qc (xs !! hi) in
        if bool_decide (n = 0) then NaN else Num (a + (b - a) * g)%Qc
      else NaN).

Definition q025 : Qc := Q2Qc (25 # 1000).
Definition q975 : Qc := Q2Qc (975 # 1000).

Definition agg_columns : list string := ["location"; "variant"; "index"].

(** Lines 475-486: [groupby(agg_columns).agg([mean, q025, q975]).reset_index()]
    on the long frame, whose one remaining column is [frac]. *)
Definition groupby_agg (flat : table) : result frame :=
  _ ← map_m (require_column flat) (agg_columns ++ ["frac"]);
  rs ← map_m (λ k,
          let vals := (λ r, at_ r "frac")
                        <$> filter (λ r, key_of agg_columns r = k) (rows flat) in
          m ← mean vals;
          lower ← np_quantile q025 vals;
          upper ← np_quantile q975 vals;
          Ok (k ++ [m; lower; upper]))
        (group_keys (key_of agg_columns <$> rows flat));
  Ok (Frame [Multi "location" ""; Multi "variant" ""; Multi "index" "";
             Multi "frac" "mean"; Multi "frac" "<lambda_0>"; Multi "frac" "<lambda_1>"]
            rs).

Definition str_le (a b : string) : Prop := String.leb a b = true.
Global Instance str_le_dec : RelDecision str_le.
Proof. intros a b. unfold str_le. apply _. Defined.

Definition str_of (c : cell) : string :=
  match c with Str s => s | _ => "" end.

(** The cell of a pivot: the value of the one row under the key and the column
    label, missing when there is none. *)
Definition pivot_cell (matching : list row) (value : string) : result cell :=
  match matching with
  | [] => Ok NaN
  | [r] => Ok (at_ r value)
  | _ => Err (ValueError "Index contains duplicate entries, cannot reshape")
  end.

(** Lines 496-500: [pivot(index=agg_columns, columns="estimate").reset_index()]. *)
Definition pivot_estimate (flat : table) : result frame :=
  _ ← map_m (require_column flat) (agg_columns ++ ["estimate"; "frac"]);
  let estimates :=
    merge_sort str_le (unique ((λ r, str_of (at_ r "estimate")) <$> rows flat)) in
  let keys := merge_sort key_le (unique (key_of agg_columns <$> rows flat)) in
  rs ← map_m (λ k,
          vs ← map_m (λ e,
                  pivot_cell
                    (filter (λ r, key_of agg_columns r = k
                                  ∧ str_of (at_ r "estimate") = e) (rows flat))
                    "frac") estimates;
          Ok (k ++ vs))
        keys;
  Ok (Frame ([Multi "location" ""; Multi "variant" ""; Multi "index" ""]
             ++ (Multi "frac" <$> estimates))
            rs).

(** Line 510: [reset_index()[agg_columns + ["frac"]]]. *)
Definition as_is (flat : table) : result frame :=
  let cols := agg_columns ++ ["frac"] in
  _ ← map_m (require_column flat) cols;
  Ok (Frame (Flat <$> cols) ((λ r, (λ c, at_ r c) <$> cols) <$> rows flat)).

(** [export_columns], by mode. *)
Definition export_columns (p : params) : dict clabel string :=
  if bool_decide (1 < bootstrap p)%Z then
    [(Multi "index" "", "date");
     (Multi "frac" "mean", "proportion");
     (Multi "frac" "<lambda_0>", "proportionLower");
     (Multi "frac" "<lambda_1>", "proportionUpper")]
  else if have_confint p then
    let name := default "None" (confint_name p) in
    [(Multi "index" "", "date");
     (Multi "frac" "MSE", "proportion");
     (Multi "frac" (name +:+ "_lower"), "proportionLower");
     (Multi "frac" (name +:+ "_upper"), "proportionUpper")]
  else
    [(Flat "index", "date"); (Flat "frac", "proportion")].

(** Lines 515-518: the new column names. *)
Definition export_name (p : params) (col : clabel) : string :=
  default (match col with Multi a b => a +:+ b | Flat s => s end)
          (dict_get (export_columns p) col).

(** A positional frame under plain names. *)
Definition named (names : list string) (rs : list (list cell)) : table :=
  Table names (imap (λ i cs, Row (Num (qc_of_nat i)) (list_to_map (zip names cs))) rs).

Definition row_le (by_ : list string) (r1 r2 : row) : Prop :=
  key_le (key_of by_ r1) (key_of by_ r2).
Global Instance row_le_dec by_ : RelDecision (row_le by_).
Proof. intros r1 r2. unfold row_le. apply _. Defined.

(** [df.sort_values(by=cols)] *)
Definition sort_values (by_ : list string) (t : table) : result table :=
  _ ← map_m (require_column t) by_;
  Ok (Table (columns t) (merge_sort (row_le by_) (rows t))).

(** Lines 444-468: the collected results as one long frame, a row per date,
    location, variant and (with a confidence estimator) kind of estimate. *)
Definition long_form (p : params) (variants_list : list string)
    (all_deconv : list table) : result table :=
  deconv_df ← concat_results (have_confint p) all_deconv;
  let id_vars := ["location"] ++ (if have_confint p then ["estimate"] else []) in
  let found_var := set_inter_list variants_list (columns deconv_df) in
  melt id_vars (found_var ++ ["undetermined"]) "variant" "frac" deconv_df.

Section PostProcess.

(** [np.exp] is numpy's. *)
Variable np_exp : Qc → Qc.

(** [np.clip(x, -100, 100)] *)
Definition clip100 (x : Qc) : Qc :=
  if decide (x < - Qc_of_Z 100)%Qc then (- Qc_of_Z 100)%Qc
  else if decide (Qc_of_Z 100 < x)%Qc then Qc_of_Z 100 else x.

(** Lines 525-526, on one cell; a missing value stays missing. *)
Definition expit (c : cell) : result cell :=
  o ← as_num c;
  Ok (match o with
      | Some x => Num (np_exp (clip100 x) / (1 + np_exp (clip100 x)))%Qc
      | None => NaN
      end).

(** Lines 521-527. *)
Definition reverse_logit (p : params) (t : table) : result table :=
  if have_confint p then
    match dict_get (confint_params p) "scale" with
    | None => Err (KeyError "scale")
    | Some scale =>
        if bool_decide (scale = Str "logit") then
          _ ← map_m (require_column t) ["proportionLower"; "proportionUpper"];
          rs ← map_m (λ r,
                  l ← expit (at_ r "proportionLower");
                  u ← expit (at_ r "proportionUpper");
                  Ok (set_cell "proportionUpper" u (set_cell "proportionLower" l r)))
                (rows t);
          Ok (Table (columns t) rs)
        else Ok t
    end
  else Ok t.

(** Lines 471-527: from the long frame to the aggregated frame. *)
Definition aggregate (p : params) (deconv_df_flat : table) : result table :=
  let flat := reset_index deconv_df_flat in
  agg ← (if bool_decide (1 < bootstrap p)%Z then groupby_agg flat
         else if have_confint p then pivot_estimate flat
         else as_is flat);
  let deconv_df_agg := named (export_name p <$> f_columns agg) (f_rows agg) in
  deconv_df_agg ← sort_values ["location"; "variant"; "date"] deconv_df_agg;
  reverse_logit p deconv_df_agg.

(** Lines 444-527: from the collected results to the aggregated frame. *)
Definition post_process (p : params) (variants_list : list string)
    (all_deconv : list table) : result table :=
  deconv_df_flat ← long_form p variants_list all_deconv;
  aggregate p deconv_df_flat.

End PostProcess.

(** ** Lines 529-563: the delimited table *)

Fixpoint string_drop (n : nat) (s : string) : string :=
  match n, s with
  | S n', String _ s' => string_drop n' s'
  | _, _ => s
  end.

(** Lines 540-555: the column names of the wide form. *)
Definition wide_name (col : clabel) : string :=
  match col with
  | Flat s => s
  | Multi c0 c1 =>
      if bool_decide (c0 = "proportion") then c1
      else if bool_decide (String.length "proportion" < String.length c0)
           then c1 +:+ "_" +:+ string_drop (String.length "proportion") c0
           else c0 +:+ c1
  end.

(** Lines 531-539:
    [reset_index().pivot(index=["location","date"], columns="variant", values=..).reset_index()]. *)
Definition pivot_wide (values : list string) (agg : table) : result frame :=
  _ ← map_m (require_column agg) (["location"; "date"; "variant"] ++ values);
  let index := ["location"; "date"] in
  let variants :=
    merge_sort str_le (unique ((λ r, str_of (at_ r "variant")) <$> rows agg)) in
  let keys := merge_sort key_le (unique (key_of index <$> rows agg)) in
  rs ← map_m (λ k,
          vs ← map_m (λ vc : string * string,
                  pivot_cell
                    (filter (λ r, key_of index r = k
                                  ∧ str_of (at_ r "variant") = vc.2) (rows agg))
                    vc.1)
                (val ← values; (λ v, (val, v)) <$> variants);
          Ok (k ++ vs))
        keys;
  Ok (Frame ([Multi "location" ""; Multi "date" ""]
             ++ (val ← values; Multi val <$> variants))
            rs).

(** Lines 529-563: the table handed to [to_csv]. *)
Definition csv_output (p : params) (fmt_columns no_loc no_date : bool)
    (deconv_df_agg : table) : result table :=
  output_df ←
    (if fmt_columns then
       wide ← pivot_wide (set_diff_list (dict_values (export_columns p)) ["date"])
                         deconv_df_agg;
       Ok (named (wide_name <$> f_columns wide) (f_rows wide))
     else Ok deconv_df_agg);
  Ok (drop_columns ((if no_loc then ["location"] else [])
                    ++ (if no_date then ["date"] else []))
                   output_df).

(** ** Lines 565-596: the JSON document *)

(** [update_data]: location, then variant, then the records of
    [timeseriesSummary], each a list of named values. *)
Definition update_data : Type := dict cell (dict cell (list (dict string cell))).

(** Lines 573-575. *)
Definition json_columns (p : params) (no_date : bool) : list string :=
  let cols := dict_values (export_columns p) in
  if no_date then set_diff_list cols ["date"] else cols.

(** [s.replace("NaN", "null")]: left to right, every occurrence that does
    not overlap one already replaced. *)
Definition is_NaN (c1 c2 c3 : ascii) : bool :=
  bool_decide (c1 = "N"%char) && bool_decide (c2 = "a"%char)
  && bool_decide (c3 = "N"%char).

Fixpoint replace_NaN_null (s : string) : string :=
  match s with
  | EmptyString => EmptyString
  | String c1 rest =>
      match rest with
      | String c2 (String c3 rest') =>
          if is_NaN c1 c2 c3 then "null" +:+ replace_NaN_null rest'
          else String c1 (replace_NaN_null rest)
      | _ => String c1 (replace_NaN_null rest)
      end
  end.

(** [sep.join(parts)] *)
Fixpoint join (sep : string) (parts : list string) : string :=
  match parts with
  | [] => ""
  | [x] => x
  | x :: parts' => x +:+ sep +:+ join sep parts'
  end.

Section Json.

(** Pandas' text of a value ([astype("str")]), and the number and string
    encoders of the [json] module. *)
Variable astype_str : cell → string.
Variable float_repr : Qc → string.
Variable json_quote : string → string.

(** Lines 568-591. *)
Definition build_update_data (p : params) (no_date : bool) (deconv_df_agg : table)
  : result update_data :=
  loc_uniq ← unique <$> column deconv_df_agg "location";
  var_uniq ← unique <$> column deconv_df_agg "variant";
  let json_columns := json_columns p no_date in
  map_m (λ loc,
    per_var ← map_m (λ var,
      _ ← map_m (require_column deconv_df_agg) json_columns;
      let tt_df :=
        filter (λ r, at_ r "variant" = var ∧ at_ r "location" = loc)
               (rows deconv_df_agg) in
      let tt_df :=
        if negb no_date then
          (λ r, set_cell "date" (Str (astype_str (at_ r "date"))) (reindex json_columns r))
            <$> tt_df
        else reindex json_columns <$> tt_df in
      Ok (var, (λ r, (λ c, (c, at_ r c)) <$> json_columns) <$> tt_df)) var_uniq;
    Ok (loc, per_var)) loc_uniq.

(** [json.dumps] of a value and of a dictionary key. *)
Definition dumps_value (c : cell) : result string :=
  match c with
  | NaN => Ok "NaN"
  | Num q => Ok (float_repr q)
  | Str s => Ok (json_quote s)
  | Date _ => Err (TypeError "Object of type Timestamp is not JSON serializable")
  end.

Definition dumps_key (c : cell) : result string :=
  match c with
  | NaN => Ok (json_quote "NaN")
  | Num q => Ok (json_quote (float_repr q))
  | Str s => Ok (json_quote s)
  | Date _ => Err (TypeError "keys must be str, int, float, bool or None, not Timestamp")
  end.

(** [json.dumps] of a dictionary whose keys and values are already text. *)
Definition dumps_dict (items : list (string * string)) : string :=
  "{" +:+ join ", " ((λ kv, kv.1 +:+ ": " +:+ kv.2) <$> items) +:+ "}".

Definition dumps_list (items : list string) : string :=
  "[" +:+ join ", " items +:+ "]".

Definition dumps_record (rec : dict string cell) : result string :=
  items ← map_m (λ kv : string * cell,
                   v ← dumps_value kv.2; Ok (json_quote kv.1, v)) rec;
  Ok (dumps_dict items).

(** [json.dumps(update_data)] *)
Definition json_dumps (d : update_data) : result string :=
  locs ← map_m (λ lv : cell * dict cell (list (dict string cell)),
    k ← dumps_key lv.1;
    vars ← map_m (λ vr : cell * list (dict string cell),
      k' ← dumps_key vr.1;
      recs ← map_m dumps_record vr.2;
      Ok (k', dumps_dict [(json_quote "timeseriesSummary", dumps_list recs)])) lv.2;
    Ok (k, dumps_dict vars)) d;
  Ok (dumps_dict locs).

(** Lines 593-596: the text written to the JSON file. *)
Definition json_output (p : params) (no_date : bool) (deconv_df_agg : table)
  : result string :=
  d ← build_update_data p no_date deconv_df_agg;
  text ← json_dumps d;
  Ok (replace_NaN_null text).

End Json.

(** ** The program, lines 116-596 *)

(** What lines 128-309 hand to the deconvolution loops. *)
Record prepared : Type := Prepared {
  pr_df_tally : table;
  pr_locations_list : list cell;
  pr_no_loc : bool;
  pr_no_date : bool;
  pr_variants_list : list string;
  pr_var_dates : dict Z (list string);
  pr_date_intervals : list (Z * option Z);
}.

(** The two files the program writes: the table handed to [to_csv] and the
    text of the JSON file, when one is asked for. *)
Record output : Type := Output {
  csv : table;
  json : option string;
}.

Section Main.

Context {rng : Type}.
Variable rng0 : rng.
Variable np_random_seed : option Z → rng.
Variable resample_mutations : rng → table → list cell → result (table * rng).
Variable deconv_all : engine_call → result kdec.
Variable astype_str : cell → string.
Variable to_datetime : cell → result cell.
Variable np_exp : Qc → Qc.
Variable float_repr : Qc → string.
Variable json_quote : string → string.

(** Lines 128-309: documents, locations, dates, schedule, preprocessing.  The
    result carries the lines printed while the location is settled. *)
Definition prepare (i : inputs) : list string * result prepared :=
  let no_date := default false (cy_no_date (conf i)) in
  let no_loc := default false (cy_no_loc (conf i)) in
  let locations_list :=
    if bool_decide (0 < length (loc i)) then Some (loc i)
    else cy_locations_list (conf i) in
  let '(printed, located) :=
    handle_location (variants_config i) no_loc locations_list (tally_data i) in
  (printed,
   '(df_tally, no_loc) ← located;
   '(df_tally, locations_list) ← resolve_locations no_loc locations_list df_tally;
   '(df_tally, no_date) ← handle_dates no_date df_tally;
   let '(variants_list, var_dates) := plan_variants i no_date in
   let date_intervals := date_intervals var_dates in
   _ ← check_intervals no_date date_intervals;
   df_tally ← Preprocessors.general_preprocess astype_str to_datetime
     {| Preprocessors.variants_list := variants_list;
        Preprocessors.variants_pangolin := cy_variants_pangolin (conf i);
        Preprocessors.variants_not_reported :=
          default [] (cy_variants_not_reported (conf i));
        Preprocessors.to_drop := default [] (cy_to_drop (conf i));
        Preprocessors.start_date := cy_start_date (conf i);
        Preprocessors.end_date := cy_end_date (conf i);
        Preprocessors.no_date := no_date;
        Preprocessors.remove_deletions :=
          default true (cy_remove_deletions (conf i));
        Preprocessors.with_complement := true |}
     df_tally;
   let df_tally := Preprocessors.filter_mutations (filters i) df_tally in
   Ok {| pr_df_tally := df_tally;
         pr_locations_list := locations_list;
         pr_no_loc := no_loc;
         pr_no_date := no_date;
         pr_variants_list := variants_list;
         pr_var_dates := var_dates;
         pr_date_intervals := date_intervals |}).

(** Lines 311-596: seeding, parameters, the loops, post-processing, output. *)
Definition run (i : inputs) (st : prepared) : M rng output :=
  _ ← seed_generator np_random_seed (seed i);
  p ← lift (read_params (deconv i) (pr_no_date st));
  _ ← deconvolve_all resample_mutations deconv_all p (pr_no_date st) (pr_no_loc st)
        (pr_var_dates st) (pr_df_tally st) (pr_locations_list st)
        (pr_date_intervals st);
  all_deconv ← collected;
  lift (deconv_df_agg ← post_process np_exp p (pr_variants_list st) all_deconv;
        csv ← csv_output p (fmt_columns i) (pr_no_loc st) (pr_no_date st)
                deconv_df_agg;
        json ← (if out_json i
                then Some <$> json_output astype_str float_repr json_quote p
                                (pr_no_date st) deconv_df_agg
                else Ok None);
        Ok {| csv := csv; json := json |}).

(** [deconvolute]: the lines printed about the location, the outcome, and the
    state the driver ends in, with the calls made to the regression engine. *)
Definition deconvolute (i : inputs) : list string * (result output * driver rng) :=
  let '(printed, st) := prepare i in
  (printed,
   match st with
   | Ok st => run i st (Driver rng0 [] [])
   | Err e => (Err e, Driver rng0 [] [])
   end).

End Main.

End Cli.

(** * [src/deconvolute.py] *)

Module Script.
Import Lollipop.

Definition kernels : dict string kernel_cls :=
  [("gaussian", GaussianKernel); ("box", BoxKernel)].
Definition confints : dict string confint_cls :=
  [("null", NullConfint); ("wald", WaldConfint)].
Definition regressors : dict string regressor_cls :=
  [("nnls", NnlsReg); ("robust", RobustReg)].

(** The variants configuration document. *)
Record conf_yaml : Type := ConfYaml {
  cy_variants_list : list string;
  cy_variants_pangolin : dict string string;
  cy_variants_not_reported : option (list string);
  cy_to_drop : option (list string);
  cy_start_date : option Z;
  cy_end_date : option Z;
  cy_remove_deletions : option bool;
  cy_cities_list : option (list cell);
}.

Record inputs : Type := Inputs {
  conf : conf_yaml;
  deconv : deconv_yaml;
  plant : list cell;
  seed : option Z;
  tally_data : table;
}.

(** What lines 116-133 read off the deconvolution parameters. *)
Record params : Type := Params {
  bootstrap : Z;
  kernel : kernel_cls;
  kernel_params : dict string cell;
  confint : confint_cls;
  have_confint : bool;
  confint_name : option string;
  confint_params : dict string cell;
  regressor : regressor_cls;
  regressor_params : dict string cell;
  deconv_params : dict string cell;
}.

(** Lines 116-133, with the assertion of lines 124-126. *)
Definition read_params (deconv : deconv_yaml) : result params :=
  let bootstrap := default 0%Z (bootstrap_key deconv) in
  let confint := Cli.get_cls confints (confint_key deconv) NullConfint in
  let have_confint := bool_decide (confint ≠ NullConfint) in
  _ ← py_assert (negb (have_confint && bool_decide (1 < bootstrap)%Z))
        "either use bootstrapping or a confint class, not both at the same time.";
  Ok {| bootstrap := bootstrap;
        kernel := Cli.get_cls kernels (kernel_key deconv) GaussianKernel;
        kernel_params := default [] (kernel_params_key deconv);
        confint := confint;
        have_confint := have_confint;
        confint_name :=
          if have_confint then Cli.capitalize <$> confint_key deconv else None;
        confint_params := default [] (confint_params_key deconv);
        regressor := Cli.get_cls regressors (regressor_key deconv) NnlsReg;
        regressor_params := default [] (regressor_params_key deconv);
        deconv_params := default [] (deconv_params_key deconv) |}.

Section Main.

Context {rng : Type}.
Variable rng0 : rng.
Variable np_random_seed : option Z → rng.
Variable resample_mutations : rng → table → list cell → result (table * rng).
Variable deconv_all : engine_call → result kdec.
Variable astype_str : cell → string.
Variable to_datetime : cell → result cell.

(** Lines 175-195: the results collected from one fit. *)
Definition collect (p : params) (city : cell) (t_kdec : kdec) : M rng unit :=
  if have_confint p then
    let name := default "None" (confint_name p) in
    let tag (t : table) (estimate : string) :=
      assign "estimate" (λ _, Str estimate) (assign "city" (λ _, city) t) in
    _ ← append_result (tag (fitted t_kdec) "MSE");
    _ ← append_result (tag (conf_lower t_kdec) (name +:+ "_lower"));
    append_result (tag (conf_upper t_kdec) (name +:+ "_upper"))
  else
    append_result (assign "city" (λ _, city) (fitted t_kdec)).

(** Lines 151-195: the body of the loop over the bootstrap replicates. *)
Definition replicate_body (p : params) (variants_list : list string) (city : cell)
    (temp_df : table) (b : Z) : M rng unit :=
  '(temp_df2, weights) ←
    (if bool_decide (1 < bootstrap p)%Z then
       mutations ← lift (column temp_df "mutations");
       temp_df2 ← resample resample_mutations temp_df (unique mutations);
       weights ← lift (column temp_df2 "resample_value");
       mret (temp_df2, Some weights)
     else mret (temp_df, None));
  design ← lift (select_columns (variants_list ++ ["undetermined"]) temp_df2);
  frac ← lift (column temp_df2 "frac");
  date ← lift (column temp_df2 "date");
  t_kdec ← kernel_deconv deconv_all
    {| ec_design := design;
       ec_frac := frac;
       ec_date := date;
       ec_kernel := (kernel p, kernel_params p);
       ec_reg := (regressor p, regressor_params p);
       ec_confint := (confint p, confint_params p);
       ec_weights := weights;
       ec_deconv_params := deconv_params p |};
  collect p city t_kdec.

(** Lines 146-195: the body of the loop over the cities. *)
Definition city_body (p : params) (variants_list : list string) (df_tally : table)
    (city : cell) : M rng unit :=
  _ ← lift (require_column df_tally "plantname");
  let temp_df := select (λ r, bool_decide (at_ r "plantname" = city)) df_tally in
  for_ (if bool_decide (1 < bootstrap p)%Z then range (bootstrap p) else [0%Z])
       (replicate_body p variants_list city temp_df).

(** Lines 79-110: documents, cities, preprocessing. *)
Definition prepare (i : inputs) : result (table * list cell) :=
  let cities_list :=
    if bool_decide (0 < length (plant i)) then Some (plant i)
    else cy_cities_list (conf i) in
  cities_list ←
    match cities_list with
    | Some l => Ok l
    | None => unique <$> column (tally_data i) "plantname"
    end;
  df_tally ← Preprocessors.general_preprocess astype_str to_datetime
    {| Preprocessors.variants_list := cy_variants_list (conf i);
       Preprocessors.variants_pangolin := cy_variants_pangolin (conf i);
       Preprocessors.variants_not_reported :=
         default [] (cy_variants_not_reported (conf i));
       Preprocessors.to_drop := default [] (cy_to_drop (conf i));
       Preprocessors.start_date := cy_start_date (conf i);
       Preprocessors.end_date := cy_end_date (conf i);
       Preprocessors.no_date := false;
       Preprocessors.remove_deletions := default true (cy_remove_deletions (conf i));
       Preprocessors.with_complement := true |}
    (tally_data i);
  Ok (Preprocessors.filter_mutations None df_tally, cities_list).

(** Lines 112-214: seeding, parameters, the loops, the long table. *)
Definition run (i : inputs) (df_tally : table) (cities_list : list cell)
  : M rng table :=
  _ ← seed_generator np_random_seed (seed i);
  p ← lift (read_params (deconv i));
  _ ← for_ cities_list (city_body p (cy_variants_list (conf i)) df_tally);
  all_deconv ← collected;
  lift (deconv_df ← Cli.concat_results (have_confint p) all_deconv;
        let id_vars := ["city"] ++ (if have_confint p then ["estimate"] else []) in
        Cli.melt id_vars (cy_variants_list (conf i) ++ ["undetermined"])
                 "variant" "frac" deconv_df).

(** [deconvolute]: the outcome and the state the driver ends in. *)
Definition deconvolute (i : inputs) : result table * driver rng :=
  match prepare i with
  | Ok (df_tally, cities_list) => run i df_tally cities_list (Driver rng0 [] [])
  | Err e => (Err e, Driver rng0 [] [])
  end.

End Main.

End Script.

(** * Vocabulary of the statements *)

(** Row [c] is the complement of the observation [o]: same index label,
    [frac] and the variant columns mirrored around one, a dash in front of the
    signature, [undetermined] 1 against 0. *)
Definition complement_of (variants : list string) (o c : row) : Prop :=
  label c = label o ∧
  (∃ f, at_ o "frac" = Num f ∧ at_ c "frac" = Num (1 - f)%Qc) ∧
  (∀ v, v ∈ variants → ∃ b, at_ o v = Num b ∧ at_ c v = Num (1 - b)%Qc) ∧
  (∃ s, at_ o "mutations" = Str s ∧ at_ c "mutations" = Str ("-" +:+ s)) ∧
  at_ o "undetermined" = Num 0%Qc ∧ at_ c "undetermined" = Num 1%Qc.

(** The recoding of one cell, spelled out. *)
Definition recoded (c : cell) : cell :=
  match c with
  | NaN => Num 0%Qc
  | Str s => if bool_decide (s ∈ ["extra"; "mut"; "shared"; "revert"; "subset"])
             then Num 1%Qc else Str s
  | Num q => Num q
  | Date d => Date d
  end.

(** The message of the assertion that keeps bootstrapping and confidence
    estimators apart. *)
Definition exclusive_message : string :=
  "either use bootstrapping or a confint class, not both at the same time.".

(** A deconvolution document asks for bootstrapping and for a confidence
    estimator other than the null one. *)
Definition bootstrap_and_confint (d : Lollipop.deconv_yaml) : Prop :=
  (1 < default 0 (Lollipop.bootstrap_key d))%Z
  ∧ Cli.get_cls Cli.confints (Lollipop.confint_key d) Lollipop.NullConfint
    ≠ Lollipop.NullConfint.

(** A run has failed with [e] without a call to the regression engine. *)
Definition failed_before_any_call {rng A}
    (outcome : result A * Lollipop.driver rng) (e : exn) : Prop :=
  outcome.1 = Err e ∧ Lollipop.calls outcome.2 = [].

(** A row is uninformative for the columns [cols]: its indicators add up to
    zero or to the number of columns. *)
Definition uninformative (cols : list string) (r : row) : Prop :=
  row_sum cols r = Ok 0%Qc ∨ row_sum cols r = Ok (qc_of_nat (length cols)).

(** ** Inputs the statements are tried on *)

Definition example_row (i : Z) (l : list (string * cell)) : row :=
  Row (Num (Qc_of_Z i)) (list_to_map l).

(** A schedule whose keys are out of order: 2021-06-01, then 2021-01-01. *)
Definition schedule_out_of_order : dict Z (list string) :=
  [(18779%Z, ["Alpha"; "Delta"]); (18628%Z, ["Alpha"])].

(** A table without [location] and without [location_code]. *)
Definition tally_without_location : table :=
  Table ["sample"; "date"; "frac"; "Alpha"]
    [example_row 0 [("sample", Str "s1"); ("date", Date 18628); ("frac", Num 1%Qc);
                    ("Alpha", Str "mut")]].

(** A table with [location_code] only. *)
Definition tally_with_codes : table :=
  Table ["sample"; "location_code"; "frac"]
    [example_row 0 [("sample", Str "s1"); ("location_code", Str "10"); ("frac", Num 1%Qc)]].

(** A raw tally: four mutations of two samples. *)
Definition example_tally : table :=
  Table ["sample"; "location"; "date"; "pos"; "base"; "frac"; "B.1.1.7"; "Delta"]
    [example_row 0 [("sample", Str "s1"); ("location", Str "mut"); ("date", Date 18900);
                    ("pos", Num (Qc_of_Z 100)); ("base", Str "A");
                    ("frac", Num (Q2Qc (8 # 10))); ("B.1.1.7", Str "mut"); ("Delta", NaN)];
     example_row 1 [("sample", Str "s1"); ("location", NaN); ("date", Date 18900);
                    ("pos", Num (Qc_of_Z 200)); ("base", Str "-");
                    ("frac", Num (Q2Qc (1 # 2))); ("B.1.1.7", Str "mut"); ("Delta", NaN)];
     example_row 2 [("sample", Str "s2"); ("location", Str "ZH"); ("date", Date 18901);
                    ("pos", Num (Qc_of_Z 300)); ("base", Str "C");
                    ("frac", Num (Q2Qc (1 # 2))); ("B.1.1.7", Str "mut");
                    ("Delta", Str "mut")];
     example_row 3 [("sample", Str "s2"); ("location", Str "ZH"); ("date", Date 18901);
                    ("pos", Num (Qc_of_Z 400)); ("base", Str "G");
                    ("frac", Num (Q2Qc (1 # 2))); ("B.1.1.7", NaN);
                    ("Delta", Str "subset")]].

Definition example_args : Preprocessors.args :=
  {| Preprocessors.variants_list := ["Alpha"; "Delta"];
     Preprocessors.variants_pangolin := [("B.1.1.7", "Alpha")];
     Preprocessors.variants_not_reported := [];
     Preprocessors.to_drop := [];
     Preprocessors.start_date := None;
     Preprocessors.end_date := None;
     Preprocessors.no_date := false;
     Preprocessors.remove_deletions := true;
     Preprocessors.with_complement := true |}.

(** Stand-ins for pandas' text of a value and its date parser. *)
Definition example_astype_str (c : cell) : string :=
  match c with
  | Str s => s
  | Date _ => "2021-10-01"
  | _ => "100"
  end.
Definition example_to_datetime (c : cell) : result cell := Ok c.

(** Rows of one window, both carried by every active variant. *)
Definition window_all_active : table :=
  Table ["date"; "frac"; "Alpha"; "Delta"; "undetermined"; "mutations"]
    [example_row 0 [("date", Date 18900); ("frac", Num 1%Qc); ("Alpha", Num 1%Qc);
                    ("Delta", Num 1%Qc); ("undetermined", Num 0%Qc);
                    ("mutations", Str "100A")];
     example_row 1 [("date", Date 18901); ("frac", Num 1%Qc); ("Alpha", Num 1%Qc);
                    ("Delta", Num 1%Qc); ("undetermined", Num 0%Qc);
                    ("mutations", Str "200C")]].

(** Parameters without bootstrap and without confidence estimator. *)
Definition plain_params : Cli.params :=
  {| Cli.bootstrap := 0;
     Cli.kernel := Lollipop.GaussianKernel;
     Cli.kernel_params := [];
     Cli.confint := Lollipop.NullConfint;
     Cli.have_confint := false;
     Cli.confint_name := None;
     Cli.confint_params := [];
     Cli.regressor := Lollipop.NnlsReg;
     Cli.regressor_params := [];
     Cli.deconv_params := [] |}.

(** A regression engine that returns empty tables. *)
Definition idle_engine (c : Lollipop.engine_call) : result Lollipop.kdec :=
  Ok (Lollipop.KDec (Table [] []) (Table [] []) (Table [] [])).

(** A resampler that keeps the rows and weighs each once. *)
Definition idle_resampler (g : nat) (t : table) (mutations : list cell)
  : result (table * nat) :=
  Ok (assign "resample_value" (λ _, Num 1%Qc) t, S g).

(** The group of a row of the long frame: location, variant and the date its
    index carries. *)
Definition group_key (r : row) : Cli.key := [at_ r "location"; at_ r "variant"; label r].

(** The values of a group, in the order of the rows. *)
Definition group_values (flat : table) (k : Cli.key) : list cell :=
  (λ r, at_ r "frac") <$> filter (λ r, group_key r = k) (rows flat).

(** The columns a row of the aggregated frame is identified by. *)
Definition series_key : list string := ["location"; "variant"; "date"].

(** The column labels [groupby(..).agg(..)] yields. *)
Definition f_columns_bootstrap (agg : Cli.frame) : Prop :=
  Cli.f_columns agg
  = [Cli.Multi "location" ""; Cli.Multi "variant" ""; Cli.Multi "index" "";
     Cli.Multi "frac" "mean"; Cli.Multi "frac" "<lambda_0>";
     Cli.Multi "frac" "<lambda_1>"].

(** The columns of the aggregated frame when bounds are reported. *)
Definition series_columns : list string :=
  ["location"; "variant"; "date"; "proportion"; "proportionLower"; "proportionUpper"].

(** Stand-ins for the encoders of the [json] module: every number prints as
    [0.5], strings print bare. *)
Definition example_float_repr (q : Qc) : string := "0.5".
Definition example_json_quote (s : string) : string := s.

(** An aggregated frame of the location-less mode: line 198 has stamped every
    row with the location [location]. *)
Definition aggregated_no_loc : table :=
  Table ["location"; "variant"; "date"; "proportion"]
    [example_row 0 [("location", Str "location"); ("variant", Str "Alpha");
                    ("date", Date 18901); ("proportion", Num (Q2Qc (1 # 2)))]].

(** The same arguments with the complement rows switched off. *)
Definition without_complement (a : Preprocessors.args) : Preprocessors.args :=
  {| Preprocessors.variants_list := Preprocessors.variants_list a;
     Preprocessors.variants_pangolin := Preprocessors.variants_pangolin a;
     Preprocessors.variants_not_reported := Preprocessors.variants_not_reported a;
     Preprocessors.to_drop := Preprocessors.to_drop a;
     Preprocessors.start_date := Preprocessors.start_date a;
     Preprocessors.end_date := Preprocessors.end_date a;
     Preprocessors.no_date := Preprocessors.no_date a;
     Preprocessors.remove_deletions := Preprocessors.remove_deletions a;
     Preprocessors.with_complement := false |}.

(** Row [o] of the table with complements is the observation [o0]. *)
Definition same_observation (cols : list string) (o0 o : row) : Prop :=
  label o = label o0 ∧ ∀ c, c ∈ cols → at_ o c = at_ o0 c.

(** A deconvolution document that asks for 100 bootstrap replicates and for
    Wald confidence intervals. *)
Definition deconv_bootstrap_and_wald : Lollipop.deconv_yaml :=
  {| Lollipop.bootstrap_key := Some 100%Z;
     Lollipop.kernel_key := Some "gaussian";
     Lollipop.kernel_params_key := None;
     Lollipop.confint_key := Some "wald";
     Lollipop.confint_params_key := Some [("scale", Str "linear")];
     Lollipop.regressor_key := Some "nnls";
     Lollipop.regressor_params_key := None;
     Lollipop.deconv_params_key := None |}.

(** A run of the command-line program on the raw tally with that document. *)
Definition example_run : Cli.inputs :=
  {| Cli.variants_config := "variants_config.yaml";
     Cli.conf :=
       {| Cli.cy_variants_pangolin := [("B.1.1.7", "Alpha")];
          Cli.cy_variants_list := Some ["Alpha"; "Delta"];
          Cli.cy_variants_not_reported := None;
          Cli.cy_to_drop := None;
          Cli.cy_no_date := None;
          Cli.cy_no_loc := None;
          Cli.cy_start_date := None;
          Cli.cy_end_date := None;
          Cli.cy_remove_deletions := None;
          Cli.cy_locations_list := None |};
     Cli.variants_dates := None;
     Cli.var_dates_yaml := [];
     Cli.deconv := deconv_bootstrap_and_wald;
     Cli.loc := [];
     Cli.filters := None;
     Cli.seed := Some 1%Z;
     Cli.fmt_columns := false;
     Cli.out_json := true;
     Cli.tally_data := example_tally |}.

(** Parameters of a bootstrap run with three replicates. *)
Definition bootstrap_params : Cli.params :=
  {| Cli.bootstrap := 3;
     Cli.kernel := Lollipop.GaussianKernel;
     Cli.kernel_params := [];
     Cli.confint := Lollipop.NullConfint;
     Cli.have_confint := false;
     Cli.confint_name := None;
     Cli.confint_params := [];
     Cli.regressor := Lollipop.NnlsReg;
     Cli.regressor_params := [];
     Cli.deconv_params := [] |}.

(** The long frame of three replicates for one location, variant and date:
    0.2, 0.4 and 0.6. *)
Definition long_row (frac : Qc) : row :=
  Row (Date 18900)
      (list_to_map [("location", Str "ZH"); ("variant", Str "Alpha"); ("frac", Num frac)]).

Definition three_replicates : table :=
  Table ["location"; "variant"; "frac"]
    [long_row (Q2Qc (2 # 10)); long_row (Q2Qc (4 # 10)); long_row (Q2Qc (6 # 10))].

(** The results of two windows with different variants: the first knows
    nothing of Delta, the second nothing of Alpha. *)
Definition fitted_row (date : Z) (l : list (string * cell)) : row :=
  Row (Date date) (list_to_map (("location", Str "ZH") :: l)).

Definition two_windows : list table :=
  [Table ["Alpha"; "undetermined"; "location"]
     [fitted_row 18900 [("Alpha", Num (Q2Qc (7 # 10)));
                        ("undetermined", Num (Q2Qc (3 # 10)))]];
   Table ["Alpha"; "Delta"; "undetermined"; "location"]
     [fitted_row 18990 [("Alpha", NaN); ("Delta", Num (Q2Qc (9 # 10)));
                        ("undetermined", Num (Q2Qc (1 # 10)))]]].

(** An aggregated frame with a missing lower bound. *)
Definition aggregated_missing_bound : table :=
  Table ["location"; "variant"; "date"; "proportion"; "proportionLower";
         "proportionUpper"]
    [example_row 0 [("location", Str "ZH"); ("variant", Str "Alpha");
                    ("date", Date 18901); ("proportion", Num (Q2Qc (1 # 2)));
                    ("proportionLower", NaN);
                    ("proportionUpper", Num (Q2Qc (1 # 2)))]].

(** Parameters of a run with Wald confidence intervals. *)
Definition wald_params : Cli.params :=
  {| Cli.bootstrap := 0;
     Cli.kernel := Lollipop.GaussianKernel;
     Cli.kernel_params := [];
     Cli.confint := Lollipop.WaldConfint;
     Cli.have_confint := true;
     Cli.confint_name := Some "Wald";
     Cli.confint_params := [("scale", Str "linear")];
     Cli.regressor := Lollipop.NnlsReg;
     Cli.regressor_params := [];
     Cli.deconv_params := [] |}.

(** ** Auxiliary notions of the proofs *)

(** A row of [reset_index]. *)
Definition reset_row (i : nat) (r : row) : row :=
  Row (Num (qc_of_nat i)) (<["index" := label r]> (cells r)).

(** A row of [melt]. *)
Definition melt_row (id_vars : list string) (v : string) (r : row) : row :=
  set_cell "frac" (at_ r v) (set_cell "variant" (Str v) (reindex id_vars r)).

(** What a pivot makes of the values found under a key and a label. *)
Definition pivot_vals (vals : list cell) : result cell :=
  match vals with
  | [] => Ok NaN
  | [x] => Ok x
  | _ => Err (ValueError "Index contains duplicate entries, cannot reshape")
  end.

(** [x] is written somewhere in [s]. *)
Definition within (x s : string) : Prop := ∃ a b, s = a +:+ x +:+ b.

(** Reads a cell off a row built from explicit column names. *)
Ltac read_cell :=
  unfold at_; cbn [cells zip zip_with list_to_map foldr fst snd uncurry];
  repeat (rewrite lookup_insert_ne by done); rewrite ?lookup_insert_eq;
  try reflexivity.

(** Settles a decidable statement about concrete values by evaluation. *)
Ltac by_evaluation :=
  lazymatch goal with |- ?P => apply (bool_decide_unpack P) end; vm_compute; exact I.

(** * Vocabulary of the further properties *)

(** The filter on the dates, lines 60-64 of [preprocessors.py]. *)
Definition date_filtered (a : Preprocessors.args) (df : table) : table :=
  if Preprocessors.no_date a then df
  else
    let df := match Preprocessors.start_date a with
              | Some d => select (λ r, Preprocessors.date_ge (at_ r "date") d) df
              | None => df
              end in
    match Preprocessors.end_date a with
    | Some d => select (λ r, Preprocessors.date_lt (at_ r "date") d) df
    | None => df
    end.

(** The example arguments with a range of dates, 2021-10-01 and 2021-10-02,
    and a tag to drop. *)
Definition example_args_dated : Preprocessors.args :=
  {| Preprocessors.variants_list := ["Alpha"; "Delta"];
     Preprocessors.variants_pangolin := [("B.1.1.7", "Alpha")];
     Preprocessors.variants_not_reported := [];
     Preprocessors.to_drop := ["subset"];
     Preprocessors.start_date := Some 18900%Z;
     Preprocessors.end_date := Some 18902%Z;
     Preprocessors.no_date := false;
     Preprocessors.remove_deletions := true;
     Preprocessors.with_complement := true |}.

(** Arguments that name one variant for two lineages. *)
Definition example_args_duplicates : Preprocessors.args :=
  {| Preprocessors.variants_list := ["Alpha"; "Delta"];
     Preprocessors.variants_pangolin := [("B.1.1.7", "Alpha"); ("Q.1", "Alpha")];
     Preprocessors.variants_not_reported := [];
     Preprocessors.to_drop := [];
     Preprocessors.start_date := None;
     Preprocessors.end_date := None;
     Preprocessors.no_date := false;
     Preprocessors.remove_deletions := true;
     Preprocessors.with_complement := true |}.

(** A tally that already has a column [undetermined]. *)
Definition example_tally_undetermined : table :=
  Table ["date"; "frac"; "B.1.1.7"; "Delta"; "mutations"; "undetermined"]
    [example_row 0 [("date", Date 18900); ("frac", Num (Q2Qc (1 # 2)));
                    ("B.1.1.7", Str "mut"); ("Delta", NaN);
                    ("mutations", Str "100A"); ("undetermined", Num 0%Qc)]].

(** A test on the table of an outcome; an error fails it. *)
Definition holds_on {A} (m : result A) (test : A → bool) : bool :=
  match m with
  | Ok x => test x
  | Err _ => false
  end.

(** A tally of two locations over three days. *)
Definition example_located_tally : table :=
  Table ["sample"; "location"; "date"; "frac"]
    [example_row 0 [("sample", Str "s1"); ("location", Str "ZH"); ("date", Date 18900);
                    ("frac", Num (Q2Qc (1 # 2)))];
     example_row 1 [("sample", Str "s2"); ("location", Str "BE"); ("date", Date 18930);
                    ("frac", Num (Q2Qc (1 # 2)))];
     example_row 2 [("sample", Str "s1"); ("location", Str "ZH"); ("date", Date 18990);
                    ("frac", Num (Q2Qc (1 # 4)))];
     example_row 3 [("sample", Str "s3"); ("location", Str ""); ("date", Date 18800);
                    ("frac", Num (Q2Qc (1 # 4)))]].

(** A schedule of two periods, and a run that names it. *)
Definition example_schedule : dict Z (list string) :=
  [(18900%Z, ["Alpha"]); (18960%Z, ["Alpha"; "Delta"])].

Definition example_scheduled_run : Cli.inputs :=
  {| Cli.variants_config := "variants_config.yaml";
     Cli.conf :=
       {| Cli.cy_variants_pangolin := [("B.1.1.7", "Alpha")];
          Cli.cy_variants_list := Some ["Alpha"];
          Cli.cy_variants_not_reported := None;
          Cli.cy_to_drop := None;
          Cli.cy_no_date := None;
          Cli.cy_no_loc := None;
          Cli.cy_start_date := None;
          Cli.cy_end_date := None;
          Cli.cy_remove_deletions := None;
          Cli.cy_locations_list := None |};
     Cli.variants_dates := Some "var_dates.yaml";
     Cli.var_dates_yaml := example_schedule;
     Cli.deconv :=
       {| Lollipop.bootstrap_key := None;
          Lollipop.kernel_key := None;
          Lollipop.kernel_params_key := None;
          Lollipop.confint_key := None;
          Lollipop.confint_params_key := None;
          Lollipop.regressor_key := None;
          Lollipop.regressor_params_key := None;
          Lollipop.deconv_params_key := None |};
     Cli.loc := [];
     Cli.filters := None;
     Cli.seed := None;
     Cli.fmt_columns := false;
     Cli.out_json := false;
     Cli.tally_data := example_located_tally |}.

(** ** The deconvolution loops *)

(** An engine call made for the parameters [p] and the schedule [var_dates]:
    it carries the classes and parameters of [p], weights exactly when
    bootstrapping, and a design matrix with at least one row whose columns
    are the variants of one period of the schedule and [undetermined]. *)
Definition configured_call (p : Cli.params) (var_dates : dict Z (list string))
    (c : Lollipop.engine_call) : Prop :=
  Lollipop.ec_kernel c = (Cli.kernel p, Cli.kernel_params p) ∧
  Lollipop.ec_reg c = (Cli.regressor p, Cli.regressor_params p) ∧
  Lollipop.ec_confint c = (Cli.confint p, Cli.confint_params p) ∧
  Lollipop.ec_deconv_params c = Cli.deconv_params p ∧
  (Lollipop.ec_weights c = None ↔ ¬ (1 < Cli.bootstrap p)%Z) ∧
  (∃ mindate active,
     dict_get var_dates mindate = Some active ∧
     columns (Lollipop.ec_design c) = active ++ ["undetermined"]) ∧
  rows (Lollipop.ec_design c) ≠ [] ∧
  length (Lollipop.ec_frac c) = length (rows (Lollipop.ec_design c)) ∧
  length (Lollipop.ec_date c) = length (rows (Lollipop.ec_design c)).

(** The number of tables one fit adds to the collected results. *)
Definition tables_per_fit (p : Cli.params) : nat :=
  if Cli.have_confint p then 3 else 1.

(** A collected table: it has the column [location], filled with one of the
    locations [locs], and with a confidence estimator the column [estimate]. *)
Definition tagged_result (p : Cli.params) (locs : list cell) (t : table) : Prop :=
  "location" ∈ columns t ∧
  (Cli.have_confint p = true → "estimate" ∈ columns t) ∧
  ∀ r, r ∈ rows t → at_ r "location" ∈ locs.

(** What a piece of the loops has added when it ends with [res]: the tables
    [newr] to the collected results and the calls [newc] to the calls of the
    engine; every fit that returned has added its tables. *)
Definition sound_effect (p : Cli.params) (var_dates : dict Z (list string))
    (locs : list cell) (res : result unit) (newr : list table)
    (newc : list Lollipop.engine_call) : Prop :=
  Forall (configured_call p var_dates) newc ∧
  Forall (tagged_result p locs) newr ∧
  length newr ≤ tables_per_fit p * length newc ∧
  (res = Ok tt → length newr = tables_per_fit p * length newc).

(** The piece [m] of the loops ends with [res] and adds [newr] and [newc],
    whatever the state it starts in, and leaves the generator alone. *)
Definition has_effect {rng} (m : Lollipop.M rng unit) (res : result unit)
    (newr : list table) (newc : list Lollipop.engine_call) : Prop :=
  ∀ s, m s = (res, Lollipop.Driver (Lollipop.rng_state s)
                     (Lollipop.all_deconv s ++ newr) (Lollipop.calls s ++ newc)).

(** The piece [m] of the loops, started in [s], ends in [s'] with [res]: it
    has added tables and calls as [sound_effect] says. *)
Definition sound_step {rng} (p : Cli.params) (var_dates : dict Z (list string))
    (locs : list cell) (res : result unit) (s s' : Lollipop.driver rng) : Prop :=
  ∃ newr newc,
    Lollipop.all_deconv s' = Lollipop.all_deconv s ++ newr ∧
    Lollipop.calls s' = Lollipop.calls s ++ newc ∧
    sound_effect p var_dates locs res newr newc.

(** The same run with another seed. *)
Definition with_seed (i : Cli.inputs) (seed : option Z) : Cli.inputs :=
  {| Cli.variants_config := Cli.variants_config i;
     Cli.conf := Cli.conf i;
     Cli.variants_dates := Cli.variants_dates i;
     Cli.var_dates_yaml := Cli.var_dates_yaml i;
     Cli.deconv := Cli.deconv i;
     Cli.loc := Cli.loc i;
     Cli.filters := Cli.filters i;
     Cli.seed := seed;
     Cli.fmt_columns := Cli.fmt_columns i;
     Cli.out_json := Cli.out_json i;
     Cli.tally_data := Cli.tally_data i |}.

(** The number of rounds of the loop over the bootstrap replicates. *)
Definition replicates (bootstrap : Z) : nat :=
  if bool_decide (1 < bootstrap)%Z then Z.to_nat bootstrap else 1.

(** ** The text of the JSON file *)

(** The text [s] begins with [NaN]. *)
Definition starts_NaN (s : string) : bool :=
  match s with
  | String a r =>
      bool_decide (a = "N"%char)
      && match r with
         | String b r' =>
             bool_decide (b = "a"%char)
             && match r' with
                | String c _ => bool_decide (c = "N"%char)
                | EmptyString => false
                end
         | EmptyString => false
         end
  | EmptyString => false
  end.

(** [NaN] is written somewhere in [s]. *)
Fixpoint has_NaN (s : string) : bool :=
  match s with
  | EmptyString => false
  | String _ r => starts_NaN s || has_NaN r
  end.

(** ** Further inputs the statements are tried on *)

(** A preprocessed table of one location: an observation and its complement. *)
Definition example_prepared : table :=
  Table ["plantname"; "location"; "date"; "frac"; "Alpha"; "Delta"; "undetermined";
         "mutations"]
    [example_row 0 [("plantname", Str "ZH"); ("location", Str "ZH");
                    ("date", Date 18900); ("frac", Num (Q2Qc (8 # 10)));
                    ("Alpha", Num 1%Qc); ("Delta", Num 0%Qc);
                    ("undetermined", Num 0%Qc); ("mutations", Str "100A")];
     example_row 0 [("plantname", Str "ZH"); ("location", Str "ZH");
                    ("date", Date 18900); ("frac", Num (Q2Qc (2 # 10)));
                    ("Alpha", Num 0%Qc); ("Delta", Num 1%Qc);
                    ("undetermined", Num 1%Qc); ("mutations", Str "-100A")]].

(** What the preparation hands to the loops for that table, and for a table
    without rows. *)
Definition example_state (df : table) : Cli.prepared :=
  {| Cli.pr_df_tally := df;
     Cli.pr_locations_list := [Str "ZH"];
     Cli.pr_no_loc := false;
     Cli.pr_no_date := false;
     Cli.pr_variants_list := ["Alpha"; "Delta"];
     Cli.pr_var_dates := [(18900%Z, ["Alpha"; "Delta"])];
     Cli.pr_date_intervals := [(18900%Z, None)] |}.


(** A regression engine that answers every call with one row of halves under
    the columns of the design. *)
Definition halves_engine (c : Lollipop.engine_call) : result Lollipop.kdec :=
  let t := Table (columns (Lollipop.ec_design c))
             [Row (Date 18900)
                  (list_to_map ((λ v, (v, Num (Q2Qc (1 # 2))))
                                  <$> columns (Lollipop.ec_design c)))] in
  Ok (Lollipop.KDec t t t).

(** A generator whose state is the seed. *)
Definition seed_as_state (seed : option Z) : nat := Z.to_nat (default 0%Z seed).

(** A deconvolution document with misspelt names and a bandwidth. *)
Definition deconv_misspelt : Lollipop.deconv_yaml :=
  {| Lollipop.bootstrap_key := None;
     Lollipop.kernel_key := Some "Box";
     Lollipop.kernel_params_key := Some [("bandwidth", Num (Qc_of_Z 10)); ("order", Num 1%Qc)];
     Lollipop.confint_key := Some "Wald";
     Lollipop.confint_params_key := None;
     Lollipop.regressor_key := Some "robust";
     Lollipop.regressor_params_key := None;
     Lollipop.deconv_params_key := None |}.

(** Parameters of a run with Wald confidence intervals and no scale. *)
Definition wald_params_without_scale : Cli.params :=
  {| Cli.bootstrap := 0;
     Cli.kernel := Lollipop.GaussianKernel;
     Cli.kernel_params := [];
     Cli.confint := Lollipop.WaldConfint;
     Cli.have_confint := true;
     Cli.confint_name := Some "Wald";
     Cli.confint_params := [("alpha", Num (Q2Qc (5 # 100)))];
     Cli.regressor := Lollipop.NnlsReg;
     Cli.regressor_params := [];
     Cli.deconv_params := [] |}.

(** A run of the script with three bootstrap replicates. *)
Definition example_script_run : Script.inputs :=
  {| Script.conf :=
       {| Script.cy_variants_list := ["Alpha"; "Delta"];
          Script.cy_variants_pangolin := [("B.1.1.7", "Alpha")];
          Script.cy_variants_not_reported := None;
          Script.cy_to_drop := None;
          Script.cy_start_date := None;
          Script.cy_end_date := None;
          Script.cy_remove_deletions := None;
          Script.cy_cities_list := None |};
     Script.deconv :=
       {| Lollipop.bootstrap_key := Some 3%Z;
          Lollipop.kernel_key := None;
          Lollipop.kernel_params_key := None;
          Lollipop.confint_key := None;
          Lollipop.confint_params_key := None;
          Lollipop.regressor_key := None;
          Lollipop.regressor_params_key := None;
          Lollipop.deconv_params_key := None |};
     Script.plant := [];
     Script.seed := Some 1%Z;
     Script.tally_data := example_tally |}.

(** * Facts about the frame model *)

#[local] Set Warnings "-clear-no-such-hyp".

Section FrameFacts.

Lemma bind_ok {A B} (m : result A) (f : A → result B) (b : B) :
  m ≫= f = Ok b → ∃ a, m = Ok a ∧ f a = Ok b.
Proof. destruct m as [a|e]; simpl; [eauto | discriminate]. Qed.

Lemma at_set_cell_eq c v r : at_ (set_cell c v r) c = v.
Proof. unfold at_, set_cell. simpl. by rewrite lookup_insert_eq. Qed.

Lemma at_set_cell_ne c c' v r : c ≠ c' → at_ (set_cell c v r) c' = at_ r c'.
Proof. intros Hne. unfold at_, set_cell. simpl. by rewrite lookup_insert_ne. Qed.

Lemma at_row_of l cols g c :
  at_ (row_of l cols g) c = if decide (c ∈ cols) then g c else NaN.
Proof.
  unfold at_, row_of. cbn [cells]. induction cols as [|c0 cols IH].
  - rewrite fmap_nil, list_to_map_nil, lookup_empty.
    destruct (decide (c ∈ [])) as [H|]; [|done]. by apply elem_of_nil in H.
  - rewrite fmap_cons, list_to_map_cons. cbn [fst snd].
    destruct (decide (c0 = c)) as [->|Hne].
    + rewrite lookup_insert_eq.
      destruct (decide (c ∈ c :: cols)) as [|H]; [done|]. set_solver.
    + rewrite lookup_insert_ne by done. rewrite IH.
      destruct (decide (c ∈ cols)) as [H1|H1], (decide (c ∈ c0 :: cols)) as [H2|H2];
        try done; set_solver.
Qed.

Lemma at_reindex cols r c : c ∈ cols → at_ (reindex cols r) c = at_ r c.
Proof. intros Hc. unfold reindex. rewrite at_row_of. by rewrite decide_True. Qed.

Lemma map_m_ok {A B} (f : A → result B) l ys :
  map_m f l = Ok ys → Forall2 (λ x y, f x = Ok y) l ys.
Proof.
  revert ys. induction l as [|x l IH]; intros ys H; simpl in H.
  - injection H as <-. constructor.
  - apply bind_ok in H as (y & Hy & H). apply bind_ok in H as (ys' & Hys & H).
    injection H as <-. constructor; auto.
Qed.

Lemma select_m_ok p rs rs' :
  select_m p rs = Ok rs' →
  rs' = filter (λ r, p r = Ok true) rs ∧ Forall (λ r, ∃ b, p r = Ok b) rs.
Proof.
  revert rs'. induction rs as [|r rs IH]; intros rs' H; simpl in H.
  - injection H as <-. split; [done | constructor].
  - apply bind_ok in H as (b & Hb & H). apply bind_ok in H as (rs'' & Hrs & H).
    injection H as <-. destruct (IH _ Hrs) as [-> HF]. split.
    + destruct b.
      * by rewrite filter_cons_True.
      * rewrite filter_cons_False; [done | congruence].
    + constructor; eauto.
Qed.

End FrameFacts.

Section PreprocessFacts.
Import Preprocessors.

Lemma qc_of_nat_inj n m : qc_of_nat n = qc_of_nat m → n = m.
Proof.
  unfold qc_of_nat, Qc_of_Z. intros H.
  apply (f_equal this) in H. simpl in H. unfold inject_Z in H.
  injection H as H. lia.
Qed.

Lemma elem_of_unique {A} `{EqDecision A} (l : list A) x : x ∈ unique l ↔ x ∈ l.
Proof.
  induction l as [|y l IH]; simpl; [done|].
  rewrite !elem_of_cons, list_elem_of_filter, IH.
  destruct (decide (x = y)); naive_solver.
Qed.

Lemma NoDup_unique {A} `{EqDecision A} (l : list A) : NoDup (unique l).
Proof.
  induction l as [|y l IH]; simpl; [constructor|].
  constructor.
  - rewrite list_elem_of_filter. naive_solver.
  - by apply NoDup_filter.
Qed.

Lemma elem_of_union_columns ts c :
  c ∈ union_columns ts ↔ ∃ t, t ∈ ts ∧ c ∈ columns t.
Proof.
  unfold union_columns.
  assert (∀ acc, c ∈ foldl (λ acc t, acc ++ filter (λ c, c ∉ acc) (unique (columns t))) acc ts
                 ↔ c ∈ acc ∨ ∃ t, t ∈ ts ∧ c ∈ columns t) as Hgen.
  { induction ts as [|t ts IH]; intros acc; simpl.
    - split; [auto|]. intros [?|(t & Ht & _)]; [done|]. by apply elem_of_nil in Ht.
    - rewrite IH, elem_of_app, list_elem_of_filter, elem_of_unique. split.
      + intros [[?|[_ ?]]|(t' & Ht' & ?)]; [by left | right | right].
        * exists t. split; [left | done].
        * exists t'. split; [by right | done].
      + intros [?|(t' & Ht' & Hc)]; [by left; left|].
        apply elem_of_cons in Ht' as [->|Ht'].
        * destruct (decide (c ∈ acc)); [by left; left | by left; right].
        * right. eauto. }
  rewrite Hgen. split; [|auto]. intros [H|H]; [|done]. by apply elem_of_nil in H.
Qed.

Lemma elem_of_set_inter_list xs ys x : x ∈ set_inter_list xs ys ↔ x ∈ xs ∧ x ∈ ys.
Proof. unfold set_inter_list. rewrite elem_of_elements. set_solver. Qed.

Lemma has_column_true t c : has_column t c = true ↔ c ∈ columns t.
Proof. unfold has_column. apply bool_decide_eq_true. Qed.

Lemma require_column_ok t c u : require_column t c = Ok u → c ∈ columns t.
Proof.
  unfold require_column. destruct (has_column t c) eqn:H; [|discriminate].
  intros _. by apply has_column_true.
Qed.

Lemma as_num_ok c o : as_num c = Ok o → c = NaN ∧ o = None ∨ ∃ q, c = Num q ∧ o = Some q.
Proof. destruct c; simpl; intros H; try discriminate; injection H as <-; eauto. Qed.

Lemma one_minus_ok c x :
  one_minus c = Ok x → c = NaN ∧ x = NaN ∨ ∃ q, c = Num q ∧ x = Num (1 - q)%Qc.
Proof.
  unfold one_minus. intros H. apply bind_ok in H as (o & Ho & H).
  injection H as <-. apply as_num_ok in Ho as [[-> ->]|(q & -> & ->)]; eauto.
Qed.

Lemma prepend_dash_ok c x :
  prepend_dash c = Ok x → c = NaN ∧ x = NaN ∨ ∃ s, c = Str s ∧ x = Str ("-" +:+ s).
Proof. destruct c; simpl; intros H; try discriminate; injection H as <-; eauto. Qed.

(** The rows of [assign_m]. *)
Lemma assign_m_ok c f t t' :
  assign_m c f t = Ok t' →
  columns t' = (if has_column t c then columns t else columns t ++ [c]) ∧
  Forall2 (λ r r', ∃ v, f r = Ok v ∧ r' = set_cell c v r) (rows t) (rows t').
Proof.
  unfold assign_m. intros H. apply bind_ok in H as (rs & Hrs & H).
  injection H as <-. split; [done|]. simpl.
  apply map_m_ok in Hrs. eapply Forall2_impl; [exact Hrs|].
  intros r r' Hr. simpl in Hr. apply bind_ok in Hr as (v & Hv & Hr).
  injection Hr as <-. eauto.
Qed.

Lemma label_foldr_set_cell r (l : list (string * cell)) :
  label (foldr (λ vx r', set_cell vx.1 vx.2 r') r l) = label r.
Proof. induction l as [|[v x] l IH]; simpl; done. Qed.

Lemma at_foldr_set_cell_notin r (l : list (string * cell)) c :
  c ∉ l.*1 → at_ (foldr (λ vx r', set_cell vx.1 vx.2 r') r l) c = at_ r c.
Proof.
  induction l as [|[v x] l IH]; simpl; [done|]. intros Hc.
  rewrite at_set_cell_ne by set_solver. apply IH. set_solver.
Qed.

Lemma at_foldr_set_cell_in r (vl : list string) (vs : list cell) (g : string → cell) c :
  Forall2 (λ v x, x = g v) vl vs → c ∈ vl →
  at_ (foldr (λ vx r', set_cell vx.1 vx.2 r') r (zip vl vs)) c = g c.
Proof.
  intros HF. induction HF as [|v x vl vs -> HF IH]; simpl.
  - intros H. by apply elem_of_nil in H.
  - intros Hc. destruct (decide (v = c)) as [->|Hne].
    + apply at_set_cell_eq.
    + rewrite at_set_cell_ne by done. apply IH. set_solver.
Qed.

End PreprocessFacts.

Section ComplementFacts.
Import Preprocessors.

(** One row of [make_complement]. *)
Lemma make_complement_ok df vl comp :
  make_complement df vl = Ok comp →
  "mutations" ∈ columns df ∧ "frac" ∈ columns df ∧
  (∀ c, c ∈ columns comp ↔ c ∈ columns df ∨ c = "undetermined") ∧
  Forall2 (λ r c,
      label c = label r ∧
      at_ c "undetermined" = Num 1%Qc ∧
      ∃ m f,
        prepend_dash (at_ r "mutations") = Ok m ∧
        one_minus (at_ r "frac") = Ok f ∧
        Forall (λ v, is_ok (one_minus (at_ (set_cell "frac" f (set_cell "mutations" m r)) v)) = true) vl ∧
        (∀ v, v ∈ vl → v ≠ "undetermined" →
           one_minus (at_ (set_cell "frac" f (set_cell "mutations" m r)) v) = Ok (at_ c v)) ∧
        (∀ x, x ∉ vl → x ≠ "undetermined" →
           at_ c x = at_ (set_cell "frac" f (set_cell "mutations" m r)) x))
    (rows df) (rows comp).
Proof.
  unfold make_complement. intros H.
  apply bind_ok in H as ([] & Hmut & H). apply require_column_ok in Hmut.
  apply bind_ok in H as (t1 & Ht1 & H). apply assign_m_ok in Ht1 as [Hc1 Hr1].
  apply bind_ok in H as ([] & Hfrac & H). apply require_column_ok in Hfrac.
  apply bind_ok in H as (t2 & Ht2 & H). apply assign_m_ok in Ht2 as [Hc2 Hr2].
  apply bind_ok in H as (us & _ & H).
  apply bind_ok in H as (rs & Hrs & H). injection H as <-.
  apply map_m_ok in Hrs.
  assert (columns t1 = columns df) as Hcols1.
  { rewrite Hc1. by rewrite (proj2 (has_column_true _ _) Hmut). }
  assert (columns t2 = columns df) as Hcols2.
  { rewrite Hc2, Hcols1. by rewrite (proj2 (has_column_true _ _) Hfrac). }
  rewrite Hcols1 in Hfrac.
  split; [done|]. split; [done|]. split.
  { intros c. unfold assign. simpl. rewrite Hcols2.
    destruct (has_column _ "undetermined") eqn:Hu.
    - unfold has_column in Hu. simpl in Hu. apply bool_decide_eq_true in Hu.
      naive_solver.
    - rewrite elem_of_app, list_elem_of_singleton. done. }
  unfold assign. simpl. apply Forall2_fmap_r.
  apply Forall2_same_length_lookup. split.
  { rewrite (Forall2_length _ _ _ Hr1), (Forall2_length _ _ _ Hr2).
    by rewrite (Forall2_length _ _ _ Hrs). }
  intros i r c3 Hr Hc3.
  destruct (Forall2_lookup_l _ _ _ _ _ Hr1 Hr) as (r1 & Hr1i & m & Hm & ->).
  destruct (Forall2_lookup_l _ _ _ _ _ Hr2 Hr1i) as (r2 & Hr2i & f & Hf & ->).
  destruct (Forall2_lookup_l _ _ _ _ _ Hrs Hr2i) as (r3 & Hr3i & Hr3).
  rewrite Hr3i in Hc3. injection Hc3 as <-.
  apply bind_ok in Hr3 as (vs & Hvs & Hr3). injection Hr3 as <-.
  apply map_m_ok in Hvs.
  rewrite at_set_cell_ne in Hf by done.
  split; [change (label (set_cell ?c ?v ?r)) with (label r);
          by rewrite label_foldr_set_cell|].
  split; [apply at_set_cell_eq|].
  exists m, f. split; [done|]. split; [done|].
  set (r2 := set_cell "frac" f (set_cell "mutations" m r)) in *.
  split; [|split].
  - clear -Hvs. induction Hvs as [|v x vl vs Hv _ IH]; constructor; [|done].
    by rewrite Hv.
  - intros v Hv Hne. rewrite at_set_cell_ne by done.
    set (g := λ v, match one_minus (at_ r2 v) with Ok x => x | Err _ => NaN end).
    rewrite (at_foldr_set_cell_in _ vl vs g).
    + clear -Hvs Hv. unfold g.
      induction Hvs as [|v' x vl vs Hvx _ IH]; [by apply elem_of_nil in Hv|].
      apply elem_of_cons in Hv as [->|Hv]; [by rewrite Hvx | auto].
    + eapply Forall2_impl; [exact Hvs|]. intros v' x Hvx. unfold g.
      simpl in Hvx. by rewrite Hvx.
    + done.
  - intros x Hx Hxu. rewrite at_set_cell_ne by done.
    apply at_foldr_set_cell_notin.
    rewrite fst_zip; [done|]. by rewrite (Forall2_length _ _ _ Hvs).
Qed.

End ComplementFacts.

Section AfterRecode.
Import Preprocessors.

Lemma NoDup_fmap_filter {A B} (f : A → B) (P : A → Prop) `{!∀ x, Decision (P x)} l :
  NoDup (f <$> l) → NoDup (f <$> filter P l).
Proof.
  induction l as [|x l IH]; [done|]. rewrite fmap_cons, NoDup_cons. intros [Hx Hl].
  destruct (decide (P x)).
  - rewrite filter_cons_True by done. rewrite fmap_cons, NoDup_cons. split; [|auto].
    intros Hin. apply Hx. apply list_elem_of_fmap in Hin as (y & -> & Hy).
    apply list_elem_of_fmap. exists y. split; [done|].
    by apply list_elem_of_filter in Hy as [_ ?].
  - rewrite filter_cons_False by done. auto.
Qed.

Lemma insert_column_ok loc c v t t' :
  insert_column loc c v t = Ok t' →
  (c ∉ columns t) ∧ (∀ x, x ∈ columns t' ↔ x = c ∨ x ∈ columns t) ∧
  rows t' = set_cell c v <$> rows t.
Proof.
  unfold insert_column. destruct (has_column t c) eqn:Hc; [discriminate|].
  case_bool_decide; [|discriminate]. intros Heq. injection Heq as <-. simpl.
  split; [|split; [|done]].
  - intros Hin. apply has_column_true in Hin. congruence.
  - intros x. rewrite elem_of_app, elem_of_cons.
    rewrite <-(take_drop (Z.to_nat loc) (columns t)) at 3.
    rewrite elem_of_app. naive_solver.
Qed.

Lemma drop_uninformative_ok cols t t' :
  drop_uninformative cols t = Ok t' →
  columns t' = columns t ∧
  rows t' = filter (λ r, informative cols r = Ok true) (rows t).
Proof.
  unfold drop_uninformative. intros H. apply bind_ok in H as (rs & Hrs & H).
  injection H as <-. apply select_m_ok in Hrs as [-> _]. done.
Qed.

Lemma row_sum_ok cols r s :
  row_sum cols r = Ok s → ∀ c, c ∈ cols → ∃ o, as_num (at_ r c) = Ok o.
Proof.
  revert s. induction cols as [|c0 cols IH]; intros s H c Hc.
  - by apply elem_of_nil in Hc.
  - simpl in H. apply bind_ok in H as (o & Ho & H).
    apply bind_ok in H as (s' & Hs' & _).
    apply elem_of_cons in Hc as [->|Hc]; eauto.
Qed.

Lemma concat_pair t u :
  rows (concat [t; u]) =
    (reindex (union_columns [t; u]) <$> rows t)
    ++ (reindex (union_columns [t; u]) <$> rows u).
Proof. unfold concat. simpl. by rewrite app_nil_r. Qed.

Lemma after_recode_complement a t1 out :
  with_complement a = true →
  "frac" ∉ variants_list a →
  (∀ r c, r ∈ rows t1 → c ∈ columns t1 → at_ r c ≠ NaN) →
  NoDup (label <$> rows t1) →
  after_recode a t1 = Ok out →
  ∃ originals,
    after_recode (without_complement a) t1 = Ok originals ∧
    let n := length (rows originals) in
    length (rows out) = 2 * n ∧
    ∀ i o0, rows originals !! i = Some o0 →
      ∃ o c, rows out !! i = Some o ∧ same_observation (columns originals) o0 o ∧
             rows out !! (n + i) = Some c ∧
             complement_of (variants_columns a out) o c ∧
             ∀ j c', rows out !! j = Some c' → label c' = label o →
                     at_ c' "undetermined" = Num 1%Qc → j = n + i.
Proof.
  intros Hwc Hfrac Hnonan Hnodup H. unfold after_recode in H.
  apply bind_ok in H as (t2 & Ht2 & H).
  apply bind_ok in H as (t3 & Ht3 & H).
  assert (after_recode (without_complement a) t1 = Ok t3) as Horig.
  { unfold after_recode.
    change (variants_columns (without_complement a) t1) with (variants_columns a t1).
    rewrite Ht2. cbn [mbind result_bind]. rewrite Ht3. reflexivity. }
  apply drop_uninformative_ok in Ht2 as [Hc2 Hr2].
  apply insert_column_ok in Ht3 as (Hund & Hc3 & Hr3).
  rewrite Hwc in H. apply bind_ok in H as (comp & Hcomp & H). injection H as <-.
  apply make_complement_ok in Hcomp as (Hmut & Hfr & Hcc & Hrows).
  set (vc := Preprocessors.variants_columns a t1) in *.
  set (cols := union_columns [t3; comp]).
  assert (∀ c, c ∈ cols ↔ c ∈ columns t3) as Hcols.
  { intros c. unfold cols. rewrite elem_of_union_columns. split.
    - intros (t & Ht & Hc). apply elem_of_cons in Ht as [->|Ht]; [done|].
      apply list_elem_of_singleton in Ht as ->. apply Hcc in Hc as [?| ->]; [done|].
      apply Hc3. by left.
    - intros Hc. exists t3. split; [left | done]. }
  assert ("undetermined" ∈ cols) as Hucols by (apply Hcols, Hc3; by left).
  assert (∀ v, v ∈ vc → v ∈ columns t1 ∧ v ∈ variants_list a) as Hvc.
  { intros v Hv. apply elem_of_set_inter_list in Hv. tauto. }
  assert (∀ v, v ∈ vc → v ≠ "undetermined") as Hvcu.
  { intros v Hv ->. apply Hund. rewrite Hc2. by apply Hvc. }
  exists t3. split; [done|]. cbn zeta. rewrite concat_pair. fold cols. split.
  { rewrite length_app, !length_fmap, <-(Forall2_length _ _ _ Hrows). lia. }
  intros i r3 Hr3i.
  assert (i < length (rows t3)) as Hi by (by eapply lookup_lt_Some).
  destruct (Forall2_lookup_l _ _ _ _ _ Hrows Hr3i) as (c3 & Hc3i & Hlab & Hu1 & Hrest).
  destruct Hrest as (m & f & Hm & Hf & _ & Hvs & Hother).
  (* the row before the insertion of [undetermined] *)
  assert (∃ r1, r1 ∈ rows t1 ∧ r3 = set_cell "undetermined" (Num 0%Qc) r1
                ∧ ∃ b, informative vc r1 = Ok b) as (r1 & Hr1 & Heq3 & b & Hinf).
  { rewrite Hr3, list_lookup_fmap in Hr3i.
    destruct (rows t2 !! i) as [r2|] eqn:Hr2i; [|discriminate]. injection Hr3i as <-.
    exists r2. apply list_elem_of_lookup_2 in Hr2i. rewrite Hr2 in Hr2i.
    apply list_elem_of_filter in Hr2i as [Hinf ?]. eauto. }
  subst r3.
  assert (∀ c, c ∈ columns t3 → c ≠ "undetermined" → c ∈ columns t1) as Hc31.
  { intros c Hc Hne. apply Hc3 in Hc as [?|Hc]; [done|]. by rewrite <-Hc2. }
  exists (reindex cols (set_cell "undetermined" (Num 0%Qc) r1)), (reindex cols c3).
  split.
  { rewrite lookup_app_l by (by rewrite length_fmap).
    by rewrite list_lookup_fmap, Hr3i. }
  split.
  { split; [done|]. intros c Hc. apply at_reindex. by apply Hcols. }
  split.
  { rewrite lookup_app_r by (rewrite length_fmap; lia).
    rewrite length_fmap, Nat.add_comm, Nat.add_sub.
    by rewrite list_lookup_fmap, Hc3i. }
  split.
  - (* the complement mirrors the original *)
    rewrite at_set_cell_ne in Hm, Hf by done.
    assert (at_ r1 "mutations" ≠ NaN) as Hmn by (apply Hnonan; auto).
    assert (at_ r1 "frac" ≠ NaN) as Hfn by (apply Hnonan; auto).
    apply prepend_dash_ok in Hm as [[? _]|(s & Hs & ->)]; [done|].
    apply one_minus_ok in Hf as [[? _]|(q & Hq & ->)]; [done|].
    assert ("mutations" ∉ vc) as Hmvc.
    { intros Hin. pose proof (Hvs _ Hin ltac:(done)) as Hx.
      rewrite at_set_cell_ne in Hx by done.
      rewrite at_set_cell_eq in Hx. discriminate. }
    assert ("frac" ∉ vc) as Hfvc by (intros Hin; apply Hfrac; by apply Hvc).
    unfold complement_of. split; [|split; [|split; [|split; [|split]]]].
    + done.
    + exists q. rewrite !at_reindex by (apply Hcols; done).
      rewrite at_set_cell_ne by done. split; [done|].
      rewrite Hother by done. by rewrite at_set_cell_eq.
    + intros v Hv. apply elem_of_set_inter_list in Hv as [Hvl Hvo].
      simpl in Hvo. fold cols in Hvo. rewrite !at_reindex by done.
      destruct (decide (v = "undetermined")) as [->|Hvu].
      * exists 0%Qc. rewrite at_set_cell_eq, Hu1. split; [done|].
        f_equal; by apply Qc_is_canon.
      * assert (v ∈ vc) as Hvvc.
        { apply elem_of_set_inter_list. split; [done|]. apply Hc31; [|done].
          by apply Hcols. }
        pose proof (Hvs _ Hvvc Hvu) as Hx.
        assert (v ≠ "frac") by (by intros ->).
        assert (v ≠ "mutations") by (by intros ->).
        rewrite !at_set_cell_ne in Hx by done.
        rewrite at_set_cell_ne by done.
        apply one_minus_ok in Hx as [[Hv1 _]|(b' & Hb' & Hcb)].
        { exfalso. apply (Hnonan r1 v); [done | by apply Hvc | done]. }
        eauto.
    + exists s. rewrite !at_reindex by (apply Hcols; done).
      rewrite at_set_cell_ne by done. split; [done|].
      rewrite Hother by done. rewrite at_set_cell_ne by done.
      by rewrite at_set_cell_eq.
    + rewrite at_reindex by done. apply at_set_cell_eq.
    + by rewrite at_reindex.
  - (* no other row is a complement of it *)
    intros j c' Hj Hlab' Hone.
    destruct (decide (j < length (rows t3))) as [Hlt|Hge].
    + rewrite lookup_app_l in Hj by (by rewrite length_fmap).
      rewrite list_lookup_fmap in Hj.
      destruct (rows t3 !! j) as [r'|] eqn:Hr'; [|discriminate]. injection Hj as <-.
      rewrite at_reindex in Hone by done.
      rewrite Hr3, list_lookup_fmap in Hr'.
      destruct (rows t2 !! j); [|discriminate]. injection Hr' as <-.
      rewrite at_set_cell_eq in Hone. discriminate.
    + rewrite lookup_app_r in Hj by (rewrite length_fmap; lia).
      rewrite length_fmap, list_lookup_fmap in Hj.
      destruct (rows comp !! (j - length (rows t3))) as [cj|] eqn:Hcj; [|discriminate].
      injection Hj as <-.
      destruct (Forall2_lookup_r _ _ _ _ _ Hrows Hcj) as (rj & Hrj & Hlabj & _).
      assert (NoDup (label <$> rows t3)) as Hnd3.
      { rewrite Hr3, <-list_fmap_compose.
        change (label ∘ set_cell "undetermined" (Num 0%Qc)) with label.
        rewrite Hr2. by apply NoDup_fmap_filter. }
      assert (j - length (rows t3) = i); [|lia].
      eapply (NoDup_lookup _ _ _ _ Hnd3).
      * rewrite list_lookup_fmap, Hrj. simpl. reflexivity.
      * rewrite list_lookup_fmap, Hr3i. simpl. f_equal.
        change (label cj = label r1) in Hlab'.
        change (label cj = label rj) in Hlabj.
        change (label (set_cell ?c ?v ?r)) with (label r). congruence.
Qed.

End AfterRecode.

Section RecodeFacts.
Import Preprocessors.

Variable astype_str : cell → string.
Variable to_datetime : cell → result cell.

Lemma map_cells_lookup f t i r :
  rows t !! i = Some r →
  ∃ r', rows (map_cells f t) !! i = Some r' ∧ label r' = label r ∧
        ∀ c, at_ r' c = if decide (c ∈ columns t) then f (at_ r c) else NaN.
Proof.
  intros Hr. unfold map_cells. cbn [rows]. rewrite list_lookup_fmap, Hr.
  eexists. split; [reflexivity|]. split; [done|]. intros c. apply at_row_of.
Qed.

Lemma replace_tags_nan c : replace_tags (replace_nan c) = recoded c.
Proof. by destruct c. Qed.

Lemma recode_lookup t i r :
  rows t !! i = Some r →
  ∃ r', rows (recode t) !! i = Some r' ∧ label r' = label r ∧
        ∀ c, c ∈ columns t → at_ r' c = recoded (at_ r c).
Proof.
  intros Hr. unfold recode.
  destruct (map_cells_lookup replace_nan t i r Hr) as (r1 & Hr1 & Hl1 & Ha1).
  destruct (map_cells_lookup replace_tags _ i r1 Hr1) as (r2 & Hr2 & Hl2 & Ha2).
  exists r2. split; [done|]. split; [congruence|]. intros c Hc.
  rewrite Ha2. cbn [map_cells columns]. rewrite decide_True by done.
  rewrite Ha1, decide_True by done. apply replace_tags_nan.
Qed.

Lemma recode_length t : length (rows (recode t)) = length (rows t).
Proof. unfold recode, map_cells. cbn [rows]. by rewrite !length_fmap. Qed.

Lemma recode_labels t : label <$> rows (recode t) = label <$> rows t.
Proof.
  unfold recode, map_cells. cbn [rows]. rewrite <-!list_fmap_compose.
  by apply list_fmap_ext.
Qed.

Lemma recoded_not_nan c : recoded c ≠ NaN.
Proof. destruct c; simpl; try done. by case_bool_decide. Qed.

Lemma recode_no_nan t r c : r ∈ rows (recode t) → c ∈ columns (recode t) → at_ r c ≠ NaN.
Proof.
  intros Hr Hc. apply list_elem_of_lookup in Hr as [i Hi].
  assert (is_Some (rows t !! i)) as [r0 Hr0].
  { apply lookup_lt_is_Some. rewrite <-recode_length.
    by apply lookup_lt_is_Some_1; eauto. }
  destruct (recode_lookup t i r0 Hr0) as (r' & Hr' & _ & Hat).
  rewrite Hi in Hr'. injection Hr' as <-. rewrite Hat by done.
  apply recoded_not_nan.
Qed.

Lemma labels_reset_index_drop t :
  label <$> rows (reset_index_drop t)
  = (λ i, Num (qc_of_nat i)) <$> seq 0 (length (rows t)).
Proof.
  unfold reset_index_drop. cbn [rows]. rewrite fmap_imap.
  rewrite <-(imap_seq_0 (rows t) (λ i, Num (qc_of_nat i))).
  by apply imap_ext.
Qed.

Lemma before_recode_labels a df t :
  before_recode astype_str to_datetime a df = Ok t → NoDup (label <$> rows t).
Proof.
  unfold before_recode. intros H.
  repeat (apply bind_ok in H as (? & _ & H)).
  injection H as <-. rewrite labels_reset_index_drop.
  apply NoDup_fmap_2_strong; [|apply NoDup_seq].
  intros i j _ _ Hij. apply qc_of_nat_inj. congruence.
Qed.

End RecodeFacts.

(** * The claims *)

Section PreprocessClaims.
Import Preprocessors.

Variable astype_str : cell → string.
Variable to_datetime : cell → result cell.

(** C1. After [general_preprocess] with the complement rows enabled, the table
    has twice the rows of the run without them: first the surviving
    observations, with [undetermined] 0, and behind them their complements.
    The complement of an observation carries its index label, [frac] one
    minus the original, every variant column one minus the original, the
    signature with a dash in front and [undetermined] 1; no other row with
    [undetermined] 1 carries that label.  Variant names are taken to differ
    from the column name [frac]. *)
Theorem complement_rows_paired a df out :
  with_complement a = true →
  "frac" ∉ variants_list a →
  general_preprocess astype_str to_datetime a df = Ok out →
  ∃ originals,
    general_preprocess astype_str to_datetime (without_complement a) df = Ok originals ∧
    let n := length (rows originals) in
    length (rows out) = 2 * n ∧
    ∀ i o0, rows originals !! i = Some o0 →
      ∃ o c, rows out !! i = Some o ∧ same_observation (columns originals) o0 o ∧
             rows out !! (n + i) = Some c ∧
             complement_of (variants_columns a out) o c ∧
             ∀ j c', rows out !! j = Some c' → label c' = label o →
                     at_ c' "undetermined" = Num 1%Qc → j = n + i.
Proof.
  intros Hwc Hfrac H. unfold general_preprocess in H.
  apply bind_ok in H as (t & Ht & H).
  destruct (after_recode_complement a (recode t) out Hwc Hfrac) as (orig & Horig & Hrest).
  - apply recode_no_nan.
  - rewrite recode_labels. by eapply before_recode_labels.
  - exact H.
  - exists orig. split; [|exact Hrest]. unfold general_preprocess.
    change (before_recode astype_str to_datetime (without_complement a) df)
      with (before_recode astype_str to_datetime a df).
    rewrite Ht. exact Horig.
Qed.

(** C9. The recoding pass of [general_preprocess] works on the whole table:
    in every row and under every column left at that point, whatever the
    column holds, a missing value becomes 0 and one of the five tags becomes
    1; other cells are kept. *)
Theorem recode_every_column a df out :
  general_preprocess astype_str to_datetime a df = Ok out →
  ∃ t, before_recode astype_str to_datetime a df = Ok t ∧
       after_recode a (recode t) = Ok out ∧
       columns (recode t) = columns t ∧
       length (rows (recode t)) = length (rows t) ∧
       ∀ i r, rows t !! i = Some r →
         ∃ r', rows (recode t) !! i = Some r' ∧ label r' = label r ∧
           ∀ c, c ∈ columns t →
             at_ r' c = match at_ r c with
                        | NaN => Num 0%Qc
                        | Str s =>
                            if bool_decide (s ∈ ["extra"; "mut"; "shared"; "revert"; "subset"])
                            then Num 1%Qc else Str s
                        | other => other
                        end.
Proof.
  intros H. unfold general_preprocess in H. apply bind_ok in H as (t & Ht & H).
  exists t. split; [done|]. split; [done|]. split; [done|].
  split; [apply recode_length|].
  intros i r Hr. destruct (recode_lookup t i r Hr) as (r' & Hr' & Hl & Hat).
  exists r'. split; [done|]. split; [done|]. intros c Hc.
  rewrite (Hat c Hc). by destruct (at_ r c).
Qed.

End PreprocessClaims.

Section DriverClaims.
Import Lollipop.

Context {rng : Type}.
Variable rng0 : rng.
Variable np_random_seed : option Z → rng.
Variable resample_mutations : rng → table → list cell → result (table * rng).
Variable deconv_all : engine_call → result kdec.
Variable astype_str : cell → string.
Variable to_datetime : cell → result cell.
Variable np_exp : Qc → Qc.
Variable float_repr : Qc → string.
Variable json_quote : string → string.

Lemma cli_read_params_both d no_date :
  bootstrap_and_confint d →
  Cli.read_params d no_date = Err (AssertionError exclusive_message).
Proof.
  intros [Hb Hc]. unfold Cli.read_params.
  rewrite (bool_decide_eq_true_2 _ Hc), (bool_decide_eq_true_2 _ Hb). reflexivity.
Qed.

Lemma script_read_params_both d :
  bootstrap_and_confint d →
  Script.read_params d = Err (AssertionError exclusive_message).
Proof.
  intros [Hb Hc]. unfold Script.read_params.
  change Script.confints with Cli.confints.
  rewrite (bool_decide_eq_true_2 _ Hc), (bool_decide_eq_true_2 _ Hb). reflexivity.
Qed.

Lemma cli_read_params_else d no_date :
  ¬ bootstrap_and_confint d → is_ok (Cli.read_params d no_date) = true.
Proof.
  intros Hn. unfold Cli.read_params.
  destruct (bool_decide (Cli.get_cls Cli.confints (confint_key d) NullConfint ≠ NullConfint))
    eqn:Hc; [|reflexivity].
  destruct (bool_decide (1 < default 0 (bootstrap_key d))%Z) eqn:Hb; [|reflexivity].
  exfalso. apply Hn. split; [by apply bool_decide_eq_true_1 in Hb
                           | by apply bool_decide_eq_true_1 in Hc].
Qed.

Lemma script_read_params_else d :
  ¬ bootstrap_and_confint d → is_ok (Script.read_params d) = true.
Proof.
  intros Hn. unfold Script.read_params. change Script.confints with Cli.confints.
  destruct (bool_decide (Cli.get_cls Cli.confints (confint_key d) NullConfint ≠ NullConfint))
    eqn:Hc; [|reflexivity].
  destruct (bool_decide (1 < default 0 (bootstrap_key d))%Z) eqn:Hb; [|reflexivity].
  exfalso. apply Hn. split; [by apply bool_decide_eq_true_1 in Hb
                           | by apply bool_decide_eq_true_1 in Hc].
Qed.

(** C2. A deconvolution document that asks for more than one bootstrap
    replicate and for a confidence estimator other than the null one makes
    both programs fail before the regression engine is called once, and with
    the failed assertion as soon as the preparation has gone through; a
    document with at most one of the two passes the assertion. *)
Theorem bootstrap_excludes_confint (d : deconv_yaml) :
  (bootstrap_and_confint d →
     (∀ i, Cli.deconv i = d →
        let outcome :=
          (Cli.deconvolute rng0 np_random_seed resample_mutations deconv_all
             astype_str to_datetime np_exp float_repr json_quote i).2 in
        (∃ e, failed_before_any_call outcome e)
        ∧ (is_ok (Cli.prepare astype_str to_datetime i).2 = true →
           failed_before_any_call outcome (AssertionError exclusive_message)))
     ∧ (∀ j, Script.deconv j = d →
        let outcome :=
          Script.deconvolute rng0 np_random_seed resample_mutations deconv_all
            astype_str to_datetime j in
        (∃ e, failed_before_any_call outcome e)
        ∧ (is_ok (Script.prepare astype_str to_datetime j) = true →
           failed_before_any_call outcome (AssertionError exclusive_message))))
  ∧ (¬ bootstrap_and_confint d →
     (∀ no_date, is_ok (Cli.read_params d no_date) = true)
     ∧ is_ok (Script.read_params d) = true).
Proof.
  split.
  - intros Hboth. split.
    + intros i <-. unfold Cli.deconvolute.
      destruct (Cli.prepare astype_str to_datetime i) as [printed [st|e]] eqn:Hp;
        cbn [snd fst is_ok].
      * unfold Cli.run, mbind, M_bind, seed_generator, lift.
        rewrite (cli_read_params_both _ _ Hboth).
        split; [eexists|intros _]; split; reflexivity.
      * split; [|discriminate]. eexists. split; reflexivity.
    + intros j <-. unfold Script.deconvolute.
      destruct (Script.prepare astype_str to_datetime j) as [[df cities]|e] eqn:Hp;
        cbn [is_ok].
      * unfold Script.run, mbind, M_bind, seed_generator, lift.
        rewrite (script_read_params_both _ Hboth).
        split; [eexists|intros _]; split; reflexivity.
      * split; [|discriminate]. eexists. split; reflexivity.
  - intros Hn. split; [intros nd; by apply cli_read_params_else|].
    by apply script_read_params_else.
Qed.

(** ** The time windows *)

Lemma date_intervals_lookup (var_dates : dict Z (list string)) i k :
  dict_keys var_dates !! i = Some k →
  Cli.date_intervals var_dates !! i = Some (k, dict_keys var_dates !! S i).
Proof.
  unfold Cli.date_intervals. generalize (dict_keys var_dates). intros d.
  revert i. induction d as [|k0 d IH]; intros i Hi; [done|].
  destruct i as [|i].
  - injection Hi as ->. destruct d; reflexivity.
  - destruct d as [|k1 d]; [done|]. exact (IH i Hi).
Qed.

Lemma date_intervals_length (var_dates : dict Z (list string)) :
  length (Cli.date_intervals var_dates) = length var_dates.
Proof.
  unfold Cli.date_intervals, dict_keys. rewrite length_zip_with, length_app.
  rewrite !length_fmap, length_drop, length_fmap. cbn [length]. lia.
Qed.



(** With dates in use the check passes exactly when the keys ascend. *)
Lemma check_intervals_ascending (var_dates : dict Z (list string)) :
  (∀ i k k', dict_keys var_dates !! i = Some k →
             dict_keys var_dates !! S i = Some k' → (k < k')%Z) →
  Cli.check_intervals false (Cli.date_intervals var_dates) = Ok tt.
Proof.
  intros Hasc. unfold Cli.check_intervals. cbn [negb].
  assert (∀ i m mx, Cli.date_intervals var_dates !! i = Some (m, Some mx) → (m < mx)%Z)
    as Hall.
  { intros i m mx Hi.
    assert (is_Some (dict_keys var_dates !! i)) as [k Hk].
    { apply lookup_lt_is_Some. unfold dict_keys. rewrite length_fmap.
      rewrite <-date_intervals_length. by apply lookup_lt_is_Some_1; eauto. }
    rewrite (date_intervals_lookup _ _ _ Hk) in Hi. injection Hi as -> Hmx.
    by eapply Hasc. }
  revert Hall. generalize (Cli.date_intervals var_dates). intros l Hall.
  enough (∃ us, map_m (λ '(mindate, maxdate),
             match maxdate with
             | Some maxdate => py_assert_msg (bool_decide (mindate < maxdate)%Z)
                                 (Err (NameError "variants_date"))
             | None => Ok tt
             end) l = Ok us) as [us ->] by reflexivity.
  induction l as [|[m mx] l IH]; [by eexists|].
  destruct IH as [us Hus].
  { intros i m' mx' Hi. by apply (Hall (S i)). }
  cbn [map_m]. rewrite Hus. destruct mx as [mx|].
  - unfold py_assert_msg. rewrite bool_decide_eq_true_2; [by eexists|].
    by apply (Hall 0).
  - by eexists.
Qed.

(** C3. On the schedule with the keys 2021-06-01 and 2021-01-01, in this
    order, and with dates in use, the run stops at the assertion of
    lines 290-292, and what it raises is the [NameError] of the misspelt
    [variants_date] in the message, not the assertion failure with the report
    of the dates out of order. *)
Theorem schedule_out_of_order_name_error :
  Cli.date_intervals schedule_out_of_order
    = [(18779%Z, Some 18628%Z); (18628%Z, None)]
  ∧ Cli.check_intervals false (Cli.date_intervals schedule_out_of_order)
    = Err (NameError "variants_date").
Proof. split; reflexivity. Qed.

(** ** The skip rule *)

Lemma select_m_none p rs :
  Forall (λ r, p r = Ok false) rs → select_m p rs = Ok [].
Proof.
  induction 1 as [|r rs Hr _ IH]; simpl; [done|]. by rewrite Hr, IH.
Qed.

Lemma informative_false cols r : uninformative cols r → informative cols r = Ok false.
Proof.
  unfold uninformative, informative. intros [-> | ->]; cbn [mbind result_bind].
  - by rewrite (bool_decide_eq_true_2 (0%Qc = 0%Qc)).
  - rewrite (bool_decide_eq_true_2
               (qc_of_nat (length cols) = qc_of_nat (length cols))) by reflexivity.
    by rewrite orb_true_r.
Qed.

(** C4. A slice whose rows of the window are none, or are all uninformative
    once restricted to the active variants of the window that are columns of
    the table, is passed over: the body of the loop returns normally and
    leaves the driver state as it was, so no result is collected and the
    regression engine is not called. *)
Theorem degenerate_slice_skipped (p : Cli.params) (no_date : bool)
    (var_dates : dict Z (list string)) (location : cell) (temp_dfb slice : table)
    (mindate : Z) (maxdate : option Z) (s : driver rng) :
  Cli.window_rows no_date temp_dfb mindate maxdate = Ok slice →
  rows slice = []
  ∨ (∃ active, dict_get var_dates mindate = Some active
       ∧ ∀ r, r ∈ rows slice →
           uninformative (set_inter_list active (columns slice)) r) →
  Cli.window_body deconv_all p no_date var_dates location temp_dfb (mindate, maxdate) s
  = (Ok tt, s).
Proof.
  intros Hrows Hdeg. unfold Cli.window_body, mbind, M_bind, lift. rewrite Hrows.
  case_bool_decide as Hsize; [reflexivity|].
  destruct Hdeg as [Hnil|(active & Hact & Hall)].
  { exfalso. apply Hsize. unfold size_. by rewrite Hnil. }
  unfold Cli.window_variants. rewrite Hact.
  unfold drop_uninformative.
  rewrite (select_m_none _ (rows slice)).
  - simpl. reflexivity.
  - apply Forall_forall. intros r Hr. apply informative_false. by apply Hall.
Qed.

End DriverClaims.

Section LocationClaims.

(** C7. A table without a [location] column, outside the location-less mode:
    with a [location_code] column the codes become the location and a note is
    printed; without one, a list of exactly one location is stamped on every
    row, with a warning, and a list of any other length ends the run with
    exit status 1 after the error line about the missing location. *)
Theorem location_fallback (variants_config : string)
    (locations_list : option (list cell)) (df_tally : table) :
  has_column df_tally "location" = false →
  (has_column df_tally "location_code" = true →
     Cli.handle_location variants_config false locations_list df_tally
     = ([Cli.note_location_codes],
        Ok (assign "location" (λ r, at_ r "location_code") df_tally, false)))
  ∧ (has_column df_tally "location_code" = false →
     ∀ l, locations_list = Some l →
       (∀ x, l = [x] →
          Cli.handle_location variants_config false locations_list df_tally
          = ([Cli.warning_single_location],
             Ok (assign "location" (λ _, x) df_tally, false)))
       ∧ (length l ≠ 1 →
          Cli.handle_location variants_config false locations_list df_tally
          = ([Cli.error_no_location variants_config], Err (SystemExit 1)))).
Proof.
  intros Hloc. unfold Cli.handle_location. rewrite Hloc. cbn [negb andb]. split.
  - intros ->. reflexivity.
  - intros -> l ->. cbn [Cli.py_len]. split.
    + intros x ->. reflexivity.
    + intros Hlen. rewrite bool_decide_eq_false_2 by done. reflexivity.
Qed.

(** Without a list of locations at all the run does not get to the error
    line: [len(None)] raises first, and nothing is printed. *)
Lemma location_fallback_none_raises :
  Cli.handle_location "variants_config.yaml" false None tally_without_location
  = ([], Err (TypeError "object of type 'NoneType' has no len()")).
Proof. reflexivity. Qed.

End LocationClaims.

Section AggregationFacts.

Lemma filter_imap_fmap {A B C} (h : nat → A → B) (P : B → Prop) (Q : A → Prop)
    `{!∀ x, Decision (P x)} `{!∀ x, Decision (Q x)} (g : B → C) (g' : A → C) l :
  (∀ i x, P (h i x) ↔ Q x) → (∀ i x, g (h i x) = g' x) →
  g <$> filter P (imap h l) = g' <$> filter Q l.
Proof.
  intros HP Hg. revert h HP Hg. induction l as [|x l IH]; intros h HP Hg; [done|].
  rewrite imap_cons. destruct (decide (Q x)) as [HQ|HQ].
  - rewrite (filter_cons_True Q) by done.
    rewrite filter_cons_True by (by apply HP). rewrite !fmap_cons, Hg. f_equal.
    apply IH; intros i y; [apply (HP (S i)) | apply (Hg (S i))].
  - rewrite (filter_cons_False Q) by done.
    rewrite filter_cons_False by (by rewrite HP).
    apply IH; intros i y; [apply (HP (S i)) | apply (Hg (S i))].
Qed.

Lemma fmap_imap_const {A B C} (h : nat → A → B) (g : B → C) (g' : A → C) l :
  (∀ i x, g (h i x) = g' x) → g <$> imap h l = g' <$> l.
Proof.
  intros Hg. rewrite fmap_imap. rewrite <-(imap_const g' l).
  apply imap_ext. intros i x _. apply Hg.
Qed.

Lemma rows_reset_index t : rows (Cli.reset_index t) = imap reset_row (rows t).
Proof. reflexivity. Qed.

Lemma at_reset_row_index i r : at_ (reset_row i r) "index" = label r.
Proof. unfold at_, reset_row. cbn [cells]. by rewrite lookup_insert_eq. Qed.

Lemma at_reset_row_ne i r c : c ≠ "index" → at_ (reset_row i r) c = at_ r c.
Proof.
  intros Hc. unfold at_, reset_row. cbn [cells]. by rewrite lookup_insert_ne.
Qed.

Lemma key_of_reset_row i r : Cli.key_of Cli.agg_columns (reset_row i r) = group_key r.
Proof.
  unfold Cli.key_of, Cli.agg_columns, group_key. cbn [fmap list_fmap].
  by rewrite at_reset_row_index, !at_reset_row_ne by done.
Qed.

Lemma elem_of_group_keys ks k :
  k ∈ Cli.group_keys ks ↔ k ∈ ks ∧ Cli.has_nan k = false.
Proof.
  unfold Cli.group_keys. rewrite merge_sort_Permutation, elem_of_unique.
  rewrite list_elem_of_filter. tauto.
Qed.

Lemma NoDup_group_keys ks : NoDup (Cli.group_keys ks).
Proof.
  unfold Cli.group_keys. rewrite merge_sort_Permutation. apply NoDup_unique.
Qed.

Lemma rows_named names rs :
  rows (Cli.named names rs)
  = imap (λ i cs, Row (Num (qc_of_nat i)) (list_to_map (zip names cs))) rs.
Proof. reflexivity. Qed.

Lemma sort_values_ok by_ t t' :
  Cli.sort_values by_ t = Ok t' →
  columns t' = columns t ∧ rows t' ≡ₚ rows t ∧ ∀ c, c ∈ by_ → c ∈ columns t.
Proof.
  unfold Cli.sort_values. intros H. apply bind_ok in H as (us & Hus & H).
  injection H as <-. cbn [columns rows]. split; [done|].
  split; [apply merge_sort_Permutation|].
  intros c Hc. apply map_m_ok in Hus.
  apply list_elem_of_lookup in Hc as [i Hi].
  destruct (Forall2_lookup_l _ _ _ _ _ Hus Hi) as (u & _ & Hu).
  by apply require_column_ok in Hu.
Qed.

End AggregationFacts.

Section AggregationClaims.

Variable np_exp : Qc → Qc.

Lemma reverse_logit_plain p t :
  Cli.have_confint p = false → Cli.reverse_logit np_exp p t = Ok t.
Proof. intros H. unfold Cli.reverse_logit. by rewrite H. Qed.

(** The rows of [groupby_agg]: one per group, the key followed by the mean
    and the two quantiles of the group's values. *)
Lemma groupby_agg_ok (deconv_df_flat : table) agg :
  Cli.groupby_agg (Cli.reset_index deconv_df_flat) = Ok agg →
  f_columns_bootstrap agg ∧
  Forall2 (λ k cs, ∃ m lower upper,
      Cli.mean (group_values deconv_df_flat k) = Ok m ∧
      Cli.np_quantile Cli.q025 (group_values deconv_df_flat k) = Ok lower ∧
      Cli.np_quantile Cli.q975 (group_values deconv_df_flat k) = Ok upper ∧
      cs = k ++ [m; lower; upper])
    (Cli.group_keys (group_key <$> rows deconv_df_flat)) (Cli.f_rows agg).
Proof.
  unfold Cli.groupby_agg. intros H. apply bind_ok in H as (us & _ & H).
  apply bind_ok in H as (rs & Hrs & H). injection H as <-.
  split; [reflexivity|]. cbn [Cli.f_rows].
  apply map_m_ok in Hrs. rewrite rows_reset_index in Hrs.
  rewrite (fmap_imap_const reset_row _ group_key) in Hrs by apply key_of_reset_row.
  eapply Forall2_impl; [exact Hrs|]. intros k cs Hk. cbn beta in Hk.
  rewrite (filter_imap_fmap reset_row _ (λ r, group_key r = k) _ (λ r, at_ r "frac"))
    in Hk.
  - fold (group_values deconv_df_flat k) in Hk.
    apply bind_ok in Hk as (m & Hm & Hk). apply bind_ok in Hk as (lo & Hlo & Hk).
    apply bind_ok in Hk as (hi & Hhi & Hk). injection Hk as <-. eauto 10.
  - intros i r. by rewrite key_of_reset_row.
  - intros i r. by apply at_reset_row_ne.
Qed.

End AggregationClaims.

Section BootstrapClaim.

Variable np_exp : Qc → Qc.

Lemma export_names_bootstrap p agg :
  (1 < Cli.bootstrap p)%Z → f_columns_bootstrap agg →
  Cli.export_name p <$> Cli.f_columns agg = series_columns.
Proof.
  intros Hb ->. unfold Cli.export_name, Cli.export_columns.
  rewrite (bool_decide_eq_true_2 _ Hb). reflexivity.
Qed.

Lemma series_row l a b c m lower upper :
  let r := Row l (list_to_map (zip series_columns [a; b; c; m; lower; upper])) in
  Cli.key_of series_key r = [a; b; c] ∧ at_ r "proportion" = m
  ∧ at_ r "proportionLower" = lower ∧ at_ r "proportionUpper" = upper.
Proof.
  intros r. subst r. unfold Cli.key_of, series_key, series_columns.
  cbn [fmap list_fmap]. repeat split; f_equal; read_cell.
  all: repeat f_equal; read_cell.
Qed.

Lemma group_key_length ks k :
  k ∈ Cli.group_keys (group_key <$> ks) → ∃ a b c, k = [a; b; c].
Proof.
  intros Hk. apply elem_of_group_keys in Hk as [Hk _].
  apply list_elem_of_fmap in Hk as (r & -> & _). unfold group_key. eauto.
Qed.

(** C6. With more than one bootstrap replicate (and therefore no confidence
    estimator) the aggregated frame has one row for every group of the long
    per-replicate frame, grouped by location, variant and date; the row holds
    the mean of the group's values as [proportion], their 0.025 quantile as
    [proportionLower] and their 0.975 quantile as [proportionUpper]. *)
Theorem bootstrap_mean_and_percentiles (p : Cli.params) (deconv_df_flat out : table) :
  (1 < Cli.bootstrap p)%Z →
  Cli.have_confint p = false →
  Cli.aggregate np_exp p deconv_df_flat = Ok out →
  columns out = series_columns
  ∧ NoDup (Cli.key_of series_key <$> rows out)
  ∧ (∀ r, r ∈ rows deconv_df_flat → Cli.has_nan (group_key r) = false →
       ∃ r', r' ∈ rows out ∧ Cli.key_of series_key r' = group_key r)
  ∧ (∀ r', r' ∈ rows out →
       let k := Cli.key_of series_key r' in
       (∃ r, r ∈ rows deconv_df_flat ∧ group_key r = k)
       ∧ Cli.mean (group_values deconv_df_flat k) = Ok (at_ r' "proportion")
       ∧ Cli.np_quantile Cli.q025 (group_values deconv_df_flat k)
         = Ok (at_ r' "proportionLower")
       ∧ Cli.np_quantile Cli.q975 (group_values deconv_df_flat k)
         = Ok (at_ r' "proportionUpper")).
Proof.
  intros Hb Hc H. unfold Cli.aggregate in H.
  rewrite (bool_decide_eq_true_2 _ Hb) in H.
  apply bind_ok in H as (agg & Hagg & H).
  apply groupby_agg_ok in Hagg as [Hcols Hrows].
  rewrite (export_names_bootstrap _ _ Hb Hcols) in H.
  apply bind_ok in H as (sorted & Hsort & H).
  rewrite (reverse_logit_plain _ _ _ Hc) in H. injection H as <-.
  apply sort_values_ok in Hsort as (Hscols & Hperm & _).
  rewrite rows_named in Hperm. cbn [columns Cli.named] in Hscols.
  set (keys := Cli.group_keys (group_key <$> rows deconv_df_flat)) in *.
  set (mk := λ (i : nat) (cs : list cell),
         Row (Num (qc_of_nat i)) (list_to_map (zip series_columns cs))) in *.
  assert (Forall2 (λ k r',
            Cli.key_of series_key r' = k
            ∧ Cli.mean (group_values deconv_df_flat k) = Ok (at_ r' "proportion")
            ∧ Cli.np_quantile Cli.q025 (group_values deconv_df_flat k)
              = Ok (at_ r' "proportionLower")
            ∧ Cli.np_quantile Cli.q975 (group_values deconv_df_flat k)
              = Ok (at_ r' "proportionUpper"))
          keys (imap mk (Cli.f_rows agg))) as Hall.
  { apply Forall2_same_length_lookup. split.
    - rewrite length_imap. by eapply Forall2_length.
    - intros i k r' Hk Hr'. rewrite list_lookup_imap in Hr'.
      destruct (Cli.f_rows agg !! i) as [cs|] eqn:Hcs; [|discriminate].
      injection Hr' as <-.
      destruct (Forall2_lookup_l _ _ _ _ _ Hrows Hk) as (cs' & Hcs' & Hk').
      rewrite Hcs in Hcs'. injection Hcs' as <-.
      destruct Hk' as (m & lo & hi & Hm & Hlo & Hhi & ->).
      destruct (group_key_length (rows deconv_df_flat) k) as (a & b & c & ->).
      { by eapply list_elem_of_lookup_2. }
      unfold mk. cbn [app].
      destruct (series_row (Num (qc_of_nat i)) a b c m lo hi) as (-> & -> & -> & ->).
      done. }
  assert (Cli.key_of series_key <$> imap mk (Cli.f_rows agg) = keys) as Hkeys.
  { apply list_eq_Forall2. apply Forall2_fmap_l, Forall2_flip.
    eapply Forall2_impl; [exact Hall|]. by intros k r' [-> _]. }
  split; [done|]. split; [|split].
  - rewrite Hperm, Hkeys. apply NoDup_group_keys.
  - intros r Hr Hnan.
    assert (group_key r ∈ keys) as Hin.
    { apply elem_of_group_keys. split; [|done]. by apply list_elem_of_fmap_2. }
    rewrite <-Hkeys in Hin. apply list_elem_of_fmap in Hin as (r' & Hk & Hr').
    exists r'. split; [by rewrite Hperm | done].
  - intros r' Hr' k. rewrite Hperm in Hr'.
    apply list_elem_of_lookup in Hr' as [i Hi].
    destruct (Forall2_lookup_r _ _ _ _ _ Hall Hi) as (k' & Hk' & Hkey & Hm & Hlo & Hhi).
    subst k. rewrite Hkey. split; [|done].
    apply list_elem_of_lookup_2, elem_of_group_keys in Hk' as [Hk' _].
    apply list_elem_of_fmap in Hk' as (r & -> & Hr). eauto.
Qed.

End BootstrapClaim.

Section OutputClaims.

Variable astype_str : cell → string.

Lemma drop_columns_gone cols t c :
  c ∈ cols →
  (c ∉ columns (drop_columns cols t))
  ∧ ∀ r, r ∈ rows (drop_columns cols t) → cells r !! c = None.
Proof.
  intros Hc. unfold drop_columns. cbn [columns rows]. split.
  - rewrite list_elem_of_filter. tauto.
  - intros r Hr. apply list_elem_of_fmap in Hr as (r0 & -> & _). cbn [cells].
    apply map_lookup_filter_None. right. intros v _. cbn [fst]. tauto.
Qed.

Lemma location_not_exported p : "location" ∉ dict_values (Cli.export_columns p).
Proof.
  unfold Cli.export_columns.
  destruct (bool_decide (1 < Cli.bootstrap p)%Z), (Cli.have_confint p);
    cbn [dict_values fmap list_fmap snd];
    intros H; repeat (apply elem_of_cons in H as [H|H]; [discriminate|]);
    by apply elem_of_nil in H.
Qed.

Lemma json_columns_spec p no_date :
  ("location" ∉ Cli.json_columns p no_date)
  ∧ (no_date = true → "date" ∉ Cli.json_columns p no_date).
Proof.
  unfold Cli.json_columns. split.
  - destruct no_date; [|apply location_not_exported].
    unfold set_diff_list. rewrite elem_of_elements, elem_of_difference.
    rewrite elem_of_list_to_set. intros [H _]. by apply location_not_exported in H.
  - intros ->. unfold set_diff_list. rewrite elem_of_elements. set_solver.
Qed.

(** The records of [build_update_data]. *)
Lemma build_update_data_ok p no_date agg (d : Cli.update_data) :
  Cli.build_update_data astype_str p no_date agg = Ok d →
  d.*1 = unique ((λ r, at_ r "location") <$> rows agg)
  ∧ ∀ loc per_var var recs rec,
      (loc, per_var) ∈ d → (var, recs) ∈ per_var → rec ∈ recs →
      rec.*1 = Cli.json_columns p no_date.
Proof.
  unfold Cli.build_update_data. intros H.
  apply bind_ok in H as (loc_uniq & Hloc & H).
  apply bind_ok in H as (var_uniq & Hvar & H).
  apply map_m_ok in H.
  assert (loc_uniq = unique ((λ r, at_ r "location") <$> rows agg)) as ->.
  { unfold Lollipop.column in Hloc. destruct (require_column agg "location");
      cbn in Hloc; [|discriminate]. by injection Hloc as <-. }
  split.
  - apply list_eq_Forall2. apply Forall2_fmap_l, Forall2_flip.
    eapply Forall2_impl; [exact H|]. intros loc [loc' per_var] Hl. cbn beta in Hl.
    apply bind_ok in Hl as (pv & _ & Hl). by injection Hl as -> _.
  - intros loc per_var var recs rec Hd Hpv Hrec.
    apply list_elem_of_lookup in Hd as [i Hi].
    destruct (Forall2_lookup_r _ _ _ _ _ H Hi) as (loc0 & _ & Hl). cbn beta in Hl.
    apply bind_ok in Hl as (pv & Hpvs & Hl). injection Hl as _ ->.
    apply map_m_ok in Hpvs.
    apply list_elem_of_lookup in Hpv as [j Hj].
    destruct (Forall2_lookup_r _ _ _ _ _ Hpvs Hj) as (var0 & _ & Hv). cbn beta in Hv.
    apply bind_ok in Hv as (us & _ & Hv). injection Hv as _ <-.
    apply list_elem_of_fmap in Hrec as (r & -> & _).
    rewrite <-list_fmap_compose. apply list_fmap_id.
Qed.

(** C8. In the delimited table, long or wide, the location-less mode leaves
    no [location] column and the date-less mode no [date] column.  In the JSON
    document the records never carry a [location] key and, in the date-less
    mode, carry no [date] key; the level of the locations is kept in every
    mode, with one key for each location of the aggregated frame. *)
Theorem suppressed_columns_and_keys (p : Cli.params) (fmt_columns no_loc no_date : bool)
    (deconv_df_agg : table) :
  (∀ out, Cli.csv_output p fmt_columns no_loc no_date deconv_df_agg = Ok out →
     (no_loc = true →
        ("location" ∉ columns out)
        ∧ ∀ r, r ∈ rows out → cells r !! "location" = None)
     ∧ (no_date = true →
        ("date" ∉ columns out)
        ∧ ∀ r, r ∈ rows out → cells r !! "date" = None))
  ∧ (∀ d : Cli.update_data,
       Cli.build_update_data astype_str p no_date deconv_df_agg = Ok d →
       d.*1 = unique ((λ r, at_ r "location") <$> rows deconv_df_agg)
       ∧ ∀ loc per_var var recs rec,
           (loc, per_var) ∈ d → (var, recs) ∈ per_var → rec ∈ recs →
           ("location" ∉ rec.*1) ∧ (no_date = true → "date" ∉ rec.*1)).
Proof.
  split.
  - intros out H. unfold Cli.csv_output in H.
    apply bind_ok in H as (output_df & _ & H). injection H as <-.
    split; intros ->; apply drop_columns_gone; set_solver.
  - intros d H. apply build_update_data_ok in H as [Hkeys Hrecs].
    split; [done|]. intros loc per_var var recs rec Hd Hpv Hrec.
    rewrite (Hrecs _ _ _ _ _ Hd Hpv Hrec). apply json_columns_spec.
Qed.

(** In the location-less mode the JSON document still has the level of the
    locations: the stamped [location] is its one key, while the delimited table
    has lost the column. *)
Lemma json_keeps_location_level :
  Cli.build_update_data example_astype_str plain_params false aggregated_no_loc
  = Ok [(Str "location",
         [(Str "Alpha",
           [[("date", Str "2021-10-01"); ("proportion", Num (Q2Qc (1 # 2)))]])])]
  ∧ Cli.json_output example_astype_str example_float_repr example_json_quote
      plain_params false aggregated_no_loc
    = Ok "{location: {Alpha: {timeseriesSummary: [{date: 2021-10-01, proportion: 0.5}]}}}"
  ∧ columns <$> Cli.csv_output plain_params false true false aggregated_no_loc
    = Ok ["variant"; "date"; "proportion"].
Proof. repeat split; vm_compute; reflexivity. Qed.

End OutputClaims.

Section LongFormFacts.

Lemma map_cells_elem f t r :
  r ∈ rows (map_cells f t) ↔
  ∃ r0, r0 ∈ rows t ∧ r = row_of (label r0) (columns t) (λ c, f (at_ r0 c)).
Proof. unfold map_cells. cbn [rows]. rewrite list_elem_of_fmap. naive_solver. Qed.

Lemma concat_results_plain all_deconv deconv_df :
  Cli.concat_results false all_deconv = Ok deconv_df →
  deconv_df = map_cells Cli.fillna_zero (concat all_deconv).
Proof.
  unfold Cli.concat_results. case_bool_decide; [discriminate|].
  cbn. by intros [= <-].
Qed.

Lemma concat_results_confint all_deconv deconv_df :
  Cli.concat_results true all_deconv = Ok deconv_df →
  deconv_df = concat all_deconv.
Proof.
  unfold Cli.concat_results. case_bool_decide; [discriminate|].
  cbn. by intros [= <-].
Qed.

Lemma melt_ok id_vars value_vars t flat :
  Cli.melt id_vars value_vars "variant" "frac" t = Ok flat →
  (∀ c, c ∈ id_vars ++ value_vars → c ∈ columns t)
  ∧ ∀ r, r ∈ rows flat ↔
         ∃ v r0, v ∈ value_vars ∧ r0 ∈ rows t ∧ r = melt_row id_vars v r0.
Proof.
  unfold Cli.melt. intros H. apply bind_ok in H as (us & Hus & H).
  injection H as <-. cbn [rows]. split.
  - intros c Hc. apply map_m_ok in Hus.
    apply list_elem_of_lookup in Hc as [i Hi].
    destruct (Forall2_lookup_l _ _ _ _ _ Hus Hi) as (u & _ & Hu).
    by apply require_column_ok in Hu.
  - intros r. rewrite list_elem_of_bind. split.
    + intros (v & Hr & Hv). apply list_elem_of_fmap in Hr as (r0 & -> & Hr0).
      by exists v, r0.
    + intros (v & r0 & Hv & Hr0 & ->). exists v. split; [|done].
      apply list_elem_of_fmap. by exists r0.
Qed.

Lemma melt_row_frac id_vars v r : at_ (melt_row id_vars v r) "frac" = at_ r v.
Proof. unfold melt_row. apply at_set_cell_eq. Qed.

Lemma melt_row_variant id_vars v r : at_ (melt_row id_vars v r) "variant" = Str v.
Proof. unfold melt_row. rewrite at_set_cell_ne by done. apply at_set_cell_eq. Qed.

Lemma melt_row_id id_vars v r c :
  c ∈ id_vars → c ≠ "frac" → c ≠ "variant" → at_ (melt_row id_vars v r) c = at_ r c.
Proof.
  intros Hc Hf Hv. unfold melt_row. rewrite !at_set_cell_ne by done.
  by apply at_reindex.
Qed.

Lemma melt_row_label id_vars v r : label (melt_row id_vars v r) = label r.
Proof. reflexivity. Qed.

End LongFormFacts.

Section PlainModeFacts.

Variable np_exp : Qc → Qc.

Lemma as_is_ok flat agg :
  Cli.as_is (Cli.reset_index flat) = Ok agg →
  Cli.f_columns agg = Cli.Flat <$> ["location"; "variant"; "index"; "frac"]
  ∧ Cli.f_rows agg
    = (λ r, [at_ r "location"; at_ r "variant"; label r; at_ r "frac"]) <$> rows flat.
Proof.
  unfold Cli.as_is. intros H. apply bind_ok in H as (us & _ & H).
  injection H as <-. split; [reflexivity|]. cbn [Cli.f_rows].
  apply (fmap_imap_const reset_row). intros i r.
  cbn [fmap list_fmap Cli.agg_columns app].
  by rewrite at_reset_row_index, !at_reset_row_ne by done.
Qed.

Lemma export_names_plain p :
  ¬ (1 < Cli.bootstrap p)%Z → Cli.have_confint p = false →
  Cli.export_name p <$> (Cli.Flat <$> ["location"; "variant"; "index"; "frac"])
  = ["location"; "variant"; "date"; "proportion"].
Proof.
  intros Hb Hc. unfold Cli.export_name, Cli.export_columns.
  rewrite (bool_decide_eq_false_2 _ Hb), Hc. reflexivity.
Qed.

Lemma plain_row l a b c v :
  let r := Row l (list_to_map (zip ["location"; "variant"; "date"; "proportion"]
                                   [a; b; c; v])) in
  at_ r "location" = a ∧ at_ r "variant" = b ∧ at_ r "date" = c
  ∧ at_ r "proportion" = v.
Proof. intros r. subst r. repeat split; read_cell. Qed.

(** Without bootstrap and without confidence estimator the aggregated frame
    has the rows of the long frame, its values under [proportion]. *)
Lemma aggregate_plain p flat out :
  ¬ (1 < Cli.bootstrap p)%Z → Cli.have_confint p = false →
  Cli.aggregate np_exp p flat = Ok out →
  (∀ r, r ∈ rows flat →
     ∃ r', r' ∈ rows out ∧ at_ r' "location" = at_ r "location"
           ∧ at_ r' "variant" = at_ r "variant" ∧ at_ r' "date" = label r
           ∧ at_ r' "proportion" = at_ r "frac")
  ∧ (∀ r', r' ∈ rows out →
     ∃ r, r ∈ rows flat ∧ at_ r' "location" = at_ r "location"
          ∧ at_ r' "variant" = at_ r "variant" ∧ at_ r' "date" = label r
          ∧ at_ r' "proportion" = at_ r "frac").
Proof.
  intros Hb Hc H. unfold Cli.aggregate in H.
  rewrite (bool_decide_eq_false_2 _ Hb), Hc in H.
  apply bind_ok in H as (agg & Hagg & H). apply as_is_ok in Hagg as [Hcols Hrows].
  rewrite Hcols, (export_names_plain _ Hb Hc), Hrows in H.
  apply bind_ok in H as (sorted & Hsort & H).
  rewrite (reverse_logit_plain _ _ _ Hc) in H. injection H as <-.
  apply sort_values_ok in Hsort as (_ & Hperm & _). rewrite rows_named in Hperm.
  split.
  - intros r Hr. apply list_elem_of_lookup in Hr as [i Hi].
    eexists. split.
    + rewrite Hperm. apply list_elem_of_lookup. exists i.
      rewrite list_lookup_imap, list_lookup_fmap, Hi. reflexivity.
    + apply plain_row.
  - intros r' Hr'. rewrite Hperm in Hr'.
    apply elem_of_lookup_imap in Hr' as (i & cs & -> & Hcs).
    rewrite list_lookup_fmap in Hcs.
    destruct (rows flat !! i) as [r|] eqn:Hr; [|discriminate]. injection Hcs as <-.
    exists r. split; [by eapply list_elem_of_lookup_2|]. apply plain_row.
Qed.

(** Without a confidence estimator the long frame holds no missing value:
    every value is the one of the concatenated results, 0 where that one is
    missing. *)
Lemma long_form_plain p variants_list all_deconv flat :
  Cli.have_confint p = false →
  Cli.long_form p variants_list all_deconv = Ok flat →
  let value_vars :=
    set_inter_list variants_list (columns (concat all_deconv)) ++ ["undetermined"] in
  (∀ r, r ∈ rows flat →
     ∃ v r0, v ∈ value_vars ∧ r0 ∈ rows (concat all_deconv)
       ∧ label r = label r0 ∧ at_ r "variant" = Str v
       ∧ at_ r "location" = Cli.fillna_zero (at_ r0 "location")
       ∧ at_ r "frac" = Cli.fillna_zero (at_ r0 v))
  ∧ (∀ v r0, v ∈ value_vars → r0 ∈ rows (concat all_deconv) →
     ∃ r, r ∈ rows flat
       ∧ label r = label r0 ∧ at_ r "variant" = Str v
       ∧ at_ r "location" = Cli.fillna_zero (at_ r0 "location")
       ∧ at_ r "frac" = Cli.fillna_zero (at_ r0 v)).
Proof.
  intros Hc H value_vars. unfold Cli.long_form in H. rewrite Hc in H.
  apply bind_ok in H as (df & Hdf & H). apply concat_results_plain in Hdf as ->.
  cbn [columns map_cells app] in H. fold value_vars in H.
  apply melt_ok in H as [Hcols Hrows].
  assert (∀ v r0, v ∈ "location" :: value_vars → r0 ∈ rows (concat all_deconv) →
            let r1 := row_of (label r0) (columns (concat all_deconv))
                        (λ c, Cli.fillna_zero (at_ r0 c)) in
            let r := melt_row ["location"] v r1 in
            label r = label r0 ∧ at_ r "variant" = Str v
            ∧ at_ r "location" = Cli.fillna_zero (at_ r0 "location")
            ∧ at_ r "frac" = Cli.fillna_zero (at_ r0 v)) as Hrow.
  { intros v r0 Hv Hr0 r1 r. subst r r1.
    rewrite melt_row_label, melt_row_variant, melt_row_frac.
    rewrite melt_row_id by (done || set_solver).
    rewrite !at_row_of. cbn [label row_of].
    rewrite !decide_True; [done | | ].
    - apply (Hcols v). cbn [app]. done.
    - apply (Hcols "location"). cbn [app]. left. }
  split.
  - intros r Hr. apply Hrows in Hr as (v & r1 & Hv & Hr1 & ->).
    apply map_cells_elem in Hr1 as (r0 & Hr0 & ->).
    exists v, r0. split; [done|]. split; [done|].
    apply Hrow; [by right | done].
  - intros v r0 Hv Hr0. eexists. split.
    + apply Hrows. exists v. eexists. split; [done|]. split; [|reflexivity].
      apply map_cells_elem. by exists r0.
    + apply Hrow; [by right | done].
Qed.

End PlainModeFacts.

Section ConfintModeFacts.

Variable np_exp : Qc → Qc.

Lemma pivot_cell_vals matching c :
  Cli.pivot_cell matching c = pivot_vals ((λ r, at_ r c) <$> matching).
Proof. by destruct matching as [|r [|r' l]]. Qed.

Lemma pivot_vals_elem vals v x : pivot_vals vals = Ok v → x ∈ vals → v = x.
Proof.
  destruct vals as [|y [|z l]]; cbn; intros H Hx; try discriminate.
  - by apply elem_of_nil in Hx.
  - apply list_elem_of_singleton in Hx as ->. by injection H.
Qed.

Lemma str_of_estimate_reset i r :
  Cli.str_of (at_ (reset_row i r) "estimate") = Cli.str_of (at_ r "estimate").
Proof. by rewrite at_reset_row_ne. Qed.

(** The rows of [pivot_estimate]: one per key, and in it the value of every
    row of the long frame under the label of its estimate. *)
Lemma pivot_estimate_ok flat agg :
  Cli.pivot_estimate (Cli.reset_index flat) = Ok agg →
  ∃ estimates keys,
    NoDup estimates ∧ NoDup keys
    ∧ (∀ k, k ∈ keys ↔ k ∈ group_key <$> rows flat)
    ∧ Cli.f_columns agg
      = [Cli.Multi "location" ""; Cli.Multi "variant" ""; Cli.Multi "index" ""]
        ++ (Cli.Multi "frac" <$> estimates)
    ∧ Forall2 (λ k cs, ∃ vs,
          cs = k ++ vs ∧ length vs = length estimates
          ∧ ∀ r, r ∈ rows flat → group_key r = k →
              ∃ j, estimates !! j = Some (Cli.str_of (at_ r "estimate"))
                   ∧ vs !! j = Some (at_ r "frac"))
        keys (Cli.f_rows agg).
Proof.
  unfold Cli.pivot_estimate. rewrite rows_reset_index. cbn zeta.
  rewrite (fmap_imap_const reset_row _ group_key) by apply key_of_reset_row.
  rewrite (fmap_imap_const reset_row _ (λ r, Cli.str_of (at_ r "estimate")))
    by apply str_of_estimate_reset.
  intros H. apply bind_ok in H as (us & _ & H).
  apply bind_ok in H as (rs & Hrs & H). injection H as <-.
  set (estimates := merge_sort Cli.str_le
         (unique ((λ r, Cli.str_of (at_ r "estimate")) <$> rows flat))) in *.
  set (keys := merge_sort Cli.key_le (unique (group_key <$> rows flat))) in *.
  exists estimates, keys.
  assert (∀ e, e ∈ estimates ↔ e ∈ (λ r, Cli.str_of (at_ r "estimate")) <$> rows flat)
    as Hest.
  { intros e. unfold estimates. by rewrite merge_sort_Permutation, elem_of_unique. }
  split; [unfold estimates; rewrite merge_sort_Permutation; apply NoDup_unique|].
  split; [unfold keys; rewrite merge_sort_Permutation; apply NoDup_unique|].
  split; [intros k; unfold keys; by rewrite merge_sort_Permutation, elem_of_unique|].
  split; [reflexivity|]. cbn [Cli.f_rows].
  apply map_m_ok in Hrs. eapply Forall2_impl; [exact Hrs|].
  intros k cs Hk. cbn beta in Hk. apply bind_ok in Hk as (vs & Hvs & Hk).
  injection Hk as <-. exists vs. split; [done|]. apply map_m_ok in Hvs.
  split; [symmetry; by eapply Forall2_length|].
  intros r Hr Hkey.
  assert (Cli.str_of (at_ r "estimate") ∈ estimates) as Hin.
  { apply Hest. apply list_elem_of_fmap. by exists r. }
  apply list_elem_of_lookup in Hin as [j Hj]. exists j. split; [done|].
  destruct (Forall2_lookup_l _ _ _ _ _ Hvs Hj) as (v & Hv & Hcell).
  rewrite Hv. f_equal. cbn beta in Hcell. rewrite pivot_cell_vals in Hcell.
  rewrite (filter_imap_fmap reset_row _
             (λ r', group_key r' = k
                    ∧ Cli.str_of (at_ r' "estimate") = Cli.str_of (at_ r "estimate"))
             _ (λ r', at_ r' "frac")) in Hcell.
  - eapply pivot_vals_elem; [exact Hcell|].
    apply list_elem_of_fmap. exists r. split; [done|].
    apply list_elem_of_filter. done.
  - intros i r'. by rewrite key_of_reset_row, str_of_estimate_reset.
  - intros i r'. by apply at_reset_row_ne.
Qed.

(** The first pair under a name decides what [list_to_map] holds. *)
Lemma lookup_zip_first (names : list string) (cs : list cell) j c v :
  names !! j = Some c → (∀ j', j' < j → names !! j' ≠ Some c) →
  cs !! j = Some v →
  (list_to_map (zip names cs) : gmap string cell) !! c = Some v.
Proof.
  revert j cs. induction names as [|n names IH]; intros j cs Hj Hfirst Hv; [done|].
  destruct cs as [|x cs]; [done|]. cbn [zip zip_with list_to_map foldr uncurry].
  cbn. destruct j as [|j].
  - injection Hj as ->. injection Hv as ->. apply lookup_insert_eq.
  - rewrite lookup_insert_ne.
    + apply (IH j); [done | | done]. intros j' Hj'. apply (Hfirst (S j')). lia.
    + intros ->. by apply (Hfirst 0); [lia|].
Qed.

Lemma export_name_confint p e :
  ¬ (1 < Cli.bootstrap p)%Z → Cli.have_confint p = true →
  let name := default "None" (Cli.confint_name p) in
  Cli.export_name p (Cli.Multi "frac" e)
  = if decide (e = "MSE") then "proportion"
    else if decide (e = name +:+ "_lower") then "proportionLower"
    else if decide (e = name +:+ "_upper") then "proportionUpper"
    else "frac" +:+ e.
Proof.
  intros Hb Hc name. unfold Cli.export_name, Cli.export_columns.
  rewrite (bool_decide_eq_false_2 _ Hb), Hc. fold name.
  cbn [dict_get]. rewrite decide_False by discriminate.
  repeat (case_decide; simplify_eq; try done); congruence.
Qed.

Lemma export_name_confint_inj p e e' :
  ¬ (1 < Cli.bootstrap p)%Z → Cli.have_confint p = true →
  Cli.export_name p (Cli.Multi "frac" e) = Cli.export_name p (Cli.Multi "frac" e') →
  e = e'.
Proof.
  intros Hb Hc. rewrite !export_name_confint by done. cbn zeta.
  repeat case_decide; cbn; intros Heq; simplify_eq; try done; congruence.
Qed.

Lemma export_name_confint_fresh p e :
  ¬ (1 < Cli.bootstrap p)%Z → Cli.have_confint p = true →
  Cli.export_name p (Cli.Multi "frac" e) ∉ series_key.
Proof.
  intros Hb Hc. rewrite export_name_confint by done. cbn zeta. unfold series_key.
  repeat case_decide; cbn; intros Hin;
    repeat (apply elem_of_cons in Hin as [Hin|Hin]; [discriminate|]);
    by apply elem_of_nil in Hin.
Qed.

Lemma export_names_confint p estimates :
  ¬ (1 < Cli.bootstrap p)%Z → Cli.have_confint p = true →
  Cli.export_name p
    <$> [Cli.Multi "location" ""; Cli.Multi "variant" ""; Cli.Multi "index" ""]
        ++ (Cli.Multi "frac" <$> estimates)
  = series_key ++ ((λ e, Cli.export_name p (Cli.Multi "frac" e)) <$> estimates).
Proof.
  intros Hb Hc. rewrite fmap_app, <-list_fmap_compose. f_equal.
  unfold Cli.export_name, Cli.export_columns.
  rewrite (bool_decide_eq_false_2 _ Hb), Hc. reflexivity.
Qed.

Lemma expit_nan : Cli.expit np_exp NaN = Ok NaN.
Proof. reflexivity. Qed.

(** [reverse_logit] touches the two bounds only, and leaves a missing bound
    missing. *)
Lemma reverse_logit_ok p t out :
  Cli.reverse_logit np_exp p t = Ok out →
  Forall2 (λ r r',
      label r' = label r
      ∧ (∀ c, c ≠ "proportionLower" → c ≠ "proportionUpper" → at_ r' c = at_ r c)
      ∧ (∀ c, at_ r c = NaN → at_ r' c = NaN))
    (rows t) (rows out).
Proof.
  assert (Forall2 (λ r r' : row,
      label r' = label r
      ∧ (∀ c, c ≠ "proportionLower" → c ≠ "proportionUpper" → at_ r' c = at_ r c)
      ∧ (∀ c, at_ r c = NaN → at_ r' c = NaN)) (rows t) (rows t)) as Hsame.
  { apply Forall2_same_length_lookup. split; [done|].
    intros i r r' Hr Hr'. rewrite Hr in Hr'. by injection Hr' as <-. }
  unfold Cli.reverse_logit. destruct (Cli.have_confint p); [|by intros [= <-]].
  destruct (dict_get _ "scale") as [scale|]; [|discriminate].
  case_bool_decide; [|by intros [= <-]].
  intros Hrun. apply bind_ok in Hrun as (us & _ & Hrun).
  apply bind_ok in Hrun as (rs & Hrs & Hrun). injection Hrun as <-. cbn [rows].
  apply map_m_ok in Hrs. eapply Forall2_impl; [exact Hrs|].
  intros r r' Hr. cbn beta in Hr.
  apply bind_ok in Hr as (l & Hl & Hr). apply bind_ok in Hr as (u & Hu & Hr).
  injection Hr as <-. split; [done|]. split.
  - intros c Hcl Hcu. by rewrite !at_set_cell_ne.
  - intros c Hnan.
    destruct (decide (c = "proportionUpper")) as [->|Hcu].
    { rewrite at_set_cell_eq. rewrite Hnan in Hu. by injection Hu. }
    rewrite at_set_cell_ne by done.
    destruct (decide (c = "proportionLower")) as [->|Hcl].
    { rewrite at_set_cell_eq. rewrite Hnan in Hl. by injection Hl. }
    by rewrite at_set_cell_ne.
Qed.

End ConfintModeFacts.

Section ConfintAggregate.

Variable np_exp : Qc → Qc.

Lemma named_confint_row p estimates (l : cell) (r : row) (vs : list cell) j :
  ¬ (1 < Cli.bootstrap p)%Z → Cli.have_confint p = true →
  NoDup estimates → length vs = length estimates →
  estimates !! j = Some (Cli.str_of (at_ r "estimate")) →
  vs !! j = Some (at_ r "frac") →
  let names :=
    series_key ++ ((λ e, Cli.export_name p (Cli.Multi "frac" e)) <$> estimates) in
  let r1 := Row l (list_to_map (zip names (group_key r ++ vs))) in
  Cli.key_of series_key r1 = group_key r
  ∧ at_ r1 (Cli.export_name p (Cli.Multi "frac" (Cli.str_of (at_ r "estimate"))))
    = at_ r "frac".
Proof.
  intros Hb Hc Hnd Hlen Hj Hv names r1. split.
  - unfold Cli.key_of, series_key, group_key, at_. subst r1 names. cbn [cells].
    cbn [fmap list_fmap].
    rewrite (lookup_zip_first _ _ 0 "location" (at_ r "location"));
      [|done|intros; lia|done].
    rewrite (lookup_zip_first _ _ 1 "variant" (at_ r "variant"));
      [|done| |done].
    2:{ intros [|j'] Hj'; [done|lia]. }
    rewrite (lookup_zip_first _ _ 2 "date" (label r)); [done|done| |done].
    intros [|[|j']] Hj'; [done|done|lia].
  - unfold at_ at 1. subst r1. cbn [cells].
    rewrite (lookup_zip_first _ _ (3 + j) _ (at_ r "frac")); [done| | |].
    + subst names. rewrite lookup_app_r by (cbn; lia).
      cbn [length series_key]. rewrite Nat.add_comm, Nat.add_sub.
      by rewrite list_lookup_fmap, Hj.
    + intros j' Hj' Hname. subst names.
      destruct (decide (j' < 3)) as [Hlt|Hge].
      * rewrite lookup_app_l in Hname by (cbn; lia).
        apply list_elem_of_lookup_2 in Hname.
        by apply (export_name_confint_fresh _ _ Hb Hc) in Hname.
      * rewrite lookup_app_r in Hname by (cbn; lia).
        cbn [length series_key] in Hname. rewrite list_lookup_fmap in Hname.
        destruct (estimates !! (j' - 3)) as [e'|] eqn:He'; [|discriminate].
        injection Hname as Hname.
        apply (export_name_confint_inj _ _ _ Hb Hc) in Hname. subst e'.
        assert (j' - 3 = j) by (by eapply NoDup_lookup). lia.
    + rewrite lookup_app_r by (cbn; lia). cbn [length group_key].
      by rewrite Nat.add_comm, Nat.add_sub.
Qed.

(** With a confidence estimator every row of the long frame is found again in
    the aggregated frame, under its location, variant and date and in the
    column of its estimate: unchanged outside the two bounds, and missing when
    it was missing. *)
Lemma aggregate_confint p flat out :
  ¬ (1 < Cli.bootstrap p)%Z → Cli.have_confint p = true →
  Cli.aggregate np_exp p flat = Ok out →
  ∀ r, r ∈ rows flat →
    ∃ r', r' ∈ rows out ∧ Cli.key_of series_key r' = group_key r ∧
      let n := Cli.export_name p (Cli.Multi "frac" (Cli.str_of (at_ r "estimate"))) in
      (at_ r "frac" = NaN → at_ r' n = NaN)
      ∧ (n ≠ "proportionLower" → n ≠ "proportionUpper" → at_ r' n = at_ r "frac").
Proof.
  intros Hb Hc H r Hr. unfold Cli.aggregate in H.
  rewrite (bool_decide_eq_false_2 _ Hb), Hc in H.
  apply bind_ok in H as (agg & Hagg & H).
  apply pivot_estimate_ok in Hagg
    as (estimates & keys & Hnde & Hndk & Hkeys & Hcols & Hrows).
  rewrite Hcols, (export_names_confint _ _ Hb Hc) in H.
  apply bind_ok in H as (sorted & Hsort & H).
  apply sort_values_ok in Hsort as (_ & Hperm & _). rewrite rows_named in Hperm.
  apply reverse_logit_ok in H.
  assert (group_key r ∈ keys) as Hk.
  { apply Hkeys. apply list_elem_of_fmap. by exists r. }
  apply list_elem_of_lookup in Hk as [i Hi].
  destruct (Forall2_lookup_l _ _ _ _ _ Hrows Hi) as (cs & Hcs & vs & -> & Hlen & Hvs).
  destruct (Hvs r Hr eq_refl) as (j & Hj & Hv).
  set (names := series_key
                ++ ((λ e, Cli.export_name p (Cli.Multi "frac" e)) <$> estimates)) in *.
  set (r1 := Row (Num (qc_of_nat i)) (list_to_map (zip names (group_key r ++ vs)))).
  assert (r1 ∈ rows sorted) as Hr1.
  { rewrite Hperm. apply list_elem_of_lookup. exists i.
    by rewrite list_lookup_imap, Hcs. }
  apply list_elem_of_lookup in Hr1 as [i' Hi'].
  destruct (Forall2_lookup_l _ _ _ _ _ H Hi') as (r' & Hr' & _ & Hkeep & Hnan).
  destruct (named_confint_row p estimates (Num (qc_of_nat i)) r vs j
              Hb Hc Hnde Hlen Hj Hv) as [Hkey Hval].
  fold names in Hkey, Hval. fold r1 in Hkey, Hval.
  exists r'. split; [by eapply list_elem_of_lookup_2|]. split.
  - rewrite <-Hkey. unfold Cli.key_of, series_key. cbn [fmap list_fmap].
    by rewrite !Hkeep by done.
  - cbn zeta. split.
    + intros Hmiss. apply Hnan. by rewrite Hval.
    + intros Hl Hu. by rewrite Hkeep, Hval.
Qed.

Lemma export_name_MSE p :
  ¬ (1 < Cli.bootstrap p)%Z → Cli.have_confint p = true →
  Cli.export_name p (Cli.Multi "frac" "MSE") = "proportion".
Proof. intros Hb Hc. by rewrite export_name_confint. Qed.

(** With a confidence estimator the long frame holds the values of the
    concatenated results as they are. *)
Lemma long_form_confint p variants_list all_deconv flat :
  Cli.have_confint p = true →
  Cli.long_form p variants_list all_deconv = Ok flat →
  let value_vars :=
    set_inter_list variants_list (columns (concat all_deconv)) ++ ["undetermined"] in
  ∀ v r0, v ∈ value_vars → r0 ∈ rows (concat all_deconv) →
    ∃ r, r ∈ rows flat
      ∧ label r = label r0 ∧ at_ r "variant" = Str v
      ∧ at_ r "location" = at_ r0 "location"
      ∧ at_ r "estimate" = at_ r0 "estimate"
      ∧ at_ r "frac" = at_ r0 v.
Proof.
  intros Hc H value_vars v r0 Hv Hr0. unfold Cli.long_form in H. rewrite Hc in H.
  apply bind_ok in H as (df & Hdf & H). apply concat_results_confint in Hdf as ->.
  fold value_vars in H. apply melt_ok in H as [_ Hrows].
  eexists. split; [apply Hrows; by exists v, r0|].
  rewrite melt_row_label, melt_row_variant, melt_row_frac.
  rewrite !melt_row_id by (done || set_solver). done.
Qed.

End ConfintAggregate.

Section JsonTextFacts.

Lemma string_app_cons x (a b : string) : String x a +:+ b = String x (a +:+ b).
Proof. reflexivity. Qed.

Lemma string_app_nil_l (b : string) : "" +:+ b = b.
Proof. reflexivity. Qed.

Lemma string_app_assoc (a b c : string) : (a +:+ b) +:+ c = a +:+ (b +:+ c).
Proof. induction a as [|x a IH]; [done|]. rewrite !string_app_cons. by f_equal. Qed.

Lemma string_app_nil_r (a : string) : a +:+ "" = a.
Proof. induction a as [|x a IH]; [done|]. rewrite string_app_cons. by f_equal. Qed.

Lemma within_refl x : within x x.
Proof. exists "", "". by rewrite string_app_nil_l, string_app_nil_r. Qed.

Lemma within_app x y a b : within x y → within x (a +:+ y +:+ b).
Proof.
  intros (a' & b' & ->). exists (a +:+ a'), (b' +:+ b).
  by rewrite !string_app_assoc.
Qed.

Lemma within_trans x y z : within x y → within y z → within x z.
Proof. intros Hxy (a & b & ->). by apply within_app. Qed.

Lemma within_join sep l x : x ∈ l → within x (Cli.join sep l).
Proof.
  induction l as [|y l IH]; intros Hx; [by apply elem_of_nil in Hx|].
  destruct l as [|z l].
  - apply list_elem_of_singleton in Hx as ->. apply within_refl.
  - change (Cli.join sep (y :: z :: l)) with (y +:+ sep +:+ Cli.join sep (z :: l)).
    apply elem_of_cons in Hx as [->|Hx].
    + exists "", (sep +:+ Cli.join sep (z :: l)). reflexivity.
    + destruct (IH Hx) as (a & b & ->). exists (y +:+ sep +:+ a), b.
      by rewrite !string_app_assoc.
Qed.

Lemma within_dumps_dict items k v :
  (k, v) ∈ items → within (k +:+ ": " +:+ v) (Cli.dumps_dict items).
Proof.
  intros Hin. unfold Cli.dumps_dict. apply within_app, within_join.
  apply list_elem_of_fmap. by exists (k, v).
Qed.

Lemma within_dumps_list items x : x ∈ items → within x (Cli.dumps_list items).
Proof. intros Hin. unfold Cli.dumps_list. by apply within_app, within_join. Qed.

Lemma within_value k v s : within (k +:+ ": " +:+ v) s → within v s.
Proof.
  apply within_trans. exists (k +:+ ": "), "".
  by rewrite string_app_nil_r, string_app_assoc.
Qed.

(** ** The replacement of [NaN] *)

Lemma replace_cons_other c s :
  c ≠ "N"%char →
  Cli.replace_NaN_null (String c s) = String c (Cli.replace_NaN_null s).
Proof.
  intros Hc. cbn [Cli.replace_NaN_null]. destruct s as [|c2 [|c3 s]]; try done.
  unfold Cli.is_NaN. by rewrite (bool_decide_eq_false_2 _ Hc).
Qed.

Lemma replace_NaN_prefix s :
  Cli.replace_NaN_null ("NaN" +:+ s) = "null" +:+ Cli.replace_NaN_null s.
Proof. reflexivity. Qed.

(** A character that is neither [N] nor [a] splits the text for the
    replacement. *)
Lemma replace_app_sep a c b :
  c ≠ "N"%char → c ≠ "a"%char →
  Cli.replace_NaN_null (a +:+ String c b)
  = Cli.replace_NaN_null a +:+ String c (Cli.replace_NaN_null b).
Proof.
  intros HN Ha.
  enough (∀ n a, String.length a ≤ n →
            Cli.replace_NaN_null (a +:+ String c b)
            = Cli.replace_NaN_null a +:+ String c (Cli.replace_NaN_null b)) as Hn
    by (by apply (Hn (String.length a))).
  clear a. induction n as [|n IH]; intros a Hlen.
  - destruct a; [|cbn in Hlen; lia]. rewrite string_app_nil_l.
    by apply replace_cons_other.
  - destruct a as [|c1 [|c2 [|c3 a]]].
    + rewrite string_app_nil_l. by apply replace_cons_other.
    + rewrite string_app_cons, string_app_nil_l.
      change (Cli.replace_NaN_null (String c1 "")) with (String c1 "").
      rewrite string_app_cons, string_app_nil_l.
      destruct b as [|c3 b]; [reflexivity|].
      change (Cli.replace_NaN_null (String c1 (String c (String c3 b))))
        with (if Cli.is_NaN c1 c c3
              then "null" +:+ Cli.replace_NaN_null b
              else String c1 (Cli.replace_NaN_null (String c (String c3 b)))).
      unfold Cli.is_NaN. rewrite (bool_decide_eq_false_2 (c = "a"%char)) by done.
      rewrite andb_false_r. cbn [andb]. by rewrite replace_cons_other.
    + change (Cli.replace_NaN_null (String c1 (String c2 "") +:+ String c b))
        with (if Cli.is_NaN c1 c2 c
              then "null" +:+ Cli.replace_NaN_null b
              else String c1 (Cli.replace_NaN_null (String c2 "" +:+ String c b))).
      unfold Cli.is_NaN. rewrite (bool_decide_eq_false_2 (c = "N"%char)) by done.
      rewrite andb_false_r.
      rewrite (IH (String c2 "")) by (cbn in *; lia). reflexivity.
    + change (Cli.replace_NaN_null (String c1 (String c2 (String c3 a)) +:+ String c b))
        with (if Cli.is_NaN c1 c2 c3
              then "null" +:+ Cli.replace_NaN_null (a +:+ String c b)
              else String c1 (Cli.replace_NaN_null
                                (String c2 (String c3 a) +:+ String c b))).
      change (Cli.replace_NaN_null (String c1 (String c2 (String c3 a))))
        with (if Cli.is_NaN c1 c2 c3
              then "null" +:+ Cli.replace_NaN_null a
              else String c1 (Cli.replace_NaN_null (String c2 (String c3 a)))).
      destruct (Cli.is_NaN c1 c2 c3).
      * rewrite (IH a) by (cbn in *; lia). reflexivity.
      * rewrite (IH (String c2 (String c3 a))) by (cbn in *; lia). reflexivity.
Qed.

(** A missing value after a colon is written [null], wherever it stands. *)
Lemma replace_nan_field a b :
  Cli.replace_NaN_null (a +:+ ": NaN" +:+ b)
  = Cli.replace_NaN_null (a +:+ ":") +:+ " null" +:+ Cli.replace_NaN_null b.
Proof.
  change (": NaN" +:+ b) with (":" +:+ String " " ("NaN" +:+ b)).
  rewrite <-string_app_assoc. rewrite replace_app_sep by done.
  by rewrite replace_NaN_prefix.
Qed.

End JsonTextFacts.

Section JsonDocumentFacts.

Variable astype_str : cell → string.
Variable float_repr : Qc → string.
Variable json_quote : string → string.

Lemma within_dict_value items k v : (k, v) ∈ items → within v (Cli.dumps_dict items).
Proof. intros Hin. eapply within_value. by apply within_dumps_dict. Qed.

Lemma dumps_record_nan (rec : dict string cell) k s :
  Cli.dumps_record float_repr json_quote rec = Ok s → (k, NaN) ∈ rec →
  within (json_quote k +:+ ": NaN") s.
Proof.
  unfold Cli.dumps_record. intros H Hin. apply bind_ok in H as (items & Hitems & H).
  injection H as <-. apply map_m_ok in Hitems.
  apply list_elem_of_lookup in Hin as [i Hi].
  destruct (Forall2_lookup_l _ _ _ _ _ Hitems Hi) as (item & Hitem & Hkv).
  cbn in Hkv. injection Hkv as <-.
  apply (within_dumps_dict _ (json_quote k) "NaN").
  by eapply list_elem_of_lookup_2.
Qed.

(** What is written in a record is written in the document. *)
Lemma json_dumps_within (d : Cli.update_data) text loc per_var var recs rec s x :
  Cli.json_dumps float_repr json_quote d = Ok text →
  (loc, per_var) ∈ d → (var, recs) ∈ per_var → rec ∈ recs →
  Cli.dumps_record float_repr json_quote rec = Ok s → within x s →
  within x text.
Proof.
  unfold Cli.json_dumps. intros H Hd Hpv Hrec Hs Hx.
  apply bind_ok in H as (locs & Hlocs & H). injection H as <-.
  apply map_m_ok in Hlocs.
  apply list_elem_of_lookup in Hd as [i Hi].
  destruct (Forall2_lookup_l _ _ _ _ _ Hlocs Hi) as (item & Hitem & Hl).
  cbn beta in Hl. cbn [fst snd] in Hl.
  apply bind_ok in Hl as (kl & _ & Hl). apply bind_ok in Hl as (vars & Hvars & Hl).
  injection Hl as <-. apply map_m_ok in Hvars.
  apply list_elem_of_lookup in Hpv as [j Hj].
  destruct (Forall2_lookup_l _ _ _ _ _ Hvars Hj) as (vitem & Hvitem & Hv).
  cbn beta in Hv. cbn [fst snd] in Hv.
  apply bind_ok in Hv as (kv & _ & Hv). apply bind_ok in Hv as (texts & Htexts & Hv).
  injection Hv as <-. apply map_m_ok in Htexts.
  apply list_elem_of_lookup in Hrec as [n Hn].
  destruct (Forall2_lookup_l _ _ _ _ _ Htexts Hn) as (s' & Hs' & Hrec).
  rewrite Hs in Hrec. injection Hrec as <-.
  set (summary := Cli.dumps_dict [(json_quote "timeseriesSummary", Cli.dumps_list texts)])
    in *.
  assert (within s (Cli.dumps_list texts)) as H1.
  { apply within_dumps_list. by eapply list_elem_of_lookup_2. }
  assert (within (Cli.dumps_list texts) summary) as H2.
  { apply (within_dict_value _ (json_quote "timeseriesSummary")). left. }
  assert (within summary (Cli.dumps_dict vars)) as H3.
  { apply (within_dict_value _ kv). by eapply list_elem_of_lookup_2. }
  assert (within (Cli.dumps_dict vars) (Cli.dumps_dict locs)) as H4.
  { apply (within_dict_value _ kl). by eapply list_elem_of_lookup_2. }
  eauto using within_trans.
Qed.

Lemma json_dumps_records (d : Cli.update_data) text loc per_var var recs rec :
  Cli.json_dumps float_repr json_quote d = Ok text →
  (loc, per_var) ∈ d → (var, recs) ∈ per_var → rec ∈ recs →
  ∃ s, Cli.dumps_record float_repr json_quote rec = Ok s.
Proof.
  unfold Cli.json_dumps. intros H Hd Hpv Hrec.
  apply bind_ok in H as (locs & Hlocs & H). apply map_m_ok in Hlocs.
  apply list_elem_of_lookup in Hd as [i Hi].
  destruct (Forall2_lookup_l _ _ _ _ _ Hlocs Hi) as (item & Hitem & Hl).
  cbn beta in Hl. cbn [fst snd] in Hl.
  apply bind_ok in Hl as (kl & _ & Hl). apply bind_ok in Hl as (vars & Hvars & Hl).
  apply map_m_ok in Hvars.
  apply list_elem_of_lookup in Hpv as [j Hj].
  destruct (Forall2_lookup_l _ _ _ _ _ Hvars Hj) as (vitem & Hvitem & Hv).
  cbn beta in Hv. cbn [fst snd] in Hv.
  apply bind_ok in Hv as (kv & _ & Hv). apply bind_ok in Hv as (texts & Htexts & Hv).
  apply map_m_ok in Htexts.
  apply list_elem_of_lookup in Hrec as [n Hn].
  destruct (Forall2_lookup_l _ _ _ _ _ Htexts Hn) as (s' & Hs' & Hrec). eauto.
Qed.

(** A missing value of the aggregated frame, under a column the document
    reports, is in a record of the document. *)
Lemma build_update_data_nan p no_date agg (d : Cli.update_data) r c :
  Cli.build_update_data astype_str p no_date agg = Ok d →
  r ∈ rows agg → c ∈ Cli.json_columns p no_date → c ≠ "date" → at_ r c = NaN →
  ∃ loc per_var var recs rec,
    (loc, per_var) ∈ d ∧ (var, recs) ∈ per_var ∧ rec ∈ recs ∧ (c, NaN) ∈ rec.
Proof.
  unfold Cli.build_update_data. intros H Hr Hc Hdate Hnan.
  apply bind_ok in H as (loc_uniq & Hloc & H).
  apply bind_ok in H as (var_uniq & Hvar & H).
  apply map_m_ok in H.
  assert (at_ r "location" ∈ loc_uniq) as Hl.
  { unfold Lollipop.column in Hloc. destruct (require_column agg "location");
      cbn in Hloc; [|discriminate]. injection Hloc as <-.
    apply elem_of_unique, list_elem_of_fmap. by exists r. }
  assert (at_ r "variant" ∈ var_uniq) as Hv.
  { unfold Lollipop.column in Hvar. destruct (require_column agg "variant");
      cbn in Hvar; [|discriminate]. injection Hvar as <-.
    apply elem_of_unique, list_elem_of_fmap. by exists r. }
  apply list_elem_of_lookup in Hl as [i Hi].
  destruct (Forall2_lookup_l _ _ _ _ _ H Hi) as ([loc per_var] & Hd & Hlv).
  cbn beta in Hlv. apply bind_ok in Hlv as (pv & Hpv & Hlv).
  injection Hlv as <- <-. apply map_m_ok in Hpv.
  apply list_elem_of_lookup in Hv as [j Hj].
  destruct (Forall2_lookup_l _ _ _ _ _ Hpv Hj) as ([var recs] & Hpvj & Hvr).
  cbn beta in Hvr. apply bind_ok in Hvr as (us & _ & Hvr).
  injection Hvr as <- <-.
  eexists _, _, _, _, _.
  split; [by eapply list_elem_of_lookup_2|].
  split; [by eapply list_elem_of_lookup_2|].
  set (shown := λ r0 : row,
         if negb no_date
         then set_cell "date" (Str (astype_str (at_ r0 "date")))
                (reindex (Cli.json_columns p no_date) r0)
         else reindex (Cli.json_columns p no_date) r0).
  assert (at_ (shown r) c = NaN) as Hshown.
  { unfold shown. destruct no_date; cbn [negb].
    - by rewrite at_reindex.
    - rewrite at_set_cell_ne by done. by rewrite at_reindex. }
  split.
  - apply list_elem_of_fmap. exists (shown r). split; [reflexivity|].
    unfold shown. destruct no_date; cbn [negb]; apply list_elem_of_fmap;
      exists r; (split; [reflexivity|]); by apply list_elem_of_filter.
  - apply list_elem_of_fmap. exists c. split; [|done].
    f_equal. symmetry. exact Hshown.
Qed.

(** A missing value of the aggregated frame is written [null] in the text of
    the JSON file. *)
Lemma json_output_null p no_date agg text r c :
  Cli.json_output astype_str float_repr json_quote p no_date agg = Ok text →
  r ∈ rows agg → c ∈ Cli.json_columns p no_date → c ≠ "date" → at_ r c = NaN →
  ∃ a b,
    text = Cli.replace_NaN_null (a +:+ json_quote c +:+ ":")
           +:+ " null" +:+ Cli.replace_NaN_null b.
Proof.
  unfold Cli.json_output. intros H Hr Hc Hdate Hnan.
  apply bind_ok in H as (d & Hd & H). apply bind_ok in H as (raw & Hraw & H).
  injection H as <-.
  destruct (build_update_data_nan _ _ _ _ _ _ Hd Hr Hc Hdate Hnan)
    as (loc & per_var & var & recs & rec & Hloc & Hvar & Hrec & Hfield).
  destruct (json_dumps_records _ _ _ _ _ _ _ Hraw Hloc Hvar Hrec) as [s Hs].
  destruct (json_dumps_within _ _ _ _ _ _ _ _ _ Hraw Hloc Hvar Hrec Hs
              (dumps_record_nan _ _ _ Hs Hfield)) as (a & b & ->).
  exists a, b. rewrite <-(string_app_assoc a (json_quote c) ":").
  rewrite <-replace_nan_field. by rewrite !string_app_assoc.
Qed.

End JsonDocumentFacts.

Section MissingEstimatesClaim.

Variable np_exp : Qc → Qc.
Variable astype_str : cell → string.
Variable float_repr : Qc → string.
Variable json_quote : string → string.

Lemma fillna_zero_not_nan c : Cli.fillna_zero c ≠ NaN.
Proof. by destruct c. Qed.

Lemma fillna_zero_cases c :
  Cli.fillna_zero c = match c with NaN => Num 0%Qc | x => x end.
Proof. by destruct c. Qed.

(** C10. Without a confidence estimator the values of the concatenated
    results enter the long frame with 0 in the place of every missing value,
    and without bootstrap they are what the aggregated frame shows as
    [proportion]: 0 where the estimate was missing.  With a confidence
    estimator a missing value of the concatenated results is still missing in
    the aggregated frame, in the column of its estimate, and a missing value
    of the aggregated frame is written [null] in the text of the JSON file. *)
Theorem missing_estimates_zero_or_null (p : Cli.params) (variants_list : list string)
    (all_deconv : list table) :
  let results := concat all_deconv in
  let value_vars :=
    set_inter_list variants_list (columns results) ++ ["undetermined"] in
  (Cli.have_confint p = false →
     (∀ flat, Cli.long_form p variants_list all_deconv = Ok flat →
        ∀ r, r ∈ rows flat →
          ∃ v r0, v ∈ value_vars ∧ r0 ∈ rows results ∧ label r = label r0
            ∧ at_ r "variant" = Str v
            ∧ at_ r "frac" = match at_ r0 v with NaN => Num 0%Qc | x => x end)
     ∧ (¬ (1 < Cli.bootstrap p)%Z →
        ∀ out, Cli.post_process np_exp p variants_list all_deconv = Ok out →
          (∀ r', r' ∈ rows out → at_ r' "proportion" ≠ NaN)
          ∧ ∀ v r0, v ∈ value_vars → r0 ∈ rows results →
              ∃ r', r' ∈ rows out ∧ at_ r' "variant" = Str v
                ∧ at_ r' "date" = label r0
                ∧ at_ r' "proportion"
                  = match at_ r0 v with NaN => Num 0%Qc | x => x end))
  ∧ (Cli.have_confint p = true → ¬ (1 < Cli.bootstrap p)%Z →
     ∀ out, Cli.post_process np_exp p variants_list all_deconv = Ok out →
       ∀ v r0, v ∈ value_vars → r0 ∈ rows results → at_ r0 v = NaN →
         ∃ r', r' ∈ rows out
           ∧ Cli.key_of series_key r' = [at_ r0 "location"; Str v; label r0]
           ∧ at_ r' (Cli.export_name p
                       (Cli.Multi "frac" (Cli.str_of (at_ r0 "estimate"))))
             = NaN)
  ∧ (∀ no_date deconv_df_agg text,
       Cli.json_output astype_str float_repr json_quote p no_date deconv_df_agg
       = Ok text →
       ∀ r c, r ∈ rows deconv_df_agg → c ∈ Cli.json_columns p no_date →
         c ≠ "date" → at_ r c = NaN →
         ∃ a b, text = Cli.replace_NaN_null (a +:+ json_quote c +:+ ":")
                       +:+ " null" +:+ Cli.replace_NaN_null b).
Proof.
  intros results value_vars. split; [|split].
  - intros Hc. split.
    + intros flat Hflat r Hr.
      destruct (long_form_plain p _ _ _ Hc Hflat) as [Hrows _].
      destruct (Hrows r Hr) as (v & r0 & Hv & Hr0 & Hl & Hvar & _ & Hfrac).
      exists v, r0. repeat (split; [done|]). rewrite Hfrac.
      by destruct (at_ r0 v).
    + intros Hb out Hout. unfold Cli.post_process in Hout.
      apply bind_ok in Hout as (flat & Hflat & Hout).
      destruct (long_form_plain p _ _ _ Hc Hflat) as [Hrows Hall].
      destruct (aggregate_plain np_exp p _ _ Hb Hc Hout) as [Hto Hfrom]. split.
      * intros r' Hr'. destruct (Hfrom r' Hr') as (r & Hr & _ & _ & _ & ->).
        destruct (Hrows r Hr) as (v & r0 & _ & _ & _ & _ & _ & ->).
        apply fillna_zero_not_nan.
      * intros v r0 Hv Hr0.
        destruct (Hall v r0 Hv Hr0) as (r & Hr & Hl & Hvar & _ & Hfrac).
        destruct (Hto r Hr) as (r' & Hr' & _ & Hv' & Hd' & Hp').
        exists r'. split; [done|]. rewrite Hv', Hd', Hp', Hvar, Hl, Hfrac.
        repeat (split; [done|]). by destruct (at_ r0 v).
  - intros Hc Hb out Hout v r0 Hv Hr0 Hnan. unfold Cli.post_process in Hout.
    apply bind_ok in Hout as (flat & Hflat & Hout).
    destruct (long_form_confint p _ _ _ Hc Hflat v r0 Hv Hr0)
      as (r & Hr & Hl & Hvar & Hloc & Hest & Hfrac).
    destruct (aggregate_confint np_exp p _ _ Hb Hc Hout r Hr)
      as (r' & Hr' & Hkey & Hmiss & _).
    exists r'. split; [done|]. split.
    + rewrite Hkey. unfold group_key. by rewrite Hloc, Hvar, Hl.
    + rewrite <-Hest. apply Hmiss. by rewrite Hfrac.
  - intros no_date agg text Htext r c Hr Hc Hdate Hnan.
    by eapply json_output_null.
Qed.

End MissingEstimatesClaim.

(** * The statements at concrete inputs *)

Section Instances.
Import Lollipop.

Lemma complement_rows_paired_witness :
  ∃ out originals,
    Preprocessors.general_preprocess example_astype_str example_to_datetime
      example_args example_tally = Ok out
    ∧ Preprocessors.general_preprocess example_astype_str example_to_datetime
        (without_complement example_args) example_tally = Ok originals
    ∧ length (rows out) = 2 * length (rows originals).
Proof.
  destruct (Preprocessors.general_preprocess example_astype_str example_to_datetime
              example_args example_tally) as [out|e] eqn:Hout;
    [|vm_compute in Hout; discriminate].
  destruct (complement_rows_paired example_astype_str example_to_datetime
              example_args example_tally out eq_refl) as (originals & Ho & Hlen & _).
  - by_evaluation.
  - exact Hout.
  - exists out, originals. split; [reflexivity|]. split; [exact Ho | exact Hlen].
Defined.

(** On the example the table comes out with two observations and their two
    complements: the fracs 0.8 and 0.5 are mirrored to 0.2 and 0.5, the
    indicators of Alpha and Delta are swapped. *)
Example complement_rows_example :
  (out ← Preprocessors.general_preprocess example_astype_str example_to_datetime
           example_args example_tally;
   Ok ((λ r, [at_ r "mutations"; at_ r "frac"; at_ r "Alpha"; at_ r "Delta";
              at_ r "undetermined"]) <$> rows out))
  = Ok [[Str "100A"; Num (Q2Qc (8 # 10)); Num 1%Qc; Num 0%Qc; Num 0%Qc];
        [Str "100G"; Num (Q2Qc (1 # 2)); Num 0%Qc; Num 1%Qc; Num 0%Qc];
        [Str "-100A"; Num (Q2Qc (2 # 10)); Num 0%Qc; Num 1%Qc; Num 1%Qc];
        [Str "-100G"; Num (Q2Qc (1 # 2)); Num 1%Qc; Num 0%Qc; Num 1%Qc]].
Proof. by_evaluation. Qed.

Lemma recode_every_column_witness :
  ∃ out t,
    Preprocessors.general_preprocess example_astype_str example_to_datetime
      example_args example_tally = Ok out
    ∧ Preprocessors.before_recode example_astype_str example_to_datetime
        example_args example_tally = Ok t
    ∧ Preprocessors.after_recode example_args (Preprocessors.recode t) = Ok out
    ∧ length (rows (Preprocessors.recode t)) = length (rows t).
Proof.
  destruct (Preprocessors.general_preprocess example_astype_str example_to_datetime
              example_args example_tally) as [out|e] eqn:Hout;
    [|vm_compute in Hout; discriminate].
  destruct (recode_every_column example_astype_str example_to_datetime
              example_args example_tally out Hout) as (t & Ht & Hafter & _ & Hlen & _).
  exists out, t. split; [reflexivity|]. split; [exact Ht|].
  split; [exact Hafter | exact Hlen].
Defined.

(** On the example the pass reaches the location column: the location named
    [mut] has become 1. *)
Example recode_reaches_location :
  (t ← Preprocessors.before_recode example_astype_str example_to_datetime
         example_args example_tally;
   Ok ((λ r, at_ r "location") <$> rows t,
       (λ r, at_ r "location") <$> rows (Preprocessors.recode t)))
  = Ok ([Str "mut"; Str "ZH"; Str "ZH"], [Num 1%Qc; Str "ZH"; Str "ZH"]).
Proof. by_evaluation. Qed.

Lemma bootstrap_excludes_confint_witness :
  bootstrap_and_confint deconv_bootstrap_and_wald
  ∧ failed_before_any_call
      (Cli.deconvolute 0 (λ _, 0) idle_resampler idle_engine example_astype_str
         example_to_datetime (λ x, x) example_float_repr example_json_quote
         example_run).2
      (AssertionError exclusive_message).
Proof.
  assert (bootstrap_and_confint deconv_bootstrap_and_wald) as Hboth.
  { split; [reflexivity | discriminate]. }
  split; [exact Hboth|].
  destruct (bootstrap_excludes_confint 0 (λ _, 0) idle_resampler idle_engine
              example_astype_str example_to_datetime (λ x, x) example_float_repr
              example_json_quote deconv_bootstrap_and_wald) as [Hfail _].
  destruct (Hfail Hboth) as [Hcli _].
  destruct (Hcli example_run eq_refl) as [_ Hassert].
  apply Hassert. vm_compute. reflexivity.
Defined.

Lemma degenerate_slice_skipped_witness :
  Cli.window_body idle_engine plain_params false [(18900%Z, ["Alpha"; "Delta"])]
    (Str "ZH") window_all_active (18900%Z, None) (Driver 0 [] [])
  = (Ok tt, Driver 0 [] []).
Proof.
  apply (degenerate_slice_skipped idle_engine plain_params false
           [(18900%Z, ["Alpha"; "Delta"])] (Str "ZH") window_all_active
           window_all_active 18900%Z None (Driver 0 [] [])).
  - by_evaluation.
  - right. exists ["Alpha"; "Delta"]. split; [reflexivity|].
    intros r Hr. right. unfold window_all_active in Hr. cbn [rows] in Hr.
    apply elem_of_cons in Hr as [->|Hr]; [by_evaluation|].
    apply list_elem_of_singleton in Hr as ->. by_evaluation.
Defined.

Lemma location_fallback_witness :
  Cli.handle_location "variants_config.yaml" false (Some [Str "Zurich"; Str "Bern"])
    tally_without_location
  = ([Cli.error_no_location "variants_config.yaml"], Err (SystemExit 1))
  ∧ Cli.handle_location "variants_config.yaml" false (Some [Str "Zurich"])
      tally_without_location
    = ([Cli.warning_single_location],
       Ok (assign "location" (λ _, Str "Zurich") tally_without_location, false))
  ∧ Cli.handle_location "variants_config.yaml" false None tally_with_codes
    = ([Cli.note_location_codes],
       Ok (assign "location" (λ r, at_ r "location_code") tally_with_codes, false)).
Proof.
  split; [|split].
  - destruct (location_fallback "variants_config.yaml"
                (Some [Str "Zurich"; Str "Bern"]) tally_without_location eq_refl)
      as [_ Hnone].
    destruct (Hnone eq_refl _ eq_refl) as [_ Hmany]. apply Hmany. cbn. lia.
  - destruct (location_fallback "variants_config.yaml"
                (Some [Str "Zurich"]) tally_without_location eq_refl)
      as [_ Hnone].
    destruct (Hnone eq_refl _ eq_refl) as [Hone _]. by apply Hone.
  - destruct (location_fallback "variants_config.yaml" None tally_with_codes eq_refl)
      as [Hcodes _].
    by apply Hcodes.
Defined.

Lemma bootstrap_mean_and_percentiles_witness :
  ∃ out r',
    Cli.aggregate (λ x, x) bootstrap_params three_replicates = Ok out
    ∧ r' ∈ rows out
    ∧ Cli.key_of series_key r' = [Str "ZH"; Str "Alpha"; Date 18900]
    ∧ at_ r' "proportion" = Num (Q2Qc (4 # 10))
    ∧ at_ r' "proportionLower" = Num (Q2Qc (21 # 100))
    ∧ at_ r' "proportionUpper" = Num (Q2Qc (59 # 100)).
Proof.
  destruct (Cli.aggregate (λ x, x) bootstrap_params three_replicates)
    as [out|e] eqn:Hout; [|vm_compute in Hout; discriminate].
  destruct (bootstrap_mean_and_percentiles (λ x, x) bootstrap_params
              three_replicates out) as (_ & _ & Hgroups & Hrows);
    [reflexivity | reflexivity | exact Hout |].
  destruct (Hgroups (long_row (Q2Qc (2 # 10)))) as (r' & Hr' & Hkey);
    [left | reflexivity |].
  destruct (Hrows r' Hr') as (_ & Hmean & Hlower & Hupper).
  cbn zeta in Hmean, Hlower, Hupper. rewrite Hkey in Hmean, Hlower, Hupper.
  set (k := group_key (long_row (Q2Qc (2 # 10)))) in *.
  assert (Cli.mean (group_values three_replicates k) = Ok (Num (Q2Qc (4 # 10))))
    as Hm by by_evaluation.
  assert (Cli.np_quantile Cli.q025 (group_values three_replicates k)
          = Ok (Num (Q2Qc (21 # 100)))) as Hl by by_evaluation.
  assert (Cli.np_quantile Cli.q975 (group_values three_replicates k)
          = Ok (Num (Q2Qc (59 # 100)))) as Hu by by_evaluation.
  rewrite Hm in Hmean. rewrite Hl in Hlower. rewrite Hu in Hupper.
  exists out, r'. split; [reflexivity|]. split; [exact Hr'|]. split; [exact Hkey|].
  injection Hmean as Hmean. injection Hlower as Hlower. injection Hupper as Hupper.
  split; [symmetry; exact Hmean|]. split; symmetry; [exact Hlower | exact Hupper].
Defined.

Lemma suppressed_columns_and_keys_witness :
  ∃ out (d : Cli.update_data),
    Cli.csv_output plain_params true true true aggregated_no_loc = Ok out
    ∧ ("location" ∉ columns out) ∧ ("date" ∉ columns out)
    ∧ Cli.build_update_data example_astype_str plain_params true aggregated_no_loc
      = Ok d
    ∧ d.*1 = unique ((λ r, at_ r "location") <$> rows aggregated_no_loc).
Proof.
  destruct (suppressed_columns_and_keys example_astype_str plain_params true true true
              aggregated_no_loc) as [Hcsv Hjson].
  destruct (Cli.csv_output plain_params true true true aggregated_no_loc)
    as [out|e] eqn:Hout; [|vm_compute in Hout; discriminate].
  destruct (Cli.build_update_data example_astype_str plain_params true
              aggregated_no_loc) as [d|e] eqn:Hd; [|vm_compute in Hd; discriminate].
  destruct (Hcsv out eq_refl) as [Hloc Hdate].
  destruct (Hjson d eq_refl) as [Hkeys _].
  exists out, d. split; [reflexivity|].
  split; [by apply Hloc|]. split; [by apply Hdate|]. split; [reflexivity|].
  exact Hkeys.
Defined.

Lemma missing_estimates_zero_or_null_witness :
  (∃ out r',
     Cli.post_process (λ x, x) plain_params ["Alpha"; "Delta"] two_windows = Ok out
     ∧ r' ∈ rows out ∧ at_ r' "variant" = Str "Alpha" ∧ at_ r' "date" = Date 18990
     ∧ at_ r' "proportion" = Num 0%Qc)
  ∧ (∃ text a b,
       Cli.json_output example_astype_str example_float_repr example_json_quote
         wald_params false aggregated_missing_bound = Ok text
       ∧ text = Cli.replace_NaN_null (a +:+ "proportionLower" +:+ ":")
                +:+ " null" +:+ Cli.replace_NaN_null b).
Proof.
  split.
  - destruct (missing_estimates_zero_or_null (λ x, x) example_astype_str
                example_float_repr example_json_quote plain_params
                ["Alpha"; "Delta"] two_windows) as [Hplain _].
    destruct (Hplain eq_refl) as [_ Hout].
    destruct (Cli.post_process (λ x, x) plain_params ["Alpha"; "Delta"] two_windows)
      as [out|e] eqn:Hpp; [|vm_compute in Hpp; discriminate].
    destruct (Hout ltac:(by_evaluation) out eq_refl) as [_ Hzero].
    set (r0 := reindex ["Alpha"; "undetermined"; "location"; "Delta"]
                 (fitted_row 18990 [("Alpha", NaN); ("Delta", Num (Q2Qc (9 # 10)));
                                    ("undetermined", Num (Q2Qc (1 # 10)))])).
    destruct (Hzero "Alpha" r0) as (r' & Hr' & Hvar & Hdate & Hprop);
      [by_evaluation | by_evaluation |].
    exists out, r'. split; [reflexivity|]. split; [exact Hr'|].
    split; [exact Hvar|]. split; [exact Hdate|]. exact Hprop.
  - destruct (missing_estimates_zero_or_null (λ x, x) example_astype_str
                example_float_repr example_json_quote wald_params
                [] []) as (_ & _ & Hjson).
    destruct (Cli.json_output example_astype_str example_float_repr example_json_quote
                wald_params false aggregated_missing_bound) as [text|e] eqn:Htext;
      [|vm_compute in Htext; discriminate].
    destruct (Hjson false aggregated_missing_bound text Htext
                (example_row 0 [("location", Str "ZH"); ("variant", Str "Alpha");
                                ("date", Date 18901); ("proportion", Num (Q2Qc (1 # 2)));
                                ("proportionLower", NaN);
                                ("proportionUpper", Num (Q2Qc (1 # 2)))])
                "proportionLower") as (a & b & Hab);
      [left | by_evaluation | discriminate | reflexivity |].
    exists text, a, b. split; [reflexivity|]. exact Hab.
Defined.

(** On the frame with the missing lower bound the text of the JSON file reads
    [null] where the bound is. *)
Example json_null_example :
  Cli.json_output example_astype_str example_float_repr example_json_quote
    wald_params false aggregated_missing_bound
  = Ok "{ZH: {Alpha: {timeseriesSummary: [{date: 2021-10-01, proportion: 0.5, proportionLower: null, proportionUpper: 0.5}]}}}".
Proof. by_evaluation. Qed.

End Instances.

(** * The preprocessing, row by row *)

Section PreprocessorRows.
Import Preprocessors.

Variable astype_str : cell → string.
Variable to_datetime : cell → result cell.

Lemma size_list_to_set_le (l : list string) :
  size (list_to_set l : gset string) ≤ length l.
Proof.
  induction l as [|x l IH]; [by rewrite list_to_set_nil, size_empty|].
  rewrite list_to_set_cons. cbn [length].
  destruct (decide (x ∈ l)) as [Hin|Hout].
  - replace ({[x]} ∪ list_to_set l : gset string)
      with (list_to_set l : gset string) by set_solver.
    lia.
  - rewrite size_union by set_solver. rewrite size_singleton. lia.
Qed.

Lemma length_size_NoDup (l : list string) :
  length l = size (list_to_set l : gset string) ↔ NoDup l.
Proof.
  split; [|intros H; by rewrite size_list_to_set].
  induction l as [|x l IH]; [constructor|].
  rewrite list_to_set_cons. cbn [length]. intros H.
  destruct (decide (x ∈ l)) as [Hin|Hout].
  - exfalso.
    replace ({[x]} ∪ list_to_set l : gset string)
      with (list_to_set l : gset string) in H by set_solver.
    pose proof (size_list_to_set_le l). lia.
  - rewrite size_union in H by set_solver. rewrite size_singleton in H.
    constructor; [done|]. apply IH. lia.
Qed.

Lemma elem_of_rows_select p t r : r ∈ rows (select p t) ↔ r ∈ rows t ∧ p r = true.
Proof. unfold select. cbn [rows]. rewrite list_elem_of_filter. tauto. Qed.

Lemma at_cells r r' c : cells r = cells r' → at_ r c = at_ r' c.
Proof. unfold at_. by intros ->. Qed.

Lemma drop_tagged_columns td df v : columns (drop_tagged td df v) = columns df.
Proof.
  unfold drop_tagged. destruct (has_column df v); [|done].
  by destruct (existsb _ _).
Qed.

Lemma drop_tagged_rows td df v r :
  r ∈ rows (drop_tagged td df v) →
  r ∈ rows df ∧ (v ∈ columns df → isin_str td (at_ r v) = false).
Proof.
  unfold drop_tagged. destruct (has_column df v) eqn:Hc.
  - destruct (existsb _ _) eqn:He.
    + rewrite elem_of_rows_select. intros [Hr Hm]. split; [done|].
      intros _. by apply negb_true_iff in Hm.
    + intros Hr. split; [done|]. intros _.
      destruct (isin_str td (at_ r v)) eqn:Hm; [|done].
      assert (existsb (λ r, isin_str td (at_ r v)) (rows df) = true) as Hex;
        [|congruence].
      apply existsb_exists. exists r. split; [by apply list_elem_of_In | done].
  - intros Hr. split; [done|]. intros Hv. apply has_column_true in Hv. congruence.
Qed.

(** The loop of lines 87-91 only removes rows, and leaves none that carries a
    tag to drop under a variant column. *)
Lemma foldl_drop_tagged td vl df :
  columns (foldl (drop_tagged td) df vl) = columns df ∧
  ∀ r, r ∈ rows (foldl (drop_tagged td) df vl) →
    r ∈ rows df ∧ ∀ v, v ∈ vl → v ∈ columns df → isin_str td (at_ r v) = false.
Proof.
  revert df. induction vl as [|v vl IH]; intros df; simpl.
  - split; [done|]. intros r Hr. split; [done|]. intros v Hv.
    by apply elem_of_nil in Hv.
  - destruct (IH (drop_tagged td df v)) as [Hc Hr].
    split; [by rewrite Hc, drop_tagged_columns|].
    intros r Hin. destruct (Hr r Hin) as [Hin' Hv'].
    apply drop_tagged_rows in Hin' as [Hin0 Hv0].
    split; [done|]. intros v' Hv'' Hcol.
    apply elem_of_cons in Hv'' as [-> | Hv'']; [auto|].
    apply Hv'; [done|]. by rewrite drop_tagged_columns.
Qed.

Lemma rows_reset_index_drop t r :
  r ∈ rows (reset_index_drop t) → ∃ r', r' ∈ rows t ∧ cells r = cells r'.
Proof.
  unfold reset_index_drop. cbn [rows]. intros H.
  apply list_elem_of_lookup in H as [i Hi].
  rewrite list_lookup_imap in Hi.
  destruct (rows t !! i) as [r'|] eqn:Hr'; [|done].
  simpl in Hi. injection Hi as <-. exists r'.
  split; [by eapply list_elem_of_lookup_2 | done].
Qed.

Lemma date_filtered_rows a df :
  columns (date_filtered a df) = columns df ∧
  ∀ r, r ∈ rows (date_filtered a df) →
    r ∈ rows df ∧
    (no_date a = false → ∀ d, start_date a = Some d → date_ge (at_ r "date") d = true) ∧
    (no_date a = false → ∀ d, end_date a = Some d → date_lt (at_ r "date") d = true).
Proof.
  unfold date_filtered.
  destruct (no_date a); [split; [done|]; intros r Hr; by repeat split|].
  destruct (start_date a) as [d1|], (end_date a) as [d2|]; cbn zeta;
    (split; [done|]); intros r Hr; rewrite ?elem_of_rows_select in Hr.
  - destruct Hr as [[Hr H1] H2]. split; [done|]. split; intros _ d [= <-]; done.
  - destruct Hr as [Hr H1]. split; [done|]. split; intros _ d [= <-]; done.
  - destruct Hr as [Hr H2]. split; [done|]. split; intros _ d [= <-]; done.
  - split; [done|]. split; intros _ d [=].
Qed.

(** The rows that leave lines 37-93. *)
Lemma before_recode_rows a df t :
  before_recode astype_str to_datetime a df = Ok t →
  "date" ∈ columns t ∧
  ∀ r, r ∈ rows t →
    (no_date a = false → ∀ d, start_date a = Some d → date_ge (at_ r "date") d = true) ∧
    (no_date a = false → ∀ d, end_date a = Some d → date_lt (at_ r "date") d = true) ∧
    (remove_deletions a = true → "base" ∈ columns t → at_ r "base" ≠ Str "-") ∧
    (∀ v, v ∈ variants_list a → v ∈ columns t → isin_str (to_drop a) (at_ r v) = false).
Proof.
  unfold before_recode. intros H.
  apply bind_ok in H as (? & _ & H).
  apply bind_ok in H as (df1 & _ & H).
  apply bind_ok in H as (df2 & _ & H).
  apply bind_ok in H as (? & Hdate & H).
  apply bind_ok in H as (df3 & Hdf3 & H).
  apply require_column_ok in Hdate.
  apply assign_m_ok in Hdf3 as [Hcols3 _].
  assert ("date" ∈ columns df3) as Hdate3.
  { rewrite Hcols3. destruct (has_column df2 "date"); [done|]. set_solver. }
  change (Ok (reset_index_drop
                (foldl (drop_tagged (to_drop a))
                   (if remove_deletions a && has_column (date_filtered a df3) "base"
                    then select (λ r, negb (bool_decide (at_ r "base" = Str "-")))
                           (date_filtered a df3)
                    else date_filtered a df3)
                   (variants_list a))) = Ok t) in H.
  injection H as <-.
  destruct (date_filtered_rows a df3) as [HcA HrA].
  set (dfA := date_filtered a df3) in *.
  set (dfB := if remove_deletions a && has_column dfA "base"
              then select (λ r, negb (bool_decide (at_ r "base" = Str "-"))) dfA
              else dfA).
  assert (columns dfB = columns dfA) as HcB.
  { unfold dfB. by destruct (remove_deletions a && has_column dfA "base"). }
  assert (∀ r, r ∈ rows dfB →
            r ∈ rows dfA ∧
            (remove_deletions a = true → "base" ∈ columns dfA → at_ r "base" ≠ Str "-"))
    as HrB.
  { intros r. unfold dfB.
    destruct (remove_deletions a) eqn:Hrd; simpl.
    - destruct (has_column dfA "base") eqn:Hb.
      + rewrite elem_of_rows_select. intros [Hr Hm]. split; [done|]. intros _ _.
        apply negb_true_iff in Hm. by apply bool_decide_eq_false in Hm.
      + intros Hr. split; [done|]. intros _ Hin. apply has_column_true in Hin.
        congruence.
    - intros Hr. split; [done|]. done. }
  destruct (foldl_drop_tagged (to_drop a) (variants_list a) dfB) as [HcC HrC].
  cbn [columns reset_index_drop]. rewrite HcC, HcB, HcA.
  split; [done|]. intros r Hr.
  apply rows_reset_index_drop in Hr as (r' & Hr' & Hcells).
  destruct (HrC r' Hr') as [HinB Htags].
  destruct (HrB r' HinB) as [HinA Hdel].
  destruct (HrA r' HinA) as (_ & Hstart & Hend).
  rewrite !(at_cells r r') by done.
  split; [done|]. split; [done|]. split.
  - intros Hrd Hb. apply Hdel; [done|]. by rewrite HcA.
  - intros v Hv Hc. rewrite (at_cells r r') by done. apply Htags; [done|].
    by rewrite HcB, HcA.
Qed.

Lemma informative_true cols r :
  informative cols r = Ok true →
  ∃ s, row_sum cols r = Ok s ∧ s ≠ 0%Qc ∧ s ≠ qc_of_nat (length cols).
Proof.
  unfold informative. intros H. apply bind_ok in H as (s & Hs & H).
  injection H as H. apply negb_true_iff, orb_false_iff in H as [H0 Hn].
  apply bool_decide_eq_false in H0, Hn. eauto.
Qed.

Lemma row_sum_ext cols r r' :
  (∀ c, c ∈ cols → at_ r c = at_ r' c) → row_sum cols r = row_sum cols r'.
Proof.
  induction cols as [|c cols IH]; intros H; simpl; [done|].
  rewrite (H c) by left. rewrite IH; [done|]. intros c' Hc'. apply H. by right.
Qed.

(** The indicators of a complement row add up to the number of columns minus
    the sum of the observation. *)
Lemma qc_of_nat_S n : qc_of_nat (S n) = (1 + qc_of_nat n)%Qc.
Proof.
  unfold qc_of_nat. rewrite Nat2Z.inj_succ. apply Qc_is_canon. simpl.
  rewrite Qred_correct. unfold Z.succ. rewrite inject_Z_plus.
  unfold Qeq. simpl. lia.
Qed.

Lemma row_sum_mirrored cols r r' s :
  (∀ c, c ∈ cols → ∃ q, at_ r c = Num q ∧ at_ r' c = Num (1 - q)%Qc) →
  row_sum cols r = Ok s →
  row_sum cols r' = Ok (qc_of_nat (length cols) - s)%Qc.
Proof.
  revert s. induction cols as [|c cols IH]; intros s H Hs; simpl in *.
  - injection Hs as <-. f_equal; by apply Qc_is_canon.
  - destruct (H c) as (q & Hq & Hq'); [left|]. rewrite Hq in Hs. rewrite Hq'.
    simpl in *. apply bind_ok in Hs as (s' & Hs' & Hs). injection Hs as <-.
    rewrite (IH s'); [|intros c' Hc'; apply H; by right | done]. simpl.
    f_equal. rewrite qc_of_nat_S. ring.
Qed.

End PreprocessorRows.

(** * The rows of the preprocessed table and where they come from *)

Section PreprocessorOutput.
Import Preprocessors.

Variable astype_str : cell → string.
Variable to_datetime : cell → result cell.

(** Every row that leaves lines 103-115 stems from an informative row of the
    recoded table: either it is that row with [undetermined] 0, or it is its
    complement. *)
Lemma after_recode_rows a t1 out :
  (∀ r c, r ∈ rows t1 → c ∈ columns t1 → at_ r c ≠ NaN) →
  (∀ r c, r ∈ rows t1 → c ∉ columns t1 → at_ r c = NaN) →
  after_recode a t1 = Ok out →
  ("undetermined" ∉ columns t1) ∧
  (∀ c, c ∈ columns out ↔ c = "undetermined" ∨ c ∈ columns t1) ∧
  ∀ r, r ∈ rows out →
    ∃ r1, r1 ∈ rows t1 ∧ informative (variants_columns a t1) r1 = Ok true ∧
      (∀ c, c ∉ columns t1 → c ≠ "undetermined" → at_ r c = NaN) ∧
      ((at_ r "undetermined" = Num 0%Qc ∧ ∀ c, c ∈ columns t1 → at_ r c = at_ r1 c)
       ∨ (with_complement a = true ∧ at_ r "undetermined" = Num 1%Qc ∧
          (∀ c, c ∈ variants_columns a t1 → c ≠ "frac" →
             ∃ q, at_ r1 c = Num q ∧ at_ r c = Num (1 - q)%Qc) ∧
          (∀ c, c ∈ columns t1 → c ∉ variants_columns a t1 →
             c ≠ "mutations" → c ≠ "frac" → at_ r c = at_ r1 c) ∧
          (∀ c, c ∈ columns t1 → at_ r c ≠ NaN))).
Proof.
  intros Hnonan Hnocol H. unfold after_recode in H.
  apply bind_ok in H as (t2 & Ht2 & H).
  apply bind_ok in H as (t3 & Ht3 & H).
  apply drop_uninformative_ok in Ht2 as [Hc2 Hr2].
  apply insert_column_ok in Ht3 as (Hund & Hc3 & Hr3).
  rewrite Hc2 in Hund.
  set (vc := variants_columns a t1) in *.
  assert (∀ r3, r3 ∈ rows t3 →
            ∃ r1, r1 ∈ rows t1 ∧ informative vc r1 = Ok true
                  ∧ r3 = set_cell "undetermined" (Num 0%Qc) r1) as Horigin.
  { intros r3 Hin. rewrite Hr3 in Hin. apply list_elem_of_fmap in Hin as (r2 & -> & Hin).
    rewrite Hr2 in Hin. apply list_elem_of_filter in Hin as [Hinf Hin]. eauto. }
  assert (∀ c, c ∈ columns t3 ↔ c = "undetermined" ∨ c ∈ columns t1) as Hc31.
  { intros c. rewrite Hc3, Hc2. done. }
  assert (∀ c, c ∈ columns t1 → c ≠ "undetermined") as Hneu.
  { intros c Hc ->. done. }
  split; [done|].
  destruct (with_complement a) eqn:Hwc.
  - apply bind_ok in H as (comp & Hcomp & H). injection H as <-.
    apply make_complement_ok in Hcomp as (Hmut & Hfr & Hcc & Hrows).
    set (cols := union_columns [t3; comp]).
    assert (∀ c, c ∈ cols ↔ c ∈ columns t3) as Hcols.
    { intros c. unfold cols. rewrite elem_of_union_columns. split.
      - intros (t & Ht & Hc). apply elem_of_cons in Ht as [-> | Ht]; [done|].
        apply list_elem_of_singleton in Ht as ->. apply Hcc in Hc as [? | ->]; [done|].
        apply Hc3. by left.
      - intros Hc. exists t3. split; [left | done]. }
    split.
    { intros c. change (columns (concat [t3; comp])) with cols. by rewrite Hcols. }
    assert (∀ (x : row) c, c ∉ columns t1 → c ≠ "undetermined" →
              at_ (reindex cols x) c = NaN) as Houtside.
    { intros x c Hc Hne. unfold reindex. rewrite at_row_of.
      rewrite decide_False; [done|]. rewrite Hcols, Hc31. tauto. }
    assert (∀ (x : row) c, c ∈ columns t1 → at_ (reindex cols x) c = at_ x c) as Hinside.
    { intros x c Hc. apply at_reindex. apply Hcols, Hc31. by right. }
    assert (∀ x : row, at_ (reindex cols x) "undetermined" = at_ x "undetermined")
      as Hinu.
    { intros x. apply at_reindex. apply Hcols, Hc31. by left. }
    intros r Hr. rewrite concat_pair in Hr. fold cols in Hr.
    apply elem_of_app in Hr as [Hr | Hr];
      apply list_elem_of_fmap in Hr as (x & -> & Hx).
    + destruct (Horigin x Hx) as (r1 & Hr1 & Hinf & ->).
      exists r1. split; [done|]. split; [done|]. split; [by apply Houtside|].
      left. split; [by rewrite Hinu, at_set_cell_eq|].
      intros c Hc. rewrite Hinside by done.
      apply at_set_cell_ne. intros <-. by apply (Hneu _ Hc).
    + apply list_elem_of_lookup in Hx as [i Hi].
      destruct (Forall2_lookup_r _ _ _ _ _ Hrows Hi)
        as (r3 & Hr3i & _ & Hu1 & m & f & Hm & Hf & _ & Hvs & Hother).
      apply list_elem_of_lookup_2 in Hr3i.
      destruct (Horigin r3 Hr3i) as (r1 & Hr1 & Hinf & ->).
      assert ("mutations" ∈ columns t1) as Hmut1.
      { apply Hc31 in Hmut as [? | ?]; done. }
      assert ("frac" ∈ columns t1) as Hfr1.
      { apply Hc31 in Hfr as [? | ?]; done. }
      rewrite at_set_cell_ne in Hm, Hf by done.
      assert (at_ r1 "mutations" ≠ NaN) as Hmn by (by apply Hnonan).
      assert (at_ r1 "frac" ≠ NaN) as Hfn by (by apply Hnonan).
      apply prepend_dash_ok in Hm as [[? _] | (s & Hs & ->)]; [done|].
      apply one_minus_ok in Hf as [[? _] | (q & Hq & ->)]; [done|].
      assert (∀ v, v ∈ vc → v ∈ columns t1) as Hvc.
      { intros v Hv. apply elem_of_set_inter_list in Hv. tauto. }
      assert ("mutations" ∉ vc) as Hmvc.
      { intros Hin. pose proof (Hvs _ Hin ltac:(done)) as Hx.
        rewrite at_set_cell_ne in Hx by done.
        rewrite at_set_cell_eq in Hx. discriminate. }
      assert (∀ c, c ∈ vc → c ≠ "frac" →
                ∃ q', at_ r1 c = Num q' ∧ at_ x c = Num (1 - q')%Qc) as Hmirror.
      { intros c Hc Hcf.
        assert (c ∈ columns t1) as Hc1 by (by apply Hvc).
        assert (c ≠ "undetermined") as Hcu by (by apply Hneu).
        assert (c ≠ "mutations") as Hcm by (by intros ->).
        pose proof (Hvs _ Hc Hcu) as Hx.
        rewrite !at_set_cell_ne in Hx by done.
        apply one_minus_ok in Hx as [[Hv1 _] | (q' & Hq' & Hcq)]; [|eauto].
        exfalso. by apply (Hnonan r1 c). }
      exists r1. split; [done|]. split; [done|]. split; [by apply Houtside|].
      right. split; [done|]. split; [by rewrite Hinu|]. split; [|split].
      * intros c Hc Hcf. rewrite Hinside by (by apply Hvc). by apply Hmirror.
      * intros c Hc Hcv Hcm Hcf. rewrite Hinside by done.
        rewrite Hother by (try done; by apply Hneu).
        rewrite !at_set_cell_ne by (try done; intros <-; by apply (Hneu _ Hc)).
        done.
      * intros c Hc. rewrite Hinside by done.
        assert (c ≠ "undetermined") as Hcu by (by apply Hneu).
        destruct (decide (c ∈ vc)) as [Hin | Hout].
        -- pose proof (Hvs _ Hin Hcu) as Hx.
           apply one_minus_ok in Hx as [[Hv1 _] | (q' & _ & ->)]; [|done].
           exfalso. destruct (decide (c = "frac")) as [-> | Hcf].
           { rewrite at_set_cell_eq in Hv1. discriminate. }
           assert (c ≠ "mutations") as Hcm by (by intros ->).
           rewrite !at_set_cell_ne in Hv1 by done.
           by apply (Hnonan r1 c).
        -- rewrite Hother by done.
           destruct (decide (c = "frac")) as [-> | Hcf].
           { by rewrite at_set_cell_eq. }
           rewrite at_set_cell_ne by done.
           destruct (decide (c = "mutations")) as [-> | Hcm].
           { by rewrite at_set_cell_eq. }
           rewrite !at_set_cell_ne by done. by apply Hnonan.
  - injection H as <-. split; [done|].
    intros r Hr. destruct (Horigin r Hr) as (r1 & Hr1 & Hinf & ->).
    exists r1. split; [done|]. split; [done|]. split.
    + intros c Hc Hne. rewrite at_set_cell_ne by done. by apply Hnocol.
    + left. split; [apply at_set_cell_eq|].
      intros c Hc. apply at_set_cell_ne. intros <-. by apply (Hneu _ Hc).
Qed.

Lemma recode_outside t r c : r ∈ rows (recode t) → c ∉ columns t → at_ r c = NaN.
Proof.
  intros Hr Hc. unfold recode, map_cells in Hr. cbn [rows columns] in Hr.
  apply list_elem_of_fmap in Hr as (x & -> & _).
  rewrite at_row_of. by rewrite decide_False.
Qed.

Lemma recode_origin t r :
  r ∈ rows (recode t) →
  ∃ r0, r0 ∈ rows t ∧ ∀ c, c ∈ columns t → at_ r c = recoded (at_ r0 c).
Proof.
  intros Hr. apply list_elem_of_lookup in Hr as [i Hi].
  assert (is_Some (rows t !! i)) as [r0 Hr0].
  { apply lookup_lt_is_Some. rewrite <-recode_length.
    by apply lookup_lt_is_Some_1; eauto. }
  destruct (recode_lookup t i r0 Hr0) as (r' & Hr' & _ & Hat).
  rewrite Hi in Hr'. injection Hr' as <-.
  exists r0. split; [by eapply list_elem_of_lookup_2 | done].
Qed.

(** The rows of [general_preprocess]: each stems from a row [r0] that left
    lines 37-93 and from its recoding [r1]. *)
Lemma general_preprocess_rows a df out :
  general_preprocess astype_str to_datetime a df = Ok out →
  ∃ t, before_recode astype_str to_datetime a df = Ok t ∧
    ("undetermined" ∉ columns t) ∧
    (∀ c, c ∈ columns out ↔ c = "undetermined" ∨ c ∈ columns t) ∧
    ∀ r, r ∈ rows out →
      ∃ r0 r1, r0 ∈ rows t ∧ (∀ c, c ∈ columns t → at_ r1 c = recoded (at_ r0 c)) ∧
        informative (variants_columns a t) r1 = Ok true ∧
        (∀ c, c ∉ columns t → c ≠ "undetermined" → at_ r c = NaN) ∧
        ((at_ r "undetermined" = Num 0%Qc ∧ ∀ c, c ∈ columns t → at_ r c = at_ r1 c)
         ∨ (with_complement a = true ∧ at_ r "undetermined" = Num 1%Qc ∧
            (∀ c, c ∈ variants_columns a t → c ≠ "frac" →
               ∃ q, at_ r1 c = Num q ∧ at_ r c = Num (1 - q)%Qc) ∧
            (∀ c, c ∈ columns t → c ∉ variants_columns a t →
               c ≠ "mutations" → c ≠ "frac" → at_ r c = at_ r1 c) ∧
            (∀ c, c ∈ columns t → at_ r c ≠ NaN))).
Proof.
  intros H. unfold general_preprocess in H. apply bind_ok in H as (t & Ht & H).
  exists t. split; [done|].
  destruct (after_recode_rows a (recode t) out) as (Hund & Hcols & Hrows).
  - apply recode_no_nan.
  - intros r c Hr Hc. by apply (recode_outside t).
  - exact H.
  - split; [done|]. split; [done|]. intros r Hr.
    destruct (Hrows r Hr) as (r1 & Hr1 & Hinf & Hout & Hcase).
    destruct (recode_origin t r1 Hr1) as (r0 & Hr0 & Hrec).
    exists r0, r1. split; [done|]. split; [done|]. split; [done|]. split; done.
Qed.

End PreprocessorOutput.

(** * What the preprocessing guarantees *)

Section PreprocessorGuarantees.
Import Preprocessors.

Variable astype_str : cell → string.
Variable to_datetime : cell → result cell.

(** X1 (lines 38-40).  When two lineages of [variants_pangolin] are given the
    same variant name, [general_preprocess] stops at its first statement with
    an assertion failure, whatever the table. *)
Theorem duplicate_lineage_names_rejected a df :
  ¬ NoDup (dict_values (variants_pangolin a)) →
  ∃ msg, general_preprocess astype_str to_datetime a df = Err (AssertionError msg).
Proof.
  intros H. unfold general_preprocess, before_recode. cbn zeta.
  rewrite bool_decide_eq_false_2 by (by rewrite length_size_NoDup).
  by eexists.
Qed.

(** X2 (lines 59-64).  Outside the date-less mode every row of the
    preprocessed table, complements included, is dated within the configured
    range: on or after [start_date] and strictly before [end_date]. *)
Theorem output_dates_within_range a df out :
  general_preprocess astype_str to_datetime a df = Ok out →
  no_date a = false →
  ∀ r, r ∈ rows out →
    (∀ d, start_date a = Some d → ∃ x, at_ r "date" = Date x ∧ (d ≤ x)%Z) ∧
    (∀ d, end_date a = Some d → ∃ x, at_ r "date" = Date x ∧ (x < d)%Z).
Proof.
  intros H Hnd r Hr.
  destruct (general_preprocess_rows astype_str to_datetime a df out H)
    as (t & Ht & _ & _ & Hrows).
  destruct (before_recode_rows astype_str to_datetime a df t Ht) as [Hdate Hfacts].
  destruct (Hrows r Hr) as (r0 & r1 & Hr0 & Hrec & _ & _ & Hcase).
  destruct (Hfacts r0 Hr0) as (Hstart & Hend & _).
  assert (∀ x, at_ r0 "date" = Date x → at_ r "date" = Date x) as Hkept.
  { intros x Hx. pose proof (Hrec "date" Hdate) as H1. rewrite Hx in H1. simpl in H1.
    destruct Hcase as [[_ Hsame] | (_ & _ & Hmirror & Hother & _)].
    - by rewrite Hsame.
    - destruct (decide ("date" ∈ variants_columns a t)) as [Hin | Hnotin].
      + destruct (Hmirror "date" Hin ltac:(done)) as (q & Hq & _). congruence.
      + by rewrite Hother. }
  split; intros d Hd.
  - pose proof (Hstart Hnd d Hd) as Hge. unfold date_ge in Hge.
    destruct (at_ r0 "date") as [| |?|x] eqn:Hx; try discriminate.
    apply bool_decide_eq_true in Hge. exists x. split; [by apply Hkept | done].
  - pose proof (Hend Hnd d Hd) as Hlt. unfold date_lt in Hlt.
    destruct (at_ r0 "date") as [| |?|x] eqn:Hx; try discriminate.
    apply bool_decide_eq_true in Hlt. exists x. split; [by apply Hkept | done].
Qed.

(** X3 (lines 65-68).  With [remove_deletions] set, no row of the
    preprocessed table, complements included, has the base [-]. *)
Theorem deletions_removed a df out :
  general_preprocess astype_str to_datetime a df = Ok out →
  remove_deletions a = true →
  ∀ r, r ∈ rows out → at_ r "base" ≠ Str "-".
Proof.
  intros H Hrd r Hr.
  destruct (general_preprocess_rows astype_str to_datetime a df out H)
    as (t & Ht & _ & _ & Hrows).
  destruct (before_recode_rows astype_str to_datetime a df t Ht) as [_ Hfacts].
  destruct (Hrows r Hr) as (r0 & r1 & Hr0 & Hrec & _ & Hout & Hcase).
  destruct (decide ("base" ∈ columns t)) as [Hb | Hb].
  - destruct (Hfacts r0 Hr0) as (_ & _ & Hdel & _).
    pose proof (Hdel Hrd Hb) as Hne.
    assert (at_ r1 "base" ≠ Str "-") as Hne1.
    { rewrite (Hrec "base" Hb). destruct (at_ r0 "base") as [| |s|]; simpl; try done.
      case_bool_decide; [done | congruence]. }
    destruct Hcase as [[_ Hsame] | (_ & _ & Hmirror & Hother & _)].
    + by rewrite Hsame.
    + destruct (decide ("base" ∈ variants_columns a t)) as [Hin | Hnotin].
      * destruct (Hmirror "base" Hin ltac:(done)) as (q & _ & ->). done.
      * by rewrite Hother.
  - by rewrite Hout.
Qed.

(** X4 (lines 87-91).  In the table that reaches the recoding pass no row
    holds, under a column of [variants_list], one of the tags of [to_drop]. *)
Theorem dropped_tags_absent a df t :
  before_recode astype_str to_datetime a df = Ok t →
  ∀ r v s, r ∈ rows t → v ∈ variants_list a → v ∈ columns t →
    at_ r v = Str s → s ∉ to_drop a.
Proof.
  intros Ht r v s Hr Hv Hc Hs Hin.
  destruct (before_recode_rows astype_str to_datetime a df t Ht) as [_ Hfacts].
  destruct (Hfacts r Hr) as (_ & _ & _ & Htags).
  pose proof (Htags v Hv Hc) as Hfalse. rewrite Hs in Hfalse. simpl in Hfalse.
  by apply bool_decide_eq_false in Hfalse.
Qed.

(** X5 (lines 96-115).  The preprocessed table has no missing value: every
    cell under one of its columns, in observations and complements alike, is
    a number, a string or a date. *)
Theorem output_has_no_missing_cell a df out :
  general_preprocess astype_str to_datetime a df = Ok out →
  ∀ r c, r ∈ rows out → c ∈ columns out → at_ r c ≠ NaN.
Proof.
  intros H r c Hr Hc.
  destruct (general_preprocess_rows astype_str to_datetime a df out H)
    as (t & Ht & _ & Hcols & Hrows).
  destruct (Hrows r Hr) as (r0 & r1 & Hr0 & Hrec & _ & _ & Hcase).
  destruct (proj1 (Hcols c) Hc) as [-> | Hc'].
  - destruct Hcase as [[-> _] | (_ & -> & _)]; done.
  - destruct Hcase as [[_ Hsame] | (_ & _ & _ & _ & Hnonan)]; [|by apply Hnonan].
    rewrite Hsame, Hrec by done. apply recoded_not_nan.
Qed.

(** X6 (lines 102-115).  Every row of the preprocessed table is informative
    for the variant columns, the complement rows too: its indicators add up
    neither to zero nor to the number of variant columns, so the filter of
    lines 104-108 would keep it.  Variant names are taken to differ from the
    column names [frac] and [undetermined]. *)
Theorem output_rows_informative a df out :
  general_preprocess astype_str to_datetime a df = Ok out →
  "frac" ∉ variants_list a →
  "undetermined" ∉ variants_list a →
  ∀ r, r ∈ rows out → informative (variants_columns a out) r = Ok true.
Proof.
  intros H Hfrac Hundet r Hr.
  destruct (general_preprocess_rows astype_str to_datetime a df out H)
    as (t & Ht & _ & Hcols & Hrows).
  assert (variants_columns a out = variants_columns a t) as ->.
  { unfold variants_columns, set_inter_list. f_equal. apply set_eq. intros v.
    rewrite !elem_of_intersection, !elem_of_list_to_set, Hcols. split; [|tauto].
    intros [Hv [-> | Hc]]; done. }
  set (vc := variants_columns a t) in *.
  assert (∀ v, v ∈ vc → v ∈ columns t ∧ v ≠ "frac") as Hvc.
  { intros v Hv. apply elem_of_set_inter_list in Hv as [Hv ?]. split; [done|].
    by intros ->. }
  destruct (Hrows r Hr) as (r0 & r1 & _ & _ & Hinf & _ & Hcase).
  destruct Hcase as [[_ Hsame] | (_ & _ & Hmirror & _)].
  - unfold informative. rewrite (row_sum_ext vc r r1); [done|].
    intros c Hc. apply Hsame. by apply Hvc.
  - apply informative_true in Hinf as (s & Hs & H0 & Hn).
    unfold informative.
    rewrite (row_sum_mirrored vc r1 r s); [|intros c Hc; apply Hmirror; [done|by apply Hvc] | done].
    cbn [mbind result_bind]. f_equal.
    apply negb_true_iff, orb_false_iff. split; apply bool_decide_eq_false.
    + intros Heq. apply Hn.
      transitivity (s + (qc_of_nat (length vc) - s))%Qc; [rewrite Heq; ring | ring].
    + intros Heq. apply H0.
      transitivity (qc_of_nat (length vc) - (qc_of_nat (length vc) - s))%Qc;
        [ring | rewrite Heq; ring].
Qed.

Lemma drop_uninformative_err cols t e :
  drop_uninformative cols t = Err e → ∃ msg, e = TypeError msg.
Proof.
  unfold drop_uninformative.
  assert (∀ c x, as_num c = Err x → ∃ msg, x = TypeError msg) as Hnum.
  { intros [| | |] x; simpl; intros [=]; subst; eauto. }
  assert (∀ cs r x, row_sum cs r = Err x → ∃ msg, x = TypeError msg) as Hsum.
  { induction cs as [|c cs IH]; intros r x; simpl; [intros [=]|].
    destruct (as_num (at_ r c)) as [o|x'] eqn:Ho; simpl.
    - destruct (row_sum cs r) as [s|x'] eqn:Hs; simpl; [intros [=]|].
      intros [= <-]. eauto.
    - intros [= <-]. eauto. }
  assert (∀ r x, informative cols r = Err x → ∃ msg, x = TypeError msg) as Hinf.
  { intros r x. unfold informative.
    destruct (row_sum cols r) as [s|x'] eqn:Hs; simpl; [intros [=]|].
    intros [= <-]. eauto. }
  assert (∀ rs x, select_m (informative cols) rs = Err x → ∃ msg, x = TypeError msg)
    as Hsel.
  { induction rs as [|r rs IH]; intros x; simpl; [intros [=]|].
    destruct (informative cols r) as [b|x'] eqn:Hb; simpl.
    - destruct (select_m (informative cols) rs) as [rs'|x'] eqn:Hrs; simpl;
        [intros [=]|].
      intros [= <-]. eauto.
    - intros [= <-]. eauto. }
  destruct (select_m (informative cols) (rows t)) as [rs|x] eqn:Hrs; simpl;
    [intros [=]|].
  intros [= <-]. eauto.
Qed.

(** X7 (line 111).  A table that reaches line 111 with a column named
    [undetermined] already is never preprocessed: [general_preprocess] raises,
    with the [ValueError] of [insert] unless summing the indicators has
    raised a [TypeError] before. *)
Theorem existing_undetermined_rejected a df t :
  before_recode astype_str to_datetime a df = Ok t →
  "undetermined" ∈ columns t →
  ∃ e, general_preprocess astype_str to_datetime a df = Err e ∧
       (e = ValueError "cannot insert undetermined, already exists"
        ∨ ∃ msg, e = TypeError msg).
Proof.
  intros Ht Hu. unfold general_preprocess. rewrite Ht. cbn [mbind result_bind].
  unfold after_recode.
  destruct (drop_uninformative (variants_columns a (recode t)) (recode t))
    as [t2|e] eqn:Ht2; cbn [mbind result_bind].
  - apply drop_uninformative_ok in Ht2 as [Hc2 _].
    unfold insert_column.
    rewrite (proj2 (has_column_true t2 "undetermined")) by (by rewrite Hc2).
    cbn [mbind result_bind]. eexists. split; [reflexivity|]. by left.
  - exists e. split; [done|]. right. by eapply drop_uninformative_err.
Qed.

End PreprocessorGuarantees.

(** * The guarantees of the preprocessing at concrete inputs *)

Section PreprocessorInstances.
Import Preprocessors.

Lemma duplicate_lineage_names_rejected_witness :
  ∃ msg, general_preprocess example_astype_str example_to_datetime
           example_args_duplicates example_tally = Err (AssertionError msg).
Proof. apply duplicate_lineage_names_rejected. by_evaluation. Defined.

Lemma output_dates_within_range_witness :
  ∃ out, general_preprocess example_astype_str example_to_datetime
           example_args_dated example_tally = Ok out
    ∧ rows out ≠ []
    ∧ ∀ r, r ∈ rows out → ∃ x, at_ r "date" = Date x ∧ (18900 ≤ x < 18902)%Z.
Proof.
  assert (holds_on (general_preprocess example_astype_str example_to_datetime
                      example_args_dated example_tally)
            (λ out, bool_decide (rows out ≠ [])) = true) as Hrows
    by (vm_compute; reflexivity).
  destruct (general_preprocess example_astype_str example_to_datetime
              example_args_dated example_tally) as [out|e] eqn:Hout;
    [|discriminate].
  exists out. split; [reflexivity|]. split; [by apply bool_decide_eq_true in Hrows|].
  intros r Hr.
  destruct (output_dates_within_range example_astype_str example_to_datetime
              example_args_dated example_tally out Hout eq_refl r Hr) as [Hs He].
  destruct (Hs _ eq_refl) as (x & Hx & Hge).
  destruct (He _ eq_refl) as (x' & Hx' & Hlt).
  exists x. split; [exact Hx|]. rewrite Hx in Hx'. injection Hx' as <-. lia.
Defined.

Lemma deletions_removed_witness :
  ∃ out, general_preprocess example_astype_str example_to_datetime
           example_args example_tally = Ok out
    ∧ rows out ≠ []
    ∧ ∀ r, r ∈ rows out → at_ r "base" ≠ Str "-".
Proof.
  assert (holds_on (general_preprocess example_astype_str example_to_datetime
                      example_args example_tally)
            (λ out, bool_decide (rows out ≠ [])) = true) as Hrows
    by (vm_compute; reflexivity).
  destruct (general_preprocess example_astype_str example_to_datetime
              example_args example_tally) as [out|e] eqn:Hout;
    [|discriminate].
  exists out. split; [reflexivity|]. split; [by apply bool_decide_eq_true in Hrows|].
  exact (deletions_removed example_astype_str example_to_datetime
           example_args example_tally out Hout eq_refl).
Defined.

Lemma dropped_tags_absent_witness :
  ∃ t, before_recode example_astype_str example_to_datetime
         example_args_dated example_tally = Ok t
    ∧ length (rows t) = 2
    ∧ ∀ r, r ∈ rows t → at_ r "Delta" ≠ Str "subset".
Proof.
  assert (holds_on (before_recode example_astype_str example_to_datetime
                      example_args_dated example_tally)
            (λ t, bool_decide (length (rows t) = 2 ∧ "Delta" ∈ columns t)) = true)
    as Hfacts by (vm_compute; reflexivity).
  destruct (before_recode example_astype_str example_to_datetime
              example_args_dated example_tally) as [t|e] eqn:Ht;
    [|discriminate].
  apply bool_decide_eq_true in Hfacts as [Hlen Hcol].
  exists t. split; [reflexivity|]. split; [exact Hlen|].
  intros r Hr Hs.
  apply (dropped_tags_absent example_astype_str example_to_datetime
           example_args_dated example_tally t Ht r "Delta" "subset" Hr);
    [by_evaluation | exact Hcol | exact Hs | by_evaluation].
Defined.

Lemma output_has_no_missing_cell_witness :
  ∃ out, general_preprocess example_astype_str example_to_datetime
           example_args example_tally = Ok out
    ∧ length (rows out) = 4
    ∧ ∀ r c, r ∈ rows out → c ∈ columns out → at_ r c ≠ NaN.
Proof.
  assert (holds_on (general_preprocess example_astype_str example_to_datetime
                      example_args example_tally)
            (λ out, bool_decide (length (rows out) = 4)) = true) as Hrows
    by (vm_compute; reflexivity).
  destruct (general_preprocess example_astype_str example_to_datetime
              example_args example_tally) as [out|e] eqn:Hout;
    [|discriminate].
  exists out. split; [reflexivity|]. split; [by apply bool_decide_eq_true in Hrows|].
  exact (output_has_no_missing_cell example_astype_str example_to_datetime
           example_args example_tally out Hout).
Defined.

Lemma output_rows_informative_witness :
  ∃ out, general_preprocess example_astype_str example_to_datetime
           example_args example_tally = Ok out
    ∧ length (rows out) = 4
    ∧ ∀ r, r ∈ rows out → informative (variants_columns example_args out) r = Ok true.
Proof.
  assert (holds_on (general_preprocess example_astype_str example_to_datetime
                      example_args example_tally)
            (λ out, bool_decide (length (rows out) = 4)) = true) as Hrows
    by (vm_compute; reflexivity).
  destruct (general_preprocess example_astype_str example_to_datetime
              example_args example_tally) as [out|e] eqn:Hout;
    [|discriminate].
  exists out. split; [reflexivity|]. split; [by apply bool_decide_eq_true in Hrows|].
  apply (output_rows_informative example_astype_str example_to_datetime
           example_args example_tally out Hout); by_evaluation.
Defined.

Lemma existing_undetermined_rejected_witness :
  ∃ e, general_preprocess example_astype_str example_to_datetime
         example_args example_tally_undetermined = Err e
    ∧ (e = ValueError "cannot insert undetermined, already exists"
       ∨ ∃ msg, e = TypeError msg).
Proof.
  assert (holds_on (before_recode example_astype_str example_to_datetime
                      example_args example_tally_undetermined)
            (λ t, bool_decide ("undetermined" ∈ columns t)) = true)
    as Hcol by (vm_compute; reflexivity).
  destruct (before_recode example_astype_str example_to_datetime
              example_args example_tally_undetermined) as [t|e] eqn:Ht;
    [|discriminate].
  apply bool_decide_eq_true in Hcol.
  exact (existing_undetermined_rejected example_astype_str example_to_datetime
           example_args example_tally_undetermined t Ht Hcol).
Defined.

End PreprocessorInstances.

(** * Locations, dates and the schedule *)

Section PrepareFacts.
Import Lollipop Cli.

Lemma column_ok t c : c ∈ columns t → column t c = Ok ((λ r, at_ r c) <$> rows t).
Proof.
  intros Hc. unfold column, require_column.
  by rewrite (proj2 (has_column_true t c)) by done.
Qed.

Lemma column_inv t c vs :
  column t c = Ok vs → c ∈ columns t ∧ vs = (λ r, at_ r c) <$> rows t.
Proof.
  unfold column. intros H. apply bind_ok in H as (? & Hc & H).
  apply require_column_ok in Hc. by injection H as <-.
Qed.

Lemma columns_assign c f t : c ∈ columns (assign c f t).
Proof.
  unfold assign. cbn [columns]. destruct (has_column t c) eqn:Hc.
  - by apply has_column_true.
  - set_solver.
Qed.


(** X8 (lines 205-209).  A list of locations is checked against the table:
    when every listed location occurs in the [location] column the list is
    taken as it is, and a single listed location that occurs nowhere stops the
    run with an assertion failure. *)
Theorem listed_locations_checked l df :
  "location" ∈ columns df →
  ((∀ x, x ∈ l → ∃ r, r ∈ rows df ∧ at_ r "location" = x) →
     resolve_locations false (Some l) df = Ok (df, l))
  ∧ (∀ x, x ∈ l → (∀ r, r ∈ rows df → at_ r "location" ≠ x) →
       ∃ msg, resolve_locations false (Some l) df = Err (AssertionError msg)).
Proof.
  intros Hcol. unfold resolve_locations. cbn [mbind result_bind].
  rewrite column_ok by done. cbn [mbind result_bind]. split.
  - intros Hall. rewrite bool_decide_eq_true_2; [done|].
    symmetry. apply size_empty_iff. intros x.
    rewrite elem_of_difference, !elem_of_list_to_set, elem_of_unique, list_elem_of_fmap.
    split; [|by intros ?%elem_of_empty].
    intros [Hx Hnot]. destruct (Hall x Hx) as (r & Hr & <-). exfalso. eauto.
  - intros x Hx Hnone. rewrite bool_decide_eq_false_2; [by eexists|].
    intros Heq. symmetry in Heq. apply size_empty_iff in Heq.
    assert (x ∈ (∅ : gset cell)) as Hemp; [|by apply elem_of_empty in Hemp].
    apply Heq. rewrite elem_of_difference, !elem_of_list_to_set, elem_of_unique.
    split; [done|]. rewrite list_elem_of_fmap. intros (r & -> & Hr).
    by apply (Hnone r).
Qed.


(** X10 (lines 186-210).  In the location-less mode every row is stamped with
    the location [location] and that is the one location processed, whatever
    list was given; on a table without rows the check of the list against the
    table fails instead. *)
Theorem no_loc_single_location ll df :
  (rows df ≠ [] →
     ∃ df', resolve_locations true ll df = Ok (df', [Str "location"]) ∧
       length (rows df') = length (rows df) ∧
       ∀ i r, rows df !! i = Some r →
         ∃ r', rows df' !! i = Some r' ∧ at_ r' "location" = Str "location" ∧
               ∀ c, c ≠ "location" → at_ r' c = at_ r c)
  ∧ (rows df = [] →
       ∃ msg, resolve_locations true ll df = Err (AssertionError msg)).
Proof.
  unfold resolve_locations. cbn [mbind result_bind].
  rewrite column_ok by apply columns_assign. cbn [mbind result_bind].
  set (stamped := assign "location" (λ _, Str "location") df).
  assert ((λ r, at_ r "location") <$> rows stamped
          = (λ _, Str "location") <$> rows df) as Hvalues.
  { unfold stamped, assign. cbn [rows]. rewrite <-list_fmap_compose.
    apply list_fmap_ext. intros i r _. simpl. apply at_set_cell_eq. }
  rewrite Hvalues. split.
  - intros Hne. exists stamped. rewrite bool_decide_eq_true_2.
    + split; [done|]. split; [unfold stamped, assign; cbn [rows]; by rewrite length_fmap|].
      intros i r Hr. exists (set_cell "location" (Str "location") r).
      unfold stamped, assign. cbn [rows]. rewrite list_lookup_fmap, Hr.
      split; [done|]. split; [apply at_set_cell_eq|].
      intros c Hc. by apply at_set_cell_ne.
    + symmetry. apply size_empty_iff. intros x.
      rewrite elem_of_difference, !elem_of_list_to_set, elem_of_unique.
      rewrite list_elem_of_singleton, list_elem_of_fmap.
      split; [|by intros ?%elem_of_empty].
      intros [-> Hnot]. exfalso. apply Hnot.
      destruct (rows df) as [|r rs]; [done|]. exists r. split; [done | left].
  - intros ->. rewrite bool_decide_eq_false_2; [by eexists|].
    cbn [fmap list_fmap unique]. rewrite list_to_set_nil.
    intros Heq. symmetry in Heq. apply size_empty_iff in Heq.
    assert (Str "location" ∈ (∅ : gset cell)) as Hemp;
      [|by apply elem_of_empty in Hemp].
    apply Heq. rewrite elem_of_difference, elem_of_list_to_set.
    split; [by apply list_elem_of_singleton | by intros ?%elem_of_empty].
Qed.


(** The variants a schedule names. *)
Lemma elem_of_scheduled (var_dates : dict Z (list string)) v :
  v ∈ mjoin (dict_values var_dates) ↔ ∃ d l, (d, l) ∈ var_dates ∧ v ∈ l.
Proof.
  rewrite list_elem_of_join. unfold dict_values. split.
  - intros (l & Hv & Hl). apply list_elem_of_fmap in Hl as ([d l'] & -> & Hin).
    eauto.
  - intros (d & l & Hin & Hv). exists l. split; [done|].
    apply list_elem_of_fmap. by exists (d, l).
Qed.

Lemma elem_of_set_diff_list xs ys x : x ∈ set_diff_list xs ys ↔ x ∈ xs ∧ x ∉ ys.
Proof.
  unfold set_diff_list.
  by rewrite elem_of_elements, elem_of_difference, !elem_of_list_to_set.
Qed.

(** Whatever a period of the schedule names is searched for. *)
Lemma plan_variants_covers i (nd : bool) d l v :
  (d, l) ∈ (plan_variants i nd).2 → v ∈ l → v ∈ (plan_variants i nd).1.
Proof.
  unfold plan_variants. destruct (variants_dates i) as [f|].
  - destruct (cy_variants_list (conf i)) as [l0|]; cbn [fst snd]; intros Hin Hv.
    + destruct (decide (v ∈ l0)) as [Hv0 | Hv0].
      { case_bool_decide; [|done]. apply elem_of_app. by left. }
      assert (v ∈ set_diff_list (mjoin (dict_values (var_dates_yaml i))) l0) as Hvd.
      { apply elem_of_set_diff_list. split; [|done]. apply elem_of_scheduled. eauto. }
      rewrite bool_decide_eq_true_2.
      * apply elem_of_app. by right.
      * destruct (set_diff_list _ _); [by apply elem_of_nil in Hvd | simpl; lia].
    + rewrite elem_of_elements, elem_of_list_to_set. apply elem_of_scheduled. eauto.
  - cbn [fst snd]. intros Hin Hv.
    destruct nd; apply list_elem_of_singleton in Hin; by injection Hin as _ ->.
Qed.

(** X12 (lines 238-265).  With a schedule file, every variant the schedule
    names for some period is among the variants searched for; a configured
    list comes first, in its order, and nothing else is added. *)
Theorem scheduled_variants_searched i (nd : bool) f :
  variants_dates i = Some f →
  (plan_variants i nd).2 = var_dates_yaml i ∧
  (∀ d l v, (d, l) ∈ var_dates_yaml i → v ∈ l → v ∈ (plan_variants i nd).1) ∧
  (∀ l0, cy_variants_list (conf i) = Some l0 → l0 `prefix_of` (plan_variants i nd).1) ∧
  (∀ v, v ∈ (plan_variants i nd).1 →
     (∃ l0, cy_variants_list (conf i) = Some l0 ∧ v ∈ l0)
     ∨ ∃ d l, (d, l) ∈ var_dates_yaml i ∧ v ∈ l).
Proof.
  intros Hf.
  assert ((plan_variants i nd).2 = var_dates_yaml i) as Hschedule.
  { unfold plan_variants. rewrite Hf. by destruct (cy_variants_list (conf i)). }
  split; [done|]. split.
  { intros d l v Hin Hv. apply (plan_variants_covers i nd d l v); [|done].
    by rewrite Hschedule. }
  unfold plan_variants. rewrite Hf.
  destruct (cy_variants_list (conf i)) as [l0|]; cbn [fst snd].
  - split.
    + intros ? [= <-]. case_bool_decide; [by apply prefix_app_r | done].
    + intros v Hv. case_bool_decide; [|left; eauto].
      apply elem_of_app in Hv as [Hv | Hv]; [left; eauto|].
      right. apply elem_of_scheduled. by apply elem_of_set_diff_list in Hv as [? _].
  - split.
    + intros ? [=].
    + intros v Hv. right. apply elem_of_scheduled.
      by rewrite elem_of_elements, elem_of_list_to_set in Hv.
Qed.

(** X13 (lines 266-295).  Without a schedule file the run has exactly one
    period, open-ended and searched for all variants; it starts at the
    configured [start_date], at 2020-01-01 when there is none, or at the dummy
    date 1999-12-01 in the date-less mode.  The check of the order of the
    dates passes, and a missing variants list is read off the lineage map,
    each name once. *)
Theorem default_schedule_single_period i (nd : bool) :
  variants_dates i = None →
  ∃ start,
    start = (if nd then day_1999_12_01
             else default day_2020_01_01 (cy_start_date (conf i))) ∧
    date_intervals (plan_variants i nd).2 = [(start, None)] ∧
    dict_get (plan_variants i nd).2 start = Some (plan_variants i nd).1 ∧
    check_intervals nd (date_intervals (plan_variants i nd).2) = Ok tt ∧
    (∀ l0, cy_variants_list (conf i) = Some l0 → (plan_variants i nd).1 = l0) ∧
    (cy_variants_list (conf i) = None →
       NoDup (plan_variants i nd).1 ∧
       ∀ v, v ∈ (plan_variants i nd).1 ↔ v ∈ dict_values (cy_variants_pangolin (conf i))).
Proof.
  intros Hf. unfold plan_variants. rewrite Hf. cbn [fst snd].
  eexists. split; [reflexivity|].
  split; [by destruct nd|].
  split; [destruct nd; cbn [dict_get]; by rewrite decide_True|].
  split; [by destruct nd|].
  split.
  - intros l0 ->. done.
  - intros ->. split; [apply NoDup_elements|]. intros v.
    by rewrite elem_of_elements, elem_of_list_to_set.
Qed.




End PrepareFacts.

(** * Locations, dates and the schedule at concrete inputs *)

Section PrepareInstances.
Import Lollipop Cli.

Lemma listed_locations_checked_witness :
  resolve_locations false (Some [Str "ZH"; Str "BE"]) example_located_tally
  = Ok (example_located_tally, [Str "ZH"; Str "BE"])
  ∧ ∃ msg, resolve_locations false (Some [Str "ZH"; Str "GE"]) example_located_tally
           = Err (AssertionError msg).
Proof.
  assert ("location" ∈ columns example_located_tally) as Hcol by by_evaluation.
  split.
  - apply (proj1 (listed_locations_checked [Str "ZH"; Str "BE"] _ Hcol)).
    intros x Hx. apply elem_of_cons in Hx as [-> | Hx].
    + eexists. split; [apply list_elem_of_here | reflexivity].
    + apply list_elem_of_singleton in Hx as ->.
      eexists. split; [apply list_elem_of_further, list_elem_of_here | reflexivity].
  - apply (proj2 (listed_locations_checked [Str "ZH"; Str "GE"] _ Hcol) (Str "GE")).
    + by_evaluation.
    + intros r Hr. unfold example_located_tally in Hr. cbn [rows] in Hr.
      repeat (apply elem_of_cons in Hr as [-> | Hr]; [by_evaluation|]).
      by apply elem_of_nil in Hr.
Defined.


Lemma no_loc_single_location_witness :
  (∃ df', resolve_locations true None example_located_tally
          = Ok (df', [Str "location"])
     ∧ length (rows df') = 4
     ∧ ∀ r', r' ∈ rows df' → at_ r' "location" = Str "location")
  ∧ ∃ msg, resolve_locations true None (Table ["sample"; "frac"] [])
           = Err (AssertionError msg).
Proof.
  split.
  - destruct (proj1 (no_loc_single_location None example_located_tally))
      as (df' & Hres & Hlen & Hrows); [discriminate|].
    exists df'. split; [exact Hres|]. split; [exact Hlen|].
    intros r' Hr'. apply list_elem_of_lookup in Hr' as [i Hi].
    assert (is_Some (rows example_located_tally !! i)) as [r Hr].
    { apply lookup_lt_is_Some. rewrite <-Hlen. by apply lookup_lt_is_Some_1; eauto. }
    destruct (Hrows i r Hr) as (r'' & Hr'' & Hloc & _).
    rewrite Hi in Hr''. injection Hr'' as <-. exact Hloc.
  - apply (proj2 (no_loc_single_location None (Table ["sample"; "frac"] []))).
    reflexivity.
Defined.


Lemma scheduled_variants_searched_witness :
  "Delta" ∈ (plan_variants example_scheduled_run false).1
  ∧ ["Alpha"] `prefix_of` (plan_variants example_scheduled_run false).1.
Proof.
  destruct (scheduled_variants_searched example_scheduled_run false "var_dates.yaml"
              eq_refl) as (_ & Hin & Hpre & _).
  split.
  - apply (Hin 18960%Z ["Alpha"; "Delta"] "Delta"); by_evaluation.
  - apply Hpre. reflexivity.
Defined.

Lemma default_schedule_single_period_witness :
  date_intervals (plan_variants example_run false).2 = [(day_2020_01_01, None)]
  ∧ check_intervals false (date_intervals (plan_variants example_run false).2) = Ok tt
  ∧ (plan_variants example_run false).1 = ["Alpha"; "Delta"].
Proof.
  destruct (default_schedule_single_period example_run false eq_refl)
    as (start & -> & Hint & _ & Hchk & Hlist & _).
  split; [exact Hint|]. split; [exact Hchk|]. apply Hlist. reflexivity.
Defined.


End PrepareInstances.

(** * The deconvolution loops *)

Section LoopFacts.
Import Lollipop Cli.

Context {rng : Type}.
Variable resample_mutations : rng → table → list cell → result (table * rng).
Variable deconv_all : engine_call → result kdec.
Variable p : params.
Variable no_date no_loc : bool.
Variable var_dates : dict Z (list string).

Lemma driver_eta (s : driver rng) :
  Driver (rng_state s) (all_deconv s ++ []) (calls s ++ []) = s.
Proof. destruct s. cbn. by rewrite !app_nil_r. Qed.

Lemma sound_effect_nil locs res : sound_effect p var_dates locs res [] [].
Proof.
  unfold sound_effect. split; [constructor|]. split; [constructor|].
  cbn [length]. split; [lia|]. intros _. lia.
Qed.

Lemma sound_effect_app locs res nr1 nc1 nr2 nc2 :
  sound_effect p var_dates locs (Ok tt) nr1 nc1 →
  sound_effect p var_dates locs res nr2 nc2 →
  sound_effect p var_dates locs res (nr1 ++ nr2) (nc1 ++ nc2).
Proof.
  intros (Hc1 & Hr1 & _ & He1) (Hc2 & Hr2 & Hl2 & He2).
  specialize (He1 eq_refl). unfold sound_effect.
  rewrite !Forall_app, !length_app. split; [done|]. split; [done|].
  split; [nia|]. intros Hres. specialize (He2 Hres). nia.
Qed.

Lemma sound_effect_mono locs locs' res nr nc :
  locs ⊆ locs' →
  sound_effect p var_dates locs res nr nc → sound_effect p var_dates locs' res nr nc.
Proof.
  intros Hsub (Hc & Hr & Hl & He). split; [done|]. split; [|done].
  eapply Forall_impl; [exact Hr|]. intros t (H1 & H2 & H3).
  split; [done|]. split; [done|]. intros r Hr'. apply Hsub. by apply H3.
Qed.

Lemma effect_ret : has_effect (mret tt : M rng unit) (Ok tt) [] [].
Proof. intros s. unfold mret, M_ret. by rewrite driver_eta. Qed.

Lemma effect_lift_err {A} (e : exn) (f : A → M rng unit) :
  has_effect (lift (Err e) ≫= f) (Err e) [] [].
Proof. intros s. unfold mbind, M_bind, lift. by rewrite driver_eta. Qed.

Lemma effect_lift_ok {A} (S : result unit → list table → list engine_call → Prop)
    (a : A) (f : A → M rng unit) :
  (∃ res nr nc, has_effect (f a) res nr nc ∧ S res nr nc) →
  ∃ res nr nc, has_effect (lift (Ok a) ≫= f) res nr nc ∧ S res nr nc.
Proof.
  intros (res & nr & nc & He & HS). exists res, nr, nc. split; [|done].
  intros s. apply He.
Qed.

(** A step that only computes: the rest of the piece decides. *)
Lemma effect_lift_bind {A} (S : result unit → list table → list engine_call → Prop)
    (m : result A) (f : A → M rng unit) :
  (∀ e, S (Err e) [] []) →
  (∀ a, m = Ok a → ∃ res nr nc, has_effect (f a) res nr nc ∧ S res nr nc) →
  ∃ res nr nc, has_effect (lift m ≫= f) res nr nc ∧ S res nr nc.
Proof.
  intros Herr Hok. destruct m as [a|e].
  - destruct (Hok a eq_refl) as (res & nr & nc & He & HS).
    exists res, nr, nc. split; [|done]. intros s. apply He.
  - exists (Err e), [], []. split; [apply effect_lift_err | apply Herr].
Qed.

Lemma size_nonzero_rows t : size_ t ≠ 0 → rows t ≠ [].
Proof. unfold size_. intros H Hr. rewrite Hr in H. simpl in H. lia. Qed.

(** What one fit collects. *)
Lemma collect_effect location k :
  ∃ nr, has_effect (collect p location k : M rng unit) (Ok tt) nr []
        ∧ length nr = tables_per_fit p
        ∧ Forall (tagged_result p [location]) nr.
Proof.
  assert (∀ t, ∀ r, r ∈ rows (assign "location" (λ _, location) t) →
               at_ r "location" ∈ [location]) as Hloc.
  { intros t r Hr. unfold assign in Hr. cbn [rows] in Hr.
    apply list_elem_of_fmap in Hr as (r0 & -> & _).
    rewrite at_set_cell_eq. apply list_elem_of_here. }
  assert (∀ t e, tagged_result p [location]
                   (assign "estimate" (λ _, Str e)
                      (assign "location" (λ _, location) t))) as Htag.
  { intros t e. split; [|split].
    - unfold assign at 1. cbn [columns].
      destruct (has_column _ "estimate"); [apply columns_assign|].
      apply elem_of_app. left. apply columns_assign.
    - intros _. apply columns_assign.
    - intros r Hr. unfold assign at 1 in Hr. cbn [rows] in Hr.
      apply list_elem_of_fmap in Hr as (r0 & -> & Hr0).
      rewrite at_set_cell_ne by done. by eapply Hloc. }
  unfold collect, tables_per_fit. destruct (have_confint p) eqn:Hc.
  - eexists [_; _; _]. split; [|split; [done|]].
    + intros s. unfold mbind, M_bind, append_result. cbn.
      by rewrite <-!app_assoc, app_nil_r.
    + repeat (constructor; [apply Htag|]). constructor.
  - eexists [_]. split; [|split; [done|]].
    + intros s. unfold append_result. cbn. by rewrite app_nil_r.
    + constructor; [|constructor]. split; [apply columns_assign|].
      split; [intros ?; congruence|]. apply Hloc.
Qed.

(** The body of the loop over the periods: it skips the period, or stops
    before the engine is called, or calls the engine once. *)
Lemma window_body_effect location temp_dfb w :
  ∃ res nr nc,
    has_effect (window_body (rng:=rng) deconv_all p no_date var_dates location temp_dfb w)
      res nr nc
    ∧ sound_effect p var_dates [location] res nr nc
    ∧ length nc ≤ 1
    ∧ (rows temp_dfb = [] → (no_date = true ∨ "date" ∈ columns temp_dfb) →
       res = Ok tt ∧ nr = [] ∧ nc = []).
Proof.
  destruct w as [mindate maxdate]. unfold window_body.
  set (S := λ res nr nc,
         sound_effect p var_dates [location] res nr nc ∧ length nc ≤ 1 ∧
         (rows temp_dfb = [] → (no_date = true ∨ "date" ∈ columns temp_dfb) →
          res = Ok tt ∧ nr = [] ∧ nc = [])).
  assert (∀ t2, window_rows no_date temp_dfb mindate maxdate = Ok t2 →
            rows temp_dfb = [] → rows t2 = []) as Hempty.
  { unfold window_rows. intros t2 H Hr. destruct (negb no_date); [|by injection H as <-].
    destruct (has_column temp_dfb "date"); [|discriminate].
    destruct maxdate; injection H as <-; unfold select; cbn [rows]; by rewrite Hr. }
  assert (rows temp_dfb = [] → (no_date = true ∨ "date" ∈ columns temp_dfb) →
          is_ok (window_rows no_date temp_dfb mindate maxdate) = true) as Hwin.
  { intros _ Hd. unfold window_rows. destruct Hd as [-> | Hd]; [done|].
    destruct (negb no_date); [|done].
    rewrite (proj2 (has_column_true _ _) Hd). by destruct maxdate. }
  assert (∀ e, (rows temp_dfb = [] → (no_date = true ∨ "date" ∈ columns temp_dfb) →
                False) →
               S (Err e) [] []) as Herr.
  { intros e Hno. split; [apply sound_effect_nil|]. split; [simpl; lia|].
    intros H1 H2. destruct (Hno H1 H2). }
  destruct (window_rows no_date temp_dfb mindate maxdate) as [t2|e] eqn:Hrows.
  2:{ exists (Err e), [], []. split; [apply effect_lift_err|]. apply Herr.
      intros H1 H2. by specialize (Hwin H1 H2). }
  apply (effect_lift_ok S). cbn beta.
  case_bool_decide as Hsize.
  { exists (Ok tt), [], []. split; [intros s; apply effect_ret|].
    split; [apply sound_effect_nil|]. split; [simpl; lia | done]. }
  assert (∀ res nr nc, sound_effect p var_dates [location] res nr nc →
            length nc ≤ 1 → S res nr nc) as Hlate.
  { intros res nr nc Hs Hl. split; [done|]. split; [done|].
    intros Hr _. exfalso. apply Hsize. unfold size_.
    by rewrite (Hempty t2 eq_refl Hr). }
  assert (∀ e, S (Err e) [] []) as Herr'.
  { intros e. apply Hlate; [apply sound_effect_nil | simpl; lia]. }
  apply (effect_lift_bind S); [exact Herr'|]. intros active Hactive. cbn beta zeta.
  apply (effect_lift_bind S); [exact Herr'|]. intros t3 Ht3. cbn beta.
  case_bool_decide as Hsize3.
  { exists (Ok tt), [], []. split; [intros s; apply effect_ret|].
    apply Hlate; [apply sound_effect_nil | simpl; lia]. }
  apply size_nonzero_rows in Hsize3.
  assert (∀ weights : option (list cell),
            (weights = None ↔ ¬ (1 < bootstrap p)%Z) →
            ∃ res nr nc,
              has_effect (rng:=rng)
                (lift (select_columns (active ++ ["undetermined"]) t3) ≫= λ design,
                 lift (column t3 "frac") ≫= λ frac,
                 lift (column t3 "date") ≫= λ date,
                 kernel_deconv deconv_all
                   {| ec_design := design; ec_frac := frac; ec_date := date;
                      ec_kernel := (kernel p, kernel_params p);
                      ec_reg := (regressor p, regressor_params p);
                      ec_confint := (confint p, confint_params p);
                      ec_weights := weights;
                      ec_deconv_params := deconv_params p |}
                 ≫= collect p location) res nr nc
              ∧ S res nr nc) as Hfit.
  { intros weights Hw.
    apply (effect_lift_bind S); [exact Herr'|]. intros design Hdesign. cbn beta.
    apply (effect_lift_bind S); [exact Herr'|]. intros frac Hfrac. cbn beta.
    apply (effect_lift_bind S); [exact Herr'|]. intros date Hdate. cbn beta.
    unfold select_columns in Hdesign.
    apply bind_ok in Hdesign as (? & _ & Hdesign). injection Hdesign as <-.
    apply column_inv in Hfrac as [_ ->]. apply column_inv in Hdate as [_ ->].
    set (c := {| ec_design := _ |}).
    assert (configured_call p var_dates c) as Hgood.
    { unfold configured_call, c. cbn [ec_kernel ec_reg ec_confint ec_deconv_params
        ec_weights ec_design ec_frac ec_date columns rows].
      split; [done|]. split; [done|]. split; [done|]. split; [done|].
      split; [done|]. split.
      - exists mindate, active. split; [|done]. unfold window_variants in Hactive.
        destruct (dict_get var_dates mindate); [by injection Hactive as -> | done].
      - rewrite !length_fmap. split; [|done].
        intros Hnil. apply fmap_nil_inv in Hnil. done. }
    destruct (deconv_all c) as [k|e] eqn:Hk.
    - destruct (collect_effect location k) as (nr & Hnr & Hlen & Htag).
      exists (Ok tt), nr, [c]. split.
      + intros s. unfold mbind, M_bind, kernel_deconv. rewrite Hk.
        rewrite (Hnr _). cbn [rng_state all_deconv calls]. by rewrite app_nil_r.
      + apply Hlate; [|simpl; lia]. split; [by constructor|]. split; [done|].
        cbn [length]. rewrite Hlen. split; [lia|]. intros _. lia.
    - exists (Err e), [], [c]. split.
      + intros s. unfold mbind, M_bind, kernel_deconv. rewrite Hk.
        by rewrite app_nil_r.
      + apply Hlate; [|simpl; lia]. split; [by constructor|]. split; [constructor|].
        cbn [length]. split; [lia|]. intros [=]. }
  case_bool_decide as Hboot.
  - apply (effect_lift_bind S); [exact Herr'|]. intros weights Hweights. cbn beta.
    apply Hfit. destruct (column t3 "resample_value"); [|discriminate].
    injection Hweights as <-. split; [discriminate | done].
  - destruct (Hfit None) as (res & nr & nc & He & HS); [done|].
    exists res, nr, nc. split; [|done]. intros s. apply He.
Qed.

End LoopFacts.

(** * What the loops add to the results and to the calls *)

Section LoopSteps.
Import Lollipop Cli.

Context {rng : Type}.
Variable resample_mutations : rng → table → list cell → result (table * rng).
Variable deconv_all : engine_call → result kdec.
Variable p : params.
Variable no_date no_loc : bool.
Variable var_dates : dict Z (list string).

(** A loop whose bodies have effects has the effects in a row, up to the
    first body that raises. *)
Lemma for_effect {A} (S : result unit → list table → list engine_call → Prop)
    (xs : list A) (body : A → M rng unit) :
  S (Ok tt) [] [] →
  (∀ r nr1 nc1 nr2 nc2,
     S (Ok tt) nr1 nc1 → S r nr2 nc2 → S r (nr1 ++ nr2) (nc1 ++ nc2)) →
  (∀ x, x ∈ xs → ∃ res nr nc, has_effect (body x) res nr nc ∧ S res nr nc) →
  ∃ res nr nc, has_effect (for_ xs body) res nr nc ∧ S res nr nc.
Proof.
  intros Hnil Happ. induction xs as [|x xs IH]; intros Hbody.
  - exists (Ok tt), [], []. split; [apply effect_ret | done].
  - destruct (Hbody x) as (res1 & nr1 & nc1 & He1 & HS1); [left|].
    destruct IH as (res2 & nr2 & nc2 & He2 & HS2).
    { intros y Hy. apply Hbody. by right. }
    destruct res1 as [[]|e].
    + exists res2, (nr1 ++ nr2), (nc1 ++ nc2). split; [|by apply Happ].
      intros s. cbn [for_]. unfold mbind, M_bind. rewrite (He1 s), (He2 _).
      cbn [rng_state all_deconv calls]. by rewrite !app_assoc.
    + exists (Err e), nr1, nc1. split; [|done].
      intros s. cbn [for_]. unfold mbind, M_bind. by rewrite (He1 s).
Qed.

(** The same for bodies whose effect depends on the state. *)
Lemma for_step {A} (Q : result unit → driver rng → driver rng → Prop)
    (xs : list A) (body : A → M rng unit) :
  (∀ s, Q (Ok tt) s s) →
  (∀ r s1 s2 s3, Q (Ok tt) s1 s2 → Q r s2 s3 → Q r s1 s3) →
  (∀ x s, x ∈ xs → Q (body x s).1 s (body x s).2) →
  ∀ s, Q (for_ xs body s).1 s (for_ xs body s).2.
Proof.
  intros Hrefl Htrans. induction xs as [|x xs IH]; intros Hbody s.
  - apply Hrefl.
  - cbn [for_]. unfold mbind, M_bind.
    pose proof (Hbody x s ltac:(left)) as Hx.
    destruct (body x s) as [[[]|e] s1]; cbn [fst snd] in *; [|done].
    eapply Htrans; [exact Hx|]. apply IH. intros y s' Hy. apply Hbody. by right.
Qed.

Lemma sound_step_refl locs res (s : driver rng) :
  sound_step p var_dates locs res s s.
Proof.
  exists [], []. rewrite !app_nil_r. split; [done|]. split; [done|].
  apply sound_effect_nil.
Qed.

Lemma sound_step_trans locs res (s1 s2 s3 : driver rng) :
  sound_step p var_dates locs (Ok tt) s1 s2 →
  sound_step p var_dates locs res s2 s3 →
  sound_step p var_dates locs res s1 s3.
Proof.
  intros (nr1 & nc1 & Hr1 & Hc1 & H1) (nr2 & nc2 & Hr2 & Hc2 & H2).
  exists (nr1 ++ nr2), (nc1 ++ nc2). rewrite Hr2, Hr1, Hc2, Hc1, !app_assoc.
  split; [done|]. split; [done|]. by apply sound_effect_app.
Qed.

Lemma sound_step_mono locs locs' res (s s' : driver rng) :
  locs ⊆ locs' →
  sound_step p var_dates locs res s s' → sound_step p var_dates locs' res s s'.
Proof.
  intros Hsub (nr & nc & Hr & Hc & H). exists nr, nc.
  split; [done|]. split; [done|]. by eapply sound_effect_mono.
Qed.

Lemma effect_step (m : M rng unit) locs res nr nc s :
  has_effect m res nr nc → sound_effect p var_dates locs res nr nc →
  sound_step p var_dates locs (m s).1 s (m s).2.
Proof. intros He HS. rewrite (He s). cbn. by exists nr, nc. Qed.

(** The periods of one replicate. *)
Lemma windows_effect location temp_dfb intervals :
  ∃ res nr nc,
    has_effect (for_ intervals
                  (window_body (rng:=rng) deconv_all p no_date var_dates location
                     temp_dfb)) res nr nc
    ∧ sound_effect p var_dates [location] res nr nc
    ∧ (rows temp_dfb = [] → (no_date = true ∨ "date" ∈ columns temp_dfb) →
       res = Ok tt ∧ nr = [] ∧ nc = []).
Proof.
  apply (for_effect (λ res nr nc,
           sound_effect p var_dates [location] res nr nc
           ∧ (rows temp_dfb = [] → (no_date = true ∨ "date" ∈ columns temp_dfb) →
              res = Ok tt ∧ nr = [] ∧ nc = []))).
  - split; [apply sound_effect_nil | done].
  - intros r nr1 nc1 nr2 nc2 [H1 E1] [H2 E2]. split; [by apply sound_effect_app|].
    intros Hr Hd. destruct (E1 Hr Hd) as (_ & -> & ->).
    destruct (E2 Hr Hd) as (-> & -> & ->). done.
  - intros w _. destruct (window_body_effect (rng:=rng) deconv_all p no_date var_dates location
                            temp_dfb w) as (res & nr & nc & He & HS & _ & Hempty).
    exists res, nr, nc. done.
Qed.

Lemma replicate_body_step location loc_df intervals b s :
  let out := replicate_body resample_mutations deconv_all p no_date var_dates
               location loc_df intervals b s in
  sound_step p var_dates [location] out.1 s out.2.
Proof.
  cbn zeta. unfold replicate_body.
  case_bool_decide as Hboot.
  - unfold mbind, M_bind, lift, resample.
    destruct (column loc_df "mutations") as [mutations|e]; cbn beta iota;
      [|apply sound_step_refl].
    destruct (resample_mutations (rng_state s) loc_df (unique mutations))
      as [[df' g]|e]; cbn beta iota; [|apply sound_step_refl].
    destruct (windows_effect location df' intervals) as (res & nr & nc & He & HS & _).
    rewrite (He _). cbn. by exists nr, nc.
  - destruct (windows_effect location loc_df intervals) as (res & nr & nc & He & HS & _).
    unfold mbind, M_bind, mret, M_ret. by eapply effect_step.
Qed.

Lemma location_body_step df_tally intervals location s :
  let out := location_body resample_mutations deconv_all p no_date no_loc var_dates
               df_tally intervals location s in
  sound_step p var_dates [location] out.1 s out.2.
Proof.
  cbn zeta. unfold location_body.
  assert (∀ loc_df s,
            sound_step p var_dates [location]
              (for_ (if bool_decide (1 < bootstrap p)%Z then range (bootstrap p)
                     else [0%Z])
                 (replicate_body resample_mutations deconv_all p no_date var_dates
                    location loc_df intervals) s).1
              s
              (for_ (if bool_decide (1 < bootstrap p)%Z then range (bootstrap p)
                     else [0%Z])
                 (replicate_body resample_mutations deconv_all p no_date var_dates
                    location loc_df intervals) s).2) as Hreps.
  { intros loc_df s0.
    apply (for_step (sound_step p var_dates [location])).
    - intros s1. apply sound_step_refl.
    - intros r s1 s2 s3. apply sound_step_trans.
    - intros b s1 _. apply replicate_body_step. }
  destruct (negb no_loc).
  - unfold mbind, M_bind, lift, mret, M_ret.
    destruct (require_column df_tally "location") as [[]|e]; cbn beta iota;
      [|apply sound_step_refl].
    apply Hreps.
  - apply Hreps.
Qed.

Lemma deconvolve_all_step df_tally locations_list intervals s :
  let out := deconvolve_all resample_mutations deconv_all p no_date no_loc var_dates
               df_tally locations_list intervals s in
  sound_step p var_dates locations_list out.1 s out.2.
Proof.
  cbn zeta. unfold deconvolve_all.
  apply (for_step (sound_step p var_dates locations_list)).
  - intros s1. apply sound_step_refl.
  - intros r s1 s2 s3. apply sound_step_trans.
  - intros location s1 Hin.
    eapply sound_step_mono; [|apply location_body_step].
    intros x Hx. apply list_elem_of_singleton in Hx as ->. done.
Qed.

(** X15 (lines 352-421).  Whatever the loops run into, every call they have
    made to the regression engine carries the kernel, the regressor, the
    confidence estimator and the parameters read from the deconvolution
    document, weights exactly when bootstrapping, and a design matrix that is
    not empty and whose columns are the variants of one period of the schedule
    followed by [undetermined]. *)
Theorem engine_calls_configured df_tally locations_list intervals s :
  ∃ newc,
    calls (deconvolve_all resample_mutations deconv_all p no_date no_loc var_dates
             df_tally locations_list intervals s).2
    = calls s ++ newc
    ∧ Forall (configured_call p var_dates) newc.
Proof.
  destruct (deconvolve_all_step df_tally locations_list intervals s)
    as (nr & nc & _ & Hc & Hgood & _).
  exists nc. done.
Qed.

(** X16 (lines 422-442).  When the loops end normally, the collected results
    hold three tables for every call made to the engine with a confidence
    estimator (fit, lower and upper band) and one without; each collected
    table has the column [location], filled with a location of the list, and
    with a confidence estimator the column [estimate]. *)
Theorem fits_collected df_tally locations_list intervals s s' :
  deconvolve_all resample_mutations deconv_all p no_date no_loc var_dates
    df_tally locations_list intervals s = (Ok tt, s') →
  ∃ newr newc,
    all_deconv s' = all_deconv s ++ newr ∧
    calls s' = calls s ++ newc ∧
    length newr = tables_per_fit p * length newc ∧
    Forall (tagged_result p locations_list) newr.
Proof.
  intros H.
  pose proof (deconvolve_all_step df_tally locations_list intervals s) as Hstep.
  cbn zeta in Hstep. rewrite H in Hstep.
  destruct Hstep as (nr & nc & Hr & Hc & _ & Htag & _ & Hlen).
  exists nr, nc. split; [done|]. split; [done|]. split; [by apply Hlen | done].
Qed.

End LoopSteps.

(** * Runs without bootstrap, and how often the engine is called *)

Section PlainRuns.
Import Lollipop Cli.

Context {rng : Type}.
Variable np_random_seed : option Z → rng.
Variable resample_mutations : rng → table → list cell → result (table * rng).
Variable deconv_all : engine_call → result kdec.
Variable astype_str : cell → string.
Variable np_exp : Qc → Qc.
Variable float_repr : Qc → string.
Variable json_quote : string → string.

Lemma read_params_bootstrap d nd p :
  read_params d nd = Ok p → bootstrap p = default 0%Z (bootstrap_key d).
Proof.
  unfold read_params. intros H. apply bind_ok in H as (? & _ & H).
  by injection H as <-.
Qed.

(** Without bootstrap the loops have one effect, whatever the state of the
    generator; on a table without rows they do nothing. *)
Lemma deconvolve_all_effect p no_date no_loc var_dates df_tally locations_list
    intervals :
  ¬ (1 < bootstrap p)%Z →
  ∃ res nr nc,
    has_effect (deconvolve_all resample_mutations deconv_all p no_date no_loc
                  var_dates df_tally locations_list intervals) res nr nc
    ∧ sound_effect p var_dates locations_list res nr nc
    ∧ (rows df_tally = [] →
       (no_loc = true ∨ "location" ∈ columns df_tally) →
       (no_date = true ∨ "date" ∈ columns df_tally) →
       res = Ok tt ∧ nr = [] ∧ nc = []).
Proof.
  intros Hboot.
  set (E := rows df_tally = [] ∧ (no_loc = true ∨ "location" ∈ columns df_tally)
            ∧ (no_date = true ∨ "date" ∈ columns df_tally)).
  set (S := λ locs res nr nc,
         sound_effect p var_dates locs res nr nc
         ∧ (E → res = Ok tt ∧ nr = [] ∧ nc = [])).
  assert (∀ locs, S locs (Ok tt) [] []) as Hnil.
  { intros locs. split; [apply sound_effect_nil | done]. }
  assert (∀ locs r nr1 nc1 nr2 nc2,
            S locs (Ok tt) nr1 nc1 → S locs r nr2 nc2 →
            S locs r (nr1 ++ nr2) (nc1 ++ nc2)) as Happ.
  { intros locs r nr1 nc1 nr2 nc2 [H1 E1] [H2 E2].
    split; [by apply sound_effect_app|]. intros HE.
    destruct (E1 HE) as (_ & -> & ->). destruct (E2 HE) as (-> & -> & ->). done. }
  assert (∀ location loc_df,
            (E → rows loc_df = [] ∧ (no_date = true ∨ "date" ∈ columns loc_df)) →
            ∃ res nr nc,
              has_effect
                (for_ (if bool_decide (1 < bootstrap p)%Z then range (bootstrap p)
                       else [0%Z])
                   (replicate_body resample_mutations deconv_all p no_date var_dates
                      location loc_df intervals)) res nr nc
              ∧ S [location] res nr nc) as Hreps.
  { intros location loc_df Hloc. apply (for_effect (S [location])); [done | apply Happ|].
    intros b _.
    destruct (windows_effect (rng:=rng) deconv_all p no_date var_dates location loc_df intervals)
      as (res & nr & nc & He & HS & Hempty).
    exists res, nr, nc. split.
    - intros s. unfold replicate_body. rewrite bool_decide_eq_false_2 by done.
      unfold mbind, M_bind, mret, M_ret. apply He.
    - split; [done|]. intros HE. destruct (Hloc HE) as [Hr Hd]. by apply Hempty. }
  assert (∃ res nr nc,
            has_effect (deconvolve_all resample_mutations deconv_all p no_date no_loc
                          var_dates df_tally locations_list intervals) res nr nc
            ∧ S locations_list res nr nc) as (res & nr & nc & He & HS & Hempty).
  { unfold deconvolve_all. apply (for_effect (S locations_list)); [done | apply Happ|].
    intros location Hin.
    assert (∃ res nr nc,
              has_effect (location_body resample_mutations deconv_all p no_date no_loc
                            var_dates df_tally intervals location) res nr nc
              ∧ S [location] res nr nc) as (res & nr & nc & He & HS & Hempty).
    { unfold location_body. destruct no_loc eqn:Hnl; cbn [negb].
      - destruct (Hreps location df_tally) as (res & nr & nc & He & HS).
        { intros (Hr & _ & Hd). done. }
        exists res, nr, nc. split; [|done]. intros s.
        unfold mbind, M_bind, mret, M_ret. apply He.
      - destruct (require_column df_tally "location") as [[]|e] eqn:Hreq.
        + destruct (Hreps location
                      (select (λ r, bool_decide (at_ r "location" = location)) df_tally))
            as (res & nr & nc & He & HS).
          { intros (Hr & _ & Hd). unfold select. cbn [rows columns]. rewrite Hr.
            split; [done|]. done. }
          exists res, nr, nc. split; [|done]. intros s.
          unfold mbind, M_bind, mret, M_ret, lift. apply He.
        + exists (Err e), [], []. split.
          * intros s. unfold mbind, M_bind, lift. by rewrite driver_eta.
          * split; [apply sound_effect_nil|]. intros (_ & [? | Hc] & _); [done|].
            unfold require_column in Hreq.
            by rewrite (proj2 (has_column_true _ _) Hc) in Hreq. }
    exists res, nr, nc. split; [done|]. split; [|done].
    eapply sound_effect_mono; [|exact HS].
    intros x Hx. apply list_elem_of_singleton in Hx as ->. done. }
  exists res, nr, nc. split; [done|]. split; [done|].
  intros H1 H2 H3. by apply Hempty.
Qed.

(** A run without bootstrap ends in the same way for every seed. *)
Lemma run_plain i st s :
  (default 0 (bootstrap_key (deconv i)) ≤ 1)%Z →
  ∃ (res : result output) nr nc, ∀ sd,
    run np_random_seed resample_mutations deconv_all astype_str np_exp
      float_repr json_quote (with_seed i sd) st s
    = (res, Driver (np_random_seed sd) (all_deconv s ++ nr) (calls s ++ nc)).
Proof.
  intros Hboot.
  destruct (read_params (deconv i) (pr_no_date st)) as [p|e] eqn:Hp.
  - destruct (deconvolve_all_effect p (pr_no_date st) (pr_no_loc st) (pr_var_dates st)
                (pr_df_tally st) (pr_locations_list st) (pr_date_intervals st))
      as (res & nr & nc & He & _).
    { rewrite (read_params_bootstrap _ _ _ Hp). lia. }
    destruct res as [[]|e].
    + eexists _, nr, nc. intros sd. unfold run.
      cbn [with_seed deconv seed fmt_columns out_json].
      unfold mbind, M_bind, seed_generator, lift. rewrite Hp. cbn beta iota.
      rewrite (He _). cbn [rng_state all_deconv calls]. unfold collected.
      cbn beta iota. cbn [rng_state all_deconv calls]. reflexivity.
    + exists (Err e), nr, nc. intros sd. unfold run.
      cbn [with_seed deconv seed fmt_columns out_json].
      unfold mbind, M_bind, seed_generator, lift. rewrite Hp. cbn beta iota.
      rewrite (He _). reflexivity.
  - exists (Err e), [], []. intros sd. unfold run.
    cbn [with_seed deconv seed fmt_columns out_json].
    unfold mbind, M_bind, seed_generator, lift. rewrite Hp. cbn beta iota.
    by rewrite !app_nil_r.
Qed.

(** X17 (lines 311-312, 366-371).  Without bootstrap the program seeds the
    generator and never draws from it, and the seed is without influence: two
    runs that differ in the seed only make the same calls to the regression
    engine and, the engine answering a call by its arguments, collect the same
    results and end alike, with the same files or the same exception. *)
Theorem seed_irrelevant_without_bootstrap i st seed1 seed2 s :
  (default 0 (bootstrap_key (deconv i)) ≤ 1)%Z →
  let out1 := run np_random_seed resample_mutations deconv_all astype_str np_exp
                float_repr json_quote (with_seed i seed1) st s in
  let out2 := run np_random_seed resample_mutations deconv_all astype_str np_exp
                float_repr json_quote (with_seed i seed2) st s in
  rng_state out1.2 = np_random_seed seed1 ∧ rng_state out2.2 = np_random_seed seed2
  ∧ out1.1 = out2.1 ∧ all_deconv out1.2 = all_deconv out2.2
  ∧ calls out1.2 = calls out2.2.
Proof.
  intros Hboot. destruct (run_plain i st s Hboot) as (res & nr & nc & H).
  cbn zeta. rewrite !H. done.
Qed.


Lemma for_calls_bound {A} (xs : list A) (body : A → M rng unit) n :
  (∀ x s, length (calls (body x s).2) ≤ length (calls s) + n) →
  ∀ s, length (calls (for_ xs body s).2) ≤ length (calls s) + length xs * n.
Proof.
  intros Hbody. induction xs as [|x xs IH]; intros s.
  - cbn. lia.
  - cbn [for_ length]. unfold mbind, M_bind. pose proof (Hbody x s) as Hx.
    destruct (body x s) as [[[]|e] s1]; cbn [snd] in *; [|lia].
    pose proof (IH s1). lia.
Qed.

(** X19 (lines 352-421).  The regression engine is called at most once for
    every location, replicate and period. *)
Theorem engine_calls_bounded p no_date no_loc var_dates df_tally locations_list
    intervals s :
  length (calls (deconvolve_all resample_mutations deconv_all p no_date no_loc
                   var_dates df_tally locations_list intervals s).2)
  ≤ length (calls s)
    + length locations_list * (replicates (bootstrap p) * length intervals).
Proof.
  unfold deconvolve_all. apply for_calls_bound. intros location s1.
  assert (∀ temp_dfb s2,
            length (calls (for_ intervals
                             (window_body (rng:=rng) deconv_all p no_date var_dates
                                location temp_dfb) s2).2)
            ≤ length (calls s2) + length intervals * 1) as Hwindows.
  { intros temp_dfb s2. apply for_calls_bound. intros w s3.
    destruct (window_body_effect (rng:=rng) deconv_all p no_date var_dates location
                temp_dfb w) as (res & nr & nc & He & _ & Hone & _).
    rewrite (He s3). cbn. rewrite length_app. lia. }
  assert (∀ loc_df b s2,
            length (calls (replicate_body resample_mutations deconv_all p no_date
                             var_dates location loc_df intervals b s2).2)
            ≤ length (calls s2) + length intervals) as Hrep.
  { intros loc_df b s2. unfold replicate_body. case_bool_decide.
    - unfold mbind, M_bind, lift, resample.
      destruct (column loc_df "mutations") as [mutations|e]; cbn beta iota;
        [|cbn; lia].
      destruct (resample_mutations (rng_state s2) loc_df (unique mutations))
        as [[df' g]|e]; cbn beta iota; [|cbn; lia].
      pose proof (Hwindows df' (Driver g (all_deconv s2) (calls s2))) as Hw.
      cbn [calls] in Hw. lia.
    - unfold mbind, M_bind, mret, M_ret. pose proof (Hwindows loc_df s2). lia. }
  assert (length (if bool_decide (1 < bootstrap p)%Z then range (bootstrap p)
                  else [0%Z]) = replicates (bootstrap p)) as Hlen.
  { unfold replicates, range. case_bool_decide; [|done].
    by rewrite length_fmap, length_seq. }
  unfold location_body. rewrite <-Hlen.
  destruct (negb no_loc).
  - unfold mbind, M_bind, lift, mret, M_ret.
    destruct (require_column df_tally "location") as [[]|e]; cbn beta iota;
      [|cbn; lia].
    apply for_calls_bound. intros b s2. apply Hrep.
  - unfold mbind, M_bind, mret, M_ret.
    apply for_calls_bound. intros b s2. apply Hrep.
Qed.

End PlainRuns.

(** * The deconvolution parameters *)

Section ParameterFacts.
Import Lollipop Cli.

Context {rng : Type}.
Variable resample_mutations : rng → table → list cell → result (table * rng).
Variable deconv_all : engine_call → result kdec.

Lemma dict_get_set_eq {V} (d : dict string V) k v :
  dict_get (dict_set d k v) k = Some v.
Proof.
  induction d as [|[k' v'] d IH]; cbn [dict_set dict_get].
  - by rewrite decide_True.
  - destruct (decide (k' = k)) as [-> | Hne]; cbn [dict_get].
    + by rewrite decide_True.
    + by rewrite decide_False.
Qed.

Lemma dict_get_set_ne {V} (d : dict string V) k k' v :
  k ≠ k' → dict_get (dict_set d k v) k' = dict_get d k'.
Proof.
  intros Hne. induction d as [|[k0 v0] d IH]; cbn [dict_set dict_get].
  - by rewrite decide_False.
  - destruct (decide (k0 = k)) as [-> | Hne0]; cbn [dict_get].
    + by rewrite !decide_False.
    + destruct (decide (k0 = k')); [done | exact IH].
Qed.

(** X20 (lines 319-322, 412-420).  In the date-less mode the kernel is given
    the bandwidth 1e-17 whatever the deconvolution document says, and its
    other parameters as the document has them: every call the loops make to
    the regression engine carries that bandwidth.  With dates the kernel
    parameters are those of the document. *)
Theorem no_date_overrides_bandwidth d nd p no_loc var_dates df_tally locations_list
    intervals s :
  read_params d nd = Ok p →
  (nd = true →
     dict_get (kernel_params p) "bandwidth" = Some (Num tiny_bandwidth) ∧
     (∀ k, k ≠ "bandwidth" →
        dict_get (kernel_params p) k = dict_get (default [] (kernel_params_key d)) k) ∧
     ∃ newc,
       calls (deconvolve_all resample_mutations deconv_all p nd no_loc var_dates
                df_tally locations_list intervals s).2 = calls s ++ newc ∧
       Forall (λ c, dict_get (ec_kernel c).2 "bandwidth" = Some (Num tiny_bandwidth))
              newc)
  ∧ (nd = false → kernel_params p = default [] (kernel_params_key d)).
Proof.
  intros Hp.
  destruct (deconvolve_all_step resample_mutations deconv_all p nd no_loc var_dates
              df_tally locations_list intervals s) as (nr & nc & _ & Hc & Hgood & _).
  unfold read_params in Hp. apply bind_ok in Hp as (? & _ & Hp).
  injection Hp as <-. cbn [kernel_params] in *. split; intros ->.
  - split; [apply dict_get_set_eq|]. split.
    + intros k Hk. by apply dict_get_set_ne.
    + exists nc. split; [exact Hc|].
      eapply Forall_impl; [exact Hgood|]. intros c (Hkernel & _).
      rewrite Hkernel. cbn [snd kernel_params]. apply dict_get_set_eq.
  - done.
Qed.

(** X21 (lines 318-332).  Only the names [box], [robust] and [wald] select
    something else than the defaults: any other kernel name, or none, gives
    the Gaussian kernel, any other regressor the non-negative least squares,
    and any other confidence estimator none at all, in which case no name and
    no bounds are reported. *)
Theorem unknown_names_fall_back d nd p :
  read_params d nd = Ok p →
  (kernel p = BoxKernel ↔ kernel_key d = Some "box") ∧
  (kernel p = GaussianKernel ↔ kernel_key d ≠ Some "box") ∧
  (regressor p = RobustReg ↔ regressor_key d = Some "robust") ∧
  (regressor p = NnlsReg ↔ regressor_key d ≠ Some "robust") ∧
  (have_confint p = true ↔ confint_key d = Some "wald") ∧
  (have_confint p = true → confint p = WaldConfint ∧ confint_name p = Some "Wald") ∧
  (have_confint p = false → confint p = NullConfint ∧ confint_name p = None).
Proof.
  unfold read_params. intros H. apply bind_ok in H as (? & _ & H).
  injection H as <-.
  cbn [kernel regressor have_confint confint confint_name].
  assert (∀ k, get_cls kernels k GaussianKernel = BoxKernel ↔ k = Some "box") as Hk.
  { intros [s|]; unfold get_cls; cbn; [|done].
    repeat (destruct (decide _) as [<- | ?]; cbn; [done|]).
    split; [done | congruence]. }
  assert (∀ k, get_cls regressors k NnlsReg = RobustReg ↔ k = Some "robust") as Hr.
  { intros [s|]; unfold get_cls; cbn; [|done].
    repeat (destruct (decide _) as [<- | ?]; cbn; [done|]).
    split; [done | congruence]. }
  assert (∀ k, get_cls confints k NullConfint = WaldConfint ↔ k = Some "wald") as Hc.
  { intros [s|]; unfold get_cls; cbn; [|done].
    repeat (destruct (decide _) as [<- | ?]; cbn; [done|]).
    split; [done | congruence]. }
  assert (∀ c : confint_cls, bool_decide (c ≠ NullConfint) = true ↔ c = WaldConfint)
    as Hhave.
  { intros c. rewrite bool_decide_eq_true. by destruct c. }
  split; [apply Hk|]. split.
  { rewrite <-Hk. destruct (get_cls kernels _ _); naive_solver. }
  split; [apply Hr|]. split.
  { rewrite <-Hr. destruct (get_cls regressors _ _); naive_solver. }
  split; [by rewrite Hhave, Hc|]. split.
  - intros Hh. rewrite Hh. pose proof (proj1 (Hhave _) Hh) as Hw.
    split; [done|]. apply Hc in Hw. by rewrite Hw.
  - intros Hh. rewrite Hh. split; [|done].
    apply bool_decide_eq_false in Hh.
    destruct (get_cls confints _ _); [done|]. exfalso. by apply Hh.
Qed.

End ParameterFacts.

(** * The script [src/deconvolute.py] *)

Section ScriptFacts.
Import Lollipop.

Context {rng : Type}.
Variable np_random_seed : option Z → rng.
Variable resample_mutations : rng → table → list cell → result (table * rng).
Variable deconv_all : engine_call → result kdec.

(** A loop whose bodies each add [n] calls and [k] tables adds them as often
    as it has rounds. *)
Lemma for_counts {A} (xs : list A) (body : A → M rng unit) (n k : nat) :
  (∀ x s s', body x s = (Ok tt, s') →
     length (calls s') = length (calls s) + n
     ∧ length (all_deconv s') = length (all_deconv s) + k) →
  ∀ s s', for_ xs body s = (Ok tt, s') →
    length (calls s') = length (calls s) + length xs * n
    ∧ length (all_deconv s') = length (all_deconv s) + length xs * k.
Proof.
  intros Hbody. induction xs as [|x xs IH]; intros s s'.
  - cbn. intros [= <-]. lia.
  - cbn [for_ length]. unfold mbind, M_bind.
    destruct (body x s) as [[[]|e] s1] eqn:Hx; [|intros [=]].
    intros Hrest. destruct (Hbody x s s1 Hx) as [H1 H2].
    destruct (IH s1 s' Hrest) as [H3 H4]. lia.
Qed.

Lemma script_replicate_counts p variants_list city temp_df b s s' :
  Script.replicate_body resample_mutations deconv_all p variants_list city temp_df b s
  = (Ok tt, s') →
  length (calls s') = length (calls s) + 1
  ∧ length (all_deconv s') = length (all_deconv s)
                             + (if Script.have_confint p then 3 else 1).
Proof.
  unfold Script.replicate_body.
  assert (∀ (temp_df2 : table) (weights : option (list cell)) (s0 : driver rng),
            length (calls s0) = length (calls s) →
            length (all_deconv s0) = length (all_deconv s) →
            (lift (select_columns (variants_list ++ ["undetermined"]) temp_df2)
             ≫= λ design,
             lift (column temp_df2 "frac") ≫= λ frac,
             lift (column temp_df2 "date") ≫= λ date,
             kernel_deconv deconv_all
               {| ec_design := design; ec_frac := frac; ec_date := date;
                  ec_kernel := (Script.kernel p, Script.kernel_params p);
                  ec_reg := (Script.regressor p, Script.regressor_params p);
                  ec_confint := (Script.confint p, Script.confint_params p);
                  ec_weights := weights;
                  ec_deconv_params := Script.deconv_params p |}
             ≫= Script.collect p city) s0 = (Ok tt, s') →
            length (calls s') = length (calls s) + 1
            ∧ length (all_deconv s') = length (all_deconv s)
                                       + (if Script.have_confint p then 3 else 1))
    as Hfit.
  { intros temp_df2 weights s0 Hc Hr. unfold mbind, M_bind, lift, kernel_deconv.
    destruct (select_columns _ temp_df2) as [design|e]; cbn beta iota; [|intros [=]].
    destruct (column temp_df2 "frac") as [frac|e]; cbn beta iota; [|intros [=]].
    destruct (column temp_df2 "date") as [date|e]; cbn beta iota; [|intros [=]].
    destruct (deconv_all _) as [k|e]; cbn beta iota; [|intros [=]].
    unfold Script.collect, mbind, M_bind, append_result.
    destruct (Script.have_confint p); cbn; intros [= <-]; cbn;
      rewrite ?length_app; cbn; lia. }
  case_bool_decide.
  - unfold mbind at 1. unfold M_bind at 1.
    unfold mbind at 1. unfold M_bind at 1. unfold lift at 1.
    destruct (column temp_df "mutations") as [mutations|e]; cbn beta iota;
      [|intros [=]].
    unfold mbind at 1. unfold M_bind at 1. unfold resample.
    destruct (resample_mutations (rng_state s) temp_df (unique mutations))
      as [[df' g]|e]; cbn beta iota; [|intros [=]].
    unfold mbind at 1. unfold M_bind at 1. unfold lift at 1.
    destruct (column df' "resample_value") as [weights|e]; cbn beta iota;
      [|intros [=]].
    unfold mret, M_ret. cbn beta iota. apply Hfit; done.
  - unfold mbind at 1. unfold M_bind at 1. unfold mret, M_ret. cbn beta iota.
    apply Hfit; done.
Qed.

(** X22 (lines 146-195 of [src/deconvolute.py]).  The script has no periods
    and skips nothing: when it ends normally it has called the regression
    engine exactly once for every city and replicate, and has collected three
    tables for each call with a confidence estimator and one without. *)
Theorem script_one_fit_per_city_and_replicate i df_tally cities_list s long s' :
  Script.run np_random_seed resample_mutations deconv_all i df_tally cities_list s
  = (Ok long, s') →
  ∃ p, Script.read_params (Script.deconv i) = Ok p ∧
    length (calls s')
    = length (calls s) + length cities_list * replicates (Script.bootstrap p) ∧
    length (all_deconv s')
    = length (all_deconv s)
      + length cities_list
        * (replicates (Script.bootstrap p) * (if Script.have_confint p then 3 else 1)).
Proof.
  unfold Script.run.
  unfold mbind at 1. unfold M_bind at 1. unfold seed_generator.
  unfold mbind at 1. unfold M_bind at 1. unfold lift at 1.
  destruct (Script.read_params (Script.deconv i)) as [p|e]; cbn beta iota;
    [|intros [=]].
  unfold mbind at 1. unfold M_bind at 1.
  destruct (for_ cities_list _ _) as [[[]|e] s1] eqn:Hloop; [|intros [=]].
  unfold mbind at 1. unfold M_bind at 1. unfold collected, lift. cbn beta iota.
  intros [= _ <-]. exists p. split; [done|].
  apply (for_counts cities_list _ (replicates (Script.bootstrap p))
           (replicates (Script.bootstrap p) * (if Script.have_confint p then 3 else 1)))
    in Hloop; [cbn [calls all_deconv] in Hloop; lia|].
  intros city s2 s3. unfold Script.city_body.
  unfold mbind at 1. unfold M_bind at 1. unfold lift at 1.
  destruct (require_column df_tally "plantname") as [[]|e]; cbn beta iota;
    [|intros [=]].
  intros Hreps.
  apply (for_counts _ _ 1 (if Script.have_confint p then 3 else 1)) in Hreps.
  - assert (length (if bool_decide (1 < Script.bootstrap p)%Z
                    then range (Script.bootstrap p) else [0%Z])
            = replicates (Script.bootstrap p)) as Hlen.
    { unfold replicates, range. case_bool_decide; [|done].
      by rewrite length_fmap, length_seq. }
    rewrite Hlen in Hreps. lia.
  - intros b s4 s5. apply script_replicate_counts.
Qed.

End ScriptFacts.

(** * Aggregation and output *)

Section OutputFacts.
Import Lollipop Cli.

Variable astype_str : cell → string.
Variable np_exp : Qc → Qc.
Variable float_repr : Qc → string.
Variable json_quote : string → string.

(** X23 (lines 520-527).  With a confidence estimator the back-transform
    reads [confint_params["scale"]]: when the deconvolution document gives no
    scale, post-processing never returns, and once the aggregated frame is
    sorted what is raised is the [KeyError] of the missing key. *)
Theorem confint_needs_scale p :
  have_confint p = true →
  dict_get (confint_params p) "scale" = None →
  (∀ t, reverse_logit np_exp p t = Err (KeyError "scale"))
  ∧ ∀ variants_list results,
      ∃ e, post_process np_exp p variants_list results = Err e.
Proof.
  intros Hc Hs.
  assert (∀ t, reverse_logit np_exp p t = Err (KeyError "scale")) as Hrev.
  { intros t. unfold reverse_logit. by rewrite Hc, Hs. }
  split; [done|]. intros vl results. unfold post_process.
  destruct (long_form p vl results) as [flat|e]; [|by eexists].
  cbn [mbind result_bind]. unfold aggregate.
  destruct (if bool_decide (1 < bootstrap p)%Z then groupby_agg (reset_index flat)
            else if have_confint p then pivot_estimate (reset_index flat)
                 else as_is (reset_index flat)) as [agg|e]; [|by eexists].
  cbn [mbind result_bind].
  destruct (sort_values _ _) as [sorted|e]; [|by eexists].
  cbn [mbind result_bind]. rewrite Hrev. by eexists.
Qed.

Lemma cell_leb_total x y : cell_leb x y = true ∨ cell_leb y x = true.
Proof.
  destruct x as [|a|a|a], y as [|b|b|b]; cbn; try (by left); try (by right).
  - rewrite !bool_decide_eq_true. destruct (Qclt_le_dec a b) as [Hlt | Hle].
    + left. by apply Qclt_le_weak.
    + by right.
  - apply String.leb_total.
  - rewrite !bool_decide_eq_true. lia.
Qed.

Global Instance key_le_total : Total key_le.
Proof.
  intros k1. unfold key_le. induction k1 as [|x k1 IH]; intros k2; [by left|].
  destruct k2 as [|y k2]; [by right|]. cbn [key_leb].
  destruct (decide (x = y)) as [-> | Hne].
  - rewrite decide_True by done. apply IH.
  - rewrite (decide_False (P := y = x)) by congruence. apply cell_leb_total.
Qed.

Global Instance row_le_total by_ : Total (row_le by_).
Proof. intros r1 r2. unfold row_le. apply key_le_total. Qed.

Lemma Sorted_same_keys (by_ : list string) (l l' : list row) :
  Forall2 (λ r r', key_of by_ r' = key_of by_ r) l l' →
  Sorted (row_le by_) l → Sorted (row_le by_) l'.
Proof.
  intros HF. induction HF as [|r r' l l' Hk HF IH]; intros HS; [constructor|].
  apply Sorted_inv in HS as [HS Hhd]. constructor; [by apply IH|].
  destruct HF as [|r2 r2' l l' Hk2 _]; [constructor|].
  apply HdRel_inv in Hhd. constructor. unfold row_le in *. by rewrite Hk, Hk2.
Qed.

(** X24 (lines 519-527).  The aggregated frame is sorted by location, variant
    and date: the key of every row is at most the key of the row after it, in
    every mode, the back-transform of the bounds included. *)
Theorem aggregated_frame_sorted p deconv_df_flat out :
  aggregate np_exp p deconv_df_flat = Ok out →
  Sorted (row_le ["location"; "variant"; "date"]) (rows out).
Proof.
  unfold aggregate. intros H.
  apply bind_ok in H as (agg & _ & H).
  apply bind_ok in H as (sorted & Hsorted & H).
  assert (Sorted (row_le ["location"; "variant"; "date"]) (rows sorted)) as HS.
  { unfold sort_values in Hsorted. apply bind_ok in Hsorted as (? & _ & Hsorted).
    injection Hsorted as <-. cbn [rows]. apply Sorted_merge_sort. apply _. }
  apply reverse_logit_ok in H.
  eapply Sorted_same_keys; [|exact HS].
  eapply Forall2_impl; [exact H|]. intros r r' (_ & Hsame & _).
  unfold key_of. cbn [fmap list_fmap]. by rewrite !Hsame.
Qed.

(** ** No [NaN] is left in the text *)

Lemma replace_unfold c1 rest :
  replace_NaN_null (String c1 rest)
  = if starts_NaN (String c1 rest)
    then "null" +:+ replace_NaN_null (string_drop 2 rest)
    else String c1 (replace_NaN_null rest).
Proof.
  destruct rest as [|c2 [|c3 r]].
  - cbn [starts_NaN]. by rewrite andb_false_r.
  - cbn [starts_NaN]. by rewrite !andb_false_r.
  - change (replace_NaN_null (String c1 (String c2 (String c3 r))))
      with (if is_NaN c1 c2 c3 then "null" +:+ replace_NaN_null r
            else String c1 (replace_NaN_null (String c2 (String c3 r)))).
    cbn [starts_NaN string_drop]. unfold is_NaN. by rewrite andb_assoc.
Qed.

Lemma starts_NaN_inv s :
  starts_NaN s = true → ∃ r, s = String "N" (String "a" (String "N" r)).
Proof.
  destruct s as [|c1 [|c2 [|c3 r]]]; cbn [starts_NaN];
    rewrite ?andb_false_r; try discriminate.
  rewrite !andb_true_iff, !bool_decide_eq_true. intros (-> & -> & ->). eauto.
Qed.

Lemma replace_head s c t :
  replace_NaN_null s = String c t → c ≠ "n"%char →
  ∃ t0, s = String c t0 ∧ t = replace_NaN_null t0.
Proof.
  destruct s as [|c1 rest]; [discriminate|]. rewrite replace_unfold.
  destruct (starts_NaN (String c1 rest)).
  - rewrite string_app_cons. intros [= <- _] Hc. done.
  - intros [= <- <-] _. eauto.
Qed.

Lemma replace_has_no_NaN s : has_NaN (replace_NaN_null s) = false.
Proof.
  enough (∀ n s, String.length s ≤ n → has_NaN (replace_NaN_null s) = false) as Hn
    by (by apply (Hn (String.length s))).
  clear s. induction n as [|n IH]; intros s Hlen.
  - destruct s; [done | cbn in Hlen; lia].
  - destruct s as [|c1 rest]; [done|]. rewrite replace_unfold.
    destruct (starts_NaN (String c1 rest)) eqn:Hst.
    + apply starts_NaN_inv in Hst as (r & [= -> ->]).
      cbn [string_drop]. rewrite !string_app_cons, string_app_nil_l.
      cbn [has_NaN starts_NaN]. cbn [bool_decide decide_rel andb orb].
      apply IH. cbn in Hlen. lia.
    + cbn [has_NaN]. rewrite (IH rest) by (cbn in Hlen; lia). rewrite orb_false_r.
      destruct (starts_NaN (String c1 (replace_NaN_null rest))) eqn:Hs'; [|done].
      exfalso. apply starts_NaN_inv in Hs' as (t & [= -> Hrest]).
      apply replace_head in Hrest as (r1 & -> & Hr1); [|done].
      symmetry in Hr1. apply replace_head in Hr1 as (r2 & -> & _); [|done].
      discriminate Hst.
Qed.

Lemma within_has_NaN s : within "NaN" s → has_NaN s = true.
Proof.
  intros (a & b & ->). induction a as [|c a IH].
  - reflexivity.
  - rewrite string_app_cons. cbn [has_NaN]. rewrite IH. apply orb_true_r.
Qed.

(** X25 (lines 593-596).  The text written to the JSON file contains [NaN]
    nowhere. *)
Theorem json_text_has_no_NaN p no_date deconv_df_agg text :
  json_output astype_str float_repr json_quote p no_date deconv_df_agg = Ok text →
  ¬ within "NaN" text.
Proof.
  unfold json_output. intros H.
  apply bind_ok in H as (d & _ & H). apply bind_ok in H as (t & _ & H).
  injection H as <-. intros Hin. apply within_has_NaN in Hin.
  by rewrite replace_has_no_NaN in Hin.
Qed.

(** X26 (lines 568-591).  In the JSON document every location carries an
    entry for every variant of the aggregated frame, in order of first
    appearance, also for variants never estimated at that location; the
    entry holds one record for each row of that variant and location. *)
Theorem json_every_variant_under_every_location p no_date deconv_df_agg
    (d : update_data) :
  build_update_data astype_str p no_date deconv_df_agg = Ok d →
  ∀ loc per_var, (loc, per_var) ∈ d →
    per_var.*1 = unique ((λ r, at_ r "variant") <$> rows deconv_df_agg) ∧
    ∀ var recs, (var, recs) ∈ per_var →
      length recs
      = length (filter (λ r, at_ r "variant" = var ∧ at_ r "location" = loc)
                  (rows deconv_df_agg)).
Proof.
  unfold build_update_data. intros H.
  apply bind_ok in H as (loc_uniq & Hloc & H).
  apply bind_ok in H as (var_uniq & Hvar & H).
  apply map_m_ok in H.
  assert (var_uniq = unique ((λ r, at_ r "variant") <$> rows deconv_df_agg)) as ->.
  { unfold column in Hvar. destruct (require_column deconv_df_agg "variant");
      cbn in Hvar; [|discriminate]. by injection Hvar as <-. }
  intros loc per_var Hd.
  apply list_elem_of_lookup in Hd as [i Hi].
  destruct (Forall2_lookup_r _ _ _ _ _ H Hi) as (loc0 & _ & Hl). cbn beta in Hl.
  apply bind_ok in Hl as (pv & Hpvs & Hl). injection Hl as -> ->.
  apply map_m_ok in Hpvs. split.
  - apply list_eq_Forall2. apply Forall2_fmap_l, Forall2_flip.
    eapply Forall2_impl; [exact Hpvs|]. intros var [var' recs] Hv. cbn beta in Hv.
    apply bind_ok in Hv as (us & _ & Hv). by injection Hv as -> _.
  - intros var recs Hpv.
    apply list_elem_of_lookup in Hpv as [j Hj].
    destruct (Forall2_lookup_r _ _ _ _ _ Hpvs Hj) as (var0 & _ & Hv). cbn beta in Hv.
    apply bind_ok in Hv as (us & _ & Hv). injection Hv as -> <-.
    rewrite length_fmap. destruct (negb no_date); by rewrite length_fmap.
Qed.

End OutputFacts.

(** * The loops, the parameters and the output at concrete inputs *)

Section LoopInstances.
Import Lollipop.

Lemma fits_collected_witness :
  ∃ s' newr newc,
    Cli.deconvolve_all idle_resampler halves_engine plain_params false false
      [(18900%Z, ["Alpha"; "Delta"])] example_prepared [Str "ZH"] [(18900%Z, None)]
      (Driver 0 [] [])
    = (Ok tt, s')
    ∧ all_deconv s' = newr ∧ calls s' = newc
    ∧ length newc = 1 ∧ length newr = 1
    ∧ Forall (tagged_result plain_params [Str "ZH"]) newr.
Proof.
  assert (holds_on
            (Cli.deconvolve_all idle_resampler halves_engine plain_params false false
               [(18900%Z, ["Alpha"; "Delta"])] example_prepared [Str "ZH"]
               [(18900%Z, None)] (Driver 0 [] [])).1
            (λ _, true) = true) as Hok by (vm_compute; reflexivity).
  assert (length (calls
            (Cli.deconvolve_all idle_resampler halves_engine plain_params false false
               [(18900%Z, ["Alpha"; "Delta"])] example_prepared [Str "ZH"]
               [(18900%Z, None)] (Driver 0 [] [])).2) = 1) as Hone
    by (vm_compute; reflexivity).
  destruct (Cli.deconvolve_all idle_resampler halves_engine plain_params false false
              [(18900%Z, ["Alpha"; "Delta"])] example_prepared [Str "ZH"]
              [(18900%Z, None)] (Driver 0 [] [])) as [[[]|e] s'] eqn:H;
    [|discriminate].
  destruct (fits_collected idle_resampler halves_engine plain_params false false
              [(18900%Z, ["Alpha"; "Delta"])] example_prepared [Str "ZH"]
              [(18900%Z, None)] (Driver 0 [] []) s' H)
    as (newr & newc & Hr & Hc & Hlen & Htag).
  cbn [all_deconv calls app snd] in Hr, Hc, Hone.
  exists s', newr, newc. split; [reflexivity|]. split; [exact Hr|]. split; [exact Hc|].
  assert (length newc = 1) as Hnc by (by rewrite <-Hc).
  split; [exact Hnc|]. split; [|exact Htag].
  rewrite Hlen, Hnc. reflexivity.
Defined.

Lemma seed_irrelevant_without_bootstrap_witness :
  (Cli.run seed_as_state idle_resampler halves_engine example_astype_str (λ x, x)
     example_float_repr example_json_quote
     (with_seed example_scheduled_run (Some 1%Z)) (example_state example_prepared)
     (Driver 0 [] [])).1
  = (Cli.run seed_as_state idle_resampler halves_engine example_astype_str (λ x, x)
       example_float_repr example_json_quote
       (with_seed example_scheduled_run (Some 2%Z)) (example_state example_prepared)
       (Driver 0 [] [])).1.
Proof.
  apply (seed_irrelevant_without_bootstrap seed_as_state idle_resampler halves_engine
           example_astype_str (λ x, x) example_float_repr example_json_quote
           example_scheduled_run (example_state example_prepared)
           (Some 1%Z) (Some 2%Z) (Driver 0 [] [])).
  cbn. lia.
Defined.

(** The two runs end with a table of three rows, the proportions of Alpha,
    Delta and the undetermined rest. *)
Example plain_run_example :
  holds_on
    (Cli.run seed_as_state idle_resampler halves_engine example_astype_str (λ x, x)
       example_float_repr example_json_quote
       (with_seed example_scheduled_run (Some 1%Z)) (example_state example_prepared)
       (Driver 0 [] [])).1
    (λ out, bool_decide (length (rows (Cli.csv out)) = 3)) = true.
Proof. vm_compute. reflexivity. Qed.


Lemma no_date_overrides_bandwidth_witness :
  ∃ p, Cli.read_params deconv_misspelt true = Ok p
    ∧ dict_get (Cli.kernel_params p) "bandwidth" = Some (Num Cli.tiny_bandwidth)
    ∧ dict_get (Cli.kernel_params p) "order" = Some (Num 1%Qc).
Proof.
  destruct (Cli.read_params deconv_misspelt true) as [p|e] eqn:Hp;
    [|vm_compute in Hp; discriminate].
  destruct (no_date_overrides_bandwidth idle_resampler halves_engine deconv_misspelt
              true p false [(18900%Z, ["Alpha"; "Delta"])] example_prepared
              [Str "ZH"] [(18900%Z, None)] (Driver 0 [] []) Hp) as [Hnd _].
  destruct (Hnd eq_refl) as (Hb & Hother & _).
  exists p. split; [reflexivity|]. split; [exact Hb|].
  rewrite Hother by discriminate. reflexivity.
Defined.

Lemma unknown_names_fall_back_witness :
  ∃ p, Cli.read_params deconv_misspelt false = Ok p
    ∧ Cli.kernel p = GaussianKernel ∧ Cli.regressor p = RobustReg
    ∧ Cli.have_confint p = false ∧ Cli.confint_name p = None.
Proof.
  destruct (Cli.read_params deconv_misspelt false) as [p|e] eqn:Hp;
    [|vm_compute in Hp; discriminate].
  destruct (unknown_names_fall_back deconv_misspelt false p Hp)
    as (_ & Hk & Hr & _ & Hc & _ & Hnone).
  assert (Cli.have_confint p = false) as Hfalse.
  { destruct (Cli.have_confint p); [|reflexivity].
    pose proof (proj1 Hc eq_refl) as Hw. discriminate Hw. }
  exists p. split; [reflexivity|]. split; [apply Hk; discriminate|].
  split; [by apply Hr|]. split; [exact Hfalse|]. by apply Hnone.
Defined.

Lemma script_one_fit_per_city_and_replicate_witness :
  ∃ long s',
    Script.run seed_as_state idle_resampler halves_engine example_script_run
      example_prepared [Str "ZH"; Str "BE"] (Driver 0 [] [])
    = (Ok long, s')
    ∧ length (calls s') = 6 ∧ length (all_deconv s') = 6.
Proof.
  assert (holds_on
            (Script.run seed_as_state idle_resampler halves_engine example_script_run
               example_prepared [Str "ZH"; Str "BE"] (Driver 0 [] [])).1
            (λ _, true) = true) as Hok by (vm_compute; reflexivity).
  destruct (Script.run seed_as_state idle_resampler halves_engine example_script_run
              example_prepared [Str "ZH"; Str "BE"] (Driver 0 [] []))
    as [[long|e] s'] eqn:H; [|discriminate].
  destruct (script_one_fit_per_city_and_replicate seed_as_state idle_resampler
              halves_engine example_script_run example_prepared [Str "ZH"; Str "BE"]
              (Driver 0 [] []) long s' H) as (p & Hp & Hc & Hr).
  vm_compute in Hp. injection Hp as <-.
  exists long, s'. split; [reflexivity|]. split; [exact Hc | exact Hr].
Defined.

Lemma confint_needs_scale_witness :
  Cli.reverse_logit (λ x, x) wald_params_without_scale aggregated_missing_bound
  = Err (KeyError "scale").
Proof.
  apply (confint_needs_scale (λ x, x) wald_params_without_scale); reflexivity.
Defined.

Lemma aggregated_frame_sorted_witness :
  ∃ out, Cli.aggregate (λ x, x) bootstrap_params three_replicates = Ok out
    ∧ Sorted (Cli.row_le ["location"; "variant"; "date"]) (rows out).
Proof.
  destruct (Cli.aggregate (λ x, x) bootstrap_params three_replicates)
    as [out|e] eqn:Hout; [|vm_compute in Hout; discriminate].
  exists out. split; [reflexivity|].
  exact (aggregated_frame_sorted (λ x, x) bootstrap_params three_replicates out Hout).
Defined.

Lemma json_text_has_no_NaN_witness :
  ∃ text, Cli.json_output example_astype_str example_float_repr example_json_quote
            wald_params false aggregated_missing_bound = Ok text
    ∧ ¬ within "NaN" text.
Proof.
  destruct (Cli.json_output example_astype_str example_float_repr example_json_quote
              wald_params false aggregated_missing_bound) as [text|e] eqn:Htext;
    [|vm_compute in Htext; discriminate].
  exists text. split; [reflexivity|].
  exact (json_text_has_no_NaN example_astype_str example_float_repr example_json_quote
           wald_params false aggregated_missing_bound text Htext).
Defined.

Lemma json_every_variant_under_every_location_witness :
  ∃ d : Cli.update_data,
    Cli.build_update_data example_astype_str plain_params true aggregated_no_loc = Ok d
    ∧ ∀ loc per_var, (loc, per_var) ∈ d → per_var.*1 = [Str "Alpha"].
Proof.
  destruct (Cli.build_update_data example_astype_str plain_params true
              aggregated_no_loc) as [d|e] eqn:Hd; [|vm_compute in Hd; discriminate].
  exists d. split; [reflexivity|]. intros loc per_var Hin.
  destruct (json_every_variant_under_every_location example_astype_str plain_params
              true aggregated_no_loc d Hd loc per_var Hin) as [Hvars _].
  exact Hvars.
Defined.

End LoopInstances.

(** * What the preparation hands to the loops *)

Section PreparedState.
Import Lollipop Cli.

Variable astype_str : cell → string.
Variable to_datetime : cell → result cell.

Lemma dict_get_key {V} (d : dict Z V) k :
  k ∈ dict_keys d → ∃ v, dict_get d k = Some v ∧ (k, v) ∈ d.
Proof.
  unfold dict_keys. induction d as [|[k' v'] d IH]; intros Hk.
  - by apply elem_of_nil in Hk.
  - cbn [dict_get]. destruct (decide (k' = k)) as [-> | Hne].
    + exists v'. split; [done | left].
    + rewrite fmap_cons in Hk. apply elem_of_cons in Hk as [Hk | Hk]; [done|].
      destruct (IH Hk) as (v & Hv & Hin). exists v. split; [done | by right].
Qed.

(** X27 (lines 128-309).  When the preparation succeeds, what it hands to the
    loops fits together: the periods are those of the schedule and have passed
    the check of their order, every period finds its variants in the
    schedule and they are all among the variants searched for, the
    location-less mode has the one location [location], and the preprocessed
    table has the columns [date] and [undetermined]. *)
Theorem prepared_state_consistent i printed st :
  prepare astype_str to_datetime i = (printed, Ok st) →
  pr_date_intervals st = date_intervals (pr_var_dates st) ∧
  (pr_variants_list st, pr_var_dates st) = plan_variants i (pr_no_date st) ∧
  check_intervals (pr_no_date st) (pr_date_intervals st) = Ok tt ∧
  (∀ w, w ∈ pr_date_intervals st →
     ∃ l, window_variants (pr_var_dates st) w.1 = Ok l
          ∧ ∀ v, v ∈ l → v ∈ pr_variants_list st) ∧
  (pr_no_loc st = true → pr_locations_list st = [Str "location"]) ∧
  "date" ∈ columns (pr_df_tally st) ∧ "undetermined" ∈ columns (pr_df_tally st).
Proof.
  unfold prepare.
  destruct (handle_location _ _ _ _) as [printed' located]. intros [= _ H].
  apply bind_ok in H as ([df1 nl] & _ & H).
  apply bind_ok in H as ([df2 locs] & Hlocs & H).
  apply bind_ok in H as ([df3 nd] & _ & H).
  destruct (plan_variants i nd) as [vl vd] eqn:Hplan.
  apply bind_ok in H as ([] & Hchk & H).
  apply bind_ok in H as (df4 & Hpre & H).
  injection H as <-.
  cbn [pr_date_intervals pr_var_dates pr_variants_list pr_no_date pr_no_loc
       pr_locations_list pr_df_tally].
  split; [done|]. split; [by rewrite Hplan|]. split; [done|]. split; [|split].
  - intros [m mx] Hw. cbn [fst].
    assert (m ∈ dict_keys vd) as Hm.
    { unfold date_intervals in Hw. by apply elem_of_zip_l in Hw. }
    destruct (dict_get_key vd m Hm) as (l & Hget & Hin).
    exists l. unfold window_variants. rewrite Hget. split; [done|].
    intros v Hv. pose proof (plan_variants_covers i nd m l v) as Hcov.
    rewrite Hplan in Hcov. by apply Hcov.
  - intros ->. unfold resolve_locations in Hlocs. cbn [mbind result_bind] in Hlocs.
    apply bind_ok in Hlocs as (values & _ & Hlocs).
    apply bind_ok in Hlocs as (? & _ & Hlocs). by injection Hlocs as _ <-.
  - unfold Preprocessors.filter_mutations.
    destruct (general_preprocess_rows astype_str to_datetime _ _ _ Hpre)
      as (t & Ht & _ & Hcols & _).
    destruct (before_recode_rows astype_str to_datetime _ _ _ Ht) as [Hdate _].
    split; apply Hcols; [by right | by left].
Qed.

End PreparedState.

Lemma prepared_state_consistent_witness :
  ∃ printed st,
    Cli.prepare example_astype_str example_to_datetime example_run = (printed, Ok st)
    ∧ Cli.pr_date_intervals st = Cli.date_intervals (Cli.pr_var_dates st)
    ∧ "undetermined" ∈ columns (Cli.pr_df_tally st).
Proof.
  assert (is_ok (Cli.prepare example_astype_str example_to_datetime example_run).2
          = true) as Hok by (vm_compute; reflexivity).
  destruct (Cli.prepare example_astype_str example_to_datetime example_run)
    as [printed [st|e]] eqn:H; [|discriminate].
  destruct (prepared_state_consistent example_astype_str example_to_datetime
              example_run printed st H) as (Hint & _ & _ & _ & _ & _ & Hund).
  exists printed, st. split; [reflexivity|]. split; [exact Hint | exact Hund].
Defined.

(** * The wide form of the delimited table *)

Section WideForm.
Import Lollipop Cli.

Lemma elem_of_merge_sort {A} (R : relation A) `{!RelDecision R} (l : list A) x :
  x ∈ merge_sort R l ↔ x ∈ l.
Proof. by rewrite merge_sort_Permutation. Qed.

Lemma exported_values p v :
  v ∈ set_diff_list (dict_values (export_columns p)) ["date"] ↔
  v = "proportion"
  ∨ ((1 < bootstrap p)%Z ∨ have_confint p = true)
    ∧ (v = "proportionLower" ∨ v = "proportionUpper").
Proof.
  rewrite elem_of_set_diff_list. unfold export_columns.
  case_bool_decide as Hb; [|destruct (have_confint p) eqn:Hc];
    cbn [dict_values fmap list_fmap snd];
    rewrite !elem_of_cons, elem_of_nil; naive_solver.
Qed.

(** X28 (lines 529-563).  With [--fmt-columns] the table has the columns
    [location] and [date] and, for every variant of the aggregated frame, a
    column of that name for its proportion and, when bounds are reported, the
    columns [variant_Lower] and [variant_Upper]; of these, [location] is left
    out in the single-location mode and [date] in the date-less mode.  The
    column [variant] itself is gone unless a variant is called so. *)
Theorem wide_format_columns p no_loc no_date deconv_df_agg out :
  csv_output p true no_loc no_date deconv_df_agg = Ok out →
  ∀ c, c ∈ columns out ↔
    (no_loc = true → c ≠ "location") ∧ (no_date = true → c ≠ "date") ∧
    (c = "location" ∨ c = "date" ∨
     ∃ r, r ∈ rows deconv_df_agg ∧
       (c = str_of (at_ r "variant")
        ∨ ((1 < bootstrap p)%Z ∨ have_confint p = true)
          ∧ (c = str_of (at_ r "variant") +:+ "_Lower"
             ∨ c = str_of (at_ r "variant") +:+ "_Upper"))).
Proof.
  unfold csv_output. intros H. apply bind_ok in H as (output_df & Hwide & H).
  injection H as <-. apply bind_ok in Hwide as (wide & Hwide & Hnamed).
  injection Hnamed as <-. unfold pivot_wide in Hwide.
  apply bind_ok in Hwide as (? & _ & Hwide). apply bind_ok in Hwide as (rs & _ & Hwide).
  injection Hwide as <-. intros c.
  unfold drop_columns, named. cbn [columns f_columns app].
  rewrite list_elem_of_filter, !fmap_cons, !elem_of_cons, list_elem_of_fmap.
  change (wide_name (Multi "location" "")) with "location".
  change (wide_name (Multi "date" "")) with "date".
  assert (∀ v, v ∈ merge_sort str_le
                     (unique ((λ r, str_of (at_ r "variant")) <$> rows deconv_df_agg))
               ↔ ∃ r, r ∈ rows deconv_df_agg ∧ v = str_of (at_ r "variant")) as Hvar.
  { intros v. rewrite elem_of_merge_sort, elem_of_unique, list_elem_of_fmap.
    naive_solver. }
  assert (c ∉ (if no_loc then ["location"] else []) ++ (if no_date then ["date"] else [])
          ↔ (no_loc = true → c ≠ "location") ∧ (no_date = true → c ≠ "date")) as ->.
  { rewrite elem_of_app. destruct no_loc, no_date;
      rewrite ?list_elem_of_singleton, ?elem_of_nil; naive_solver. }
  split.
  - intros [[Hl Hd] Hc]. split; [done|]. split; [done|].
    destruct Hc as [-> | [-> | (col & -> & Hcol)]]; [by left | by right; left|].
    right. right. apply list_elem_of_bind in Hcol as (val & Hcol & Hval).
    apply list_elem_of_fmap in Hcol as (v & -> & Hv).
    apply Hvar in Hv as (r & Hr & ->). exists r. split; [done|].
    apply exported_values in Hval as [-> | [Hmode [-> | ->]]].
    + by left.
    + right. split; [done|]. by left.
    + right. split; [done|]. by right.
  - intros (Hl & Hd & Hc). split; [done|].
    destruct Hc as [-> | [-> | (r & Hr & Hc)]]; [by left | by right; left|].
    right. right.
    assert (str_of (at_ r "variant")
            ∈ merge_sort str_le
                (unique ((λ r, str_of (at_ r "variant")) <$> rows deconv_df_agg)))
      as Hv by (apply Hvar; eauto).
    destruct Hc as [-> | [Hmode [-> | ->]]].
    + exists (Multi "proportion" (str_of (at_ r "variant"))). split; [done|].
      apply list_elem_of_bind. exists "proportion".
      split; [apply list_elem_of_fmap; eauto|]. apply exported_values. by left.
    + exists (Multi "proportionLower" (str_of (at_ r "variant"))). split; [done|].
      apply list_elem_of_bind. exists "proportionLower".
      split; [apply list_elem_of_fmap; eauto|]. apply exported_values. right. auto.
    + exists (Multi "proportionUpper" (str_of (at_ r "variant"))). split; [done|].
      apply list_elem_of_bind. exists "proportionUpper".
      split; [apply list_elem_of_fmap; eauto|]. apply exported_values. right. auto.
Qed.

End WideForm.

Lemma wide_format_columns_witness :
  ∃ out, Cli.csv_output plain_params true true false aggregated_no_loc = Ok out
    ∧ "Alpha" ∈ columns out ∧ ("location" ∉ columns out)
    ∧ ("Alpha_Lower" ∉ columns out).
Proof.
  destruct (Cli.csv_output plain_params true true false aggregated_no_loc)
    as [out|e] eqn:Hout; [|vm_compute in Hout; discriminate].
  pose proof (wide_format_columns plain_params true false aggregated_no_loc out Hout)
    as Hcols.
  exists out. split; [reflexivity|]. split; [|split].
  - apply Hcols. split; [by intros _|]. split; [by intros [=]|]. right. right. eexists. split; [apply list_elem_of_here|].
    left. reflexivity.
  - intros Hin. apply Hcols in Hin as (Hl & _). by apply Hl.
  - intros Hin. apply Hcols in Hin as (_ & _ & [Hin | [Hin | (r & Hr & Hin)]]);
      [discriminate Hin | discriminate Hin|].
    apply list_elem_of_singleton in Hr as ->.
    destruct Hin as [Hin | [[Hb | Hc] _]];
      [discriminate Hin | vm_compute in Hb; discriminate Hb | discriminate Hc].
Defined.
